(** * Airline line chart: synthetic data generator and hover/visibility state

    A shallow embedding of the two chart components of the repository,

      - the chart of [src/App.tsx], the one with the throttled pointer
        handler and the fade opacity 0.08 (module [AppTsx]), and
      - the chart of [src/components/LineChart.tsx], with the fade
        opacity 0.15 and a [dot] renderer (module [LineChartTsx]),

    together with the properties of the generator ([generateData]) and of
    the interaction state (visibility sets, hover target, active index,
    tooltip, z-order).  Each module is transcribed from its own file;
    what the two files share word for word (types, palettes, catalog) is
    declared once.

    Conventions of the embedding.

    - A JavaScript [number] is a rational in lowest terms ([Qc]) and
      every arithmetic operation rounds its exact result to the nearest
      binary64 value, ties to even, subnormals included ([binary64],
      [fadd], [fsub], [fmul], [fdiv]).  A decimal literal that is a
      binary64 value, such as [2000] or [0.5], is written [num 2000];
      one that is not and enters the arithmetic, such as [0.08] in the
      perturbation, is the nearest binary64 value [lit 0.08].  The fade
      opacities [0.08] and [0.15] enter no arithmetic: they are handed
      to the renderer and are written [num 0.08] and [num 0.15], the
      decimals that the renderer prints.  Bounds are stated with the
      exact operations of [Qc].  Infinity, NaN and the sign of zero are
      not modelled: the generator never leaves the range of the finite
      doubles.
    - [Math.random()] is a stream [rnd : nat -> Qc]; the generator
      threads the number of calls made so far, so that the k-th call
      returns [rnd k].
    - [Date.now()] is an explicit argument of the pointer-move handler.
    - A JavaScript object used as a dictionary is a [gmap string Qc], a
      [Set] is a [gset]; [forEach] is [fold_left].  Airline codes are
      ordinary keys: the key [__proto__], which an object does not store
      on assignment, is outside the model. *)

From Stdlib Require Import QArith Qcanon Qabs Qcabs Qround Qpower Lqa ZArith Lia.
From stdpp Require Import gmap strings list fin_maps pretty.

Local Open Scope Z_scope.

(** ** JavaScript numbers and built-ins used by the components *)

(** A numeric literal that is a binary64 value. *)
Definition num (q : Q) : Qc := Q2Qc q.
Arguments num q%_Q.

(** *** Binary64 rounding

    [2^z] for an integer [z]; for [x > 0] the exponent [e] of the binade
    of [x], [2^e <= x < 2^(e+1)]; and the integer nearest to [x], a half
    going to the even neighbour. *)
Definition pow2 (z : Z) : Q := (2 ^ z)%Q.

Definition ilog2 (x : Q) : Z :=
  let e0 := Z.log2 (Qnum x) - Z.log2 (Z.pos (Qden x)) in
  if Qlt_le_dec x (pow2 e0) then e0 - 1 else e0.

Definition round_half_even (x : Q) : Z :=
  let f := Qfloor x in
  match (x - inject_Z f ?= 1 # 2)%Q with
  | Lt => f
  | Gt => f + 1
  | Eq => if Z.even f then f else f + 1
  end.

(** The binary64 value nearest to [x]: 53 significant bits, the spacing
    of the subnormals ([2^-1074]) below [2^-1022], ties to even. *)
Definition binary64 (x : Qc) : Qc :=
  if Qeq_bool x 0 then x
  else
    let e := Z.max (ilog2 (Qabs x)) (-1022) in
    let ulp := pow2 (e - 52) in
    Q2Qc (inject_Z (round_half_even (x / ulp)) * ulp).

(** A decimal literal, and the four arithmetic operators. *)
Definition lit (q : Q) : Qc := binary64 (num q).
Arguments lit q%_Q.

(** The relative margin [2^-40] left for rounding in the bounds stated
    below on results of several operations. *)
Definition roundingMargin : Qc := num (1 # 1099511627776).

Definition fadd (x y : Qc) : Qc := binary64 (x + y).
Definition fsub (x y : Qc) : Qc := binary64 (x - y).
Definition fmul (x y : Qc) : Qc := binary64 (x * y).
Definition fdiv (x y : Qc) : Qc := binary64 (x / y).

(** [Math.max(a, b)] and [Math.min(a, b)] on two numbers. *)
Definition Math_max (a b : Qc) : Qc := if Qclt_le_dec a b then b else a.
Definition Math_min (a b : Qc) : Qc := if Qclt_le_dec b a then b else a.

(** [Math.round(x)]: the integer nearest to [x], halves going up.  The
    built-in is exact; the sum below is the sum of rationals. *)
Definition Math_round (x : Qc) : Qc := Qc_of_Z (Qfloor (x + num 0.5)%Qc).

(** [Array.prototype.sort(cmp)]: a stable sort.  [cmp a b > 0] asks for
    [a] after [b].  Written as a stable insertion sort; the comparator of
    the components only separates the hovered airline from the others,
    and for it every stable sort returns the same list
    ([stable_sort_unique] below). *)
Fixpoint sort_insert {A} (cmp : A -> A -> Z) (x : A) (l : list A) : list A :=
  match l with
  | [] => [x]
  | y :: l' => if 0 <? cmp x y then y :: sort_insert cmp x l' else x :: l
  end.

Definition Array_sort {A} (cmp : A -> A -> Z) (l : list A) : list A :=
  foldr (sort_insert cmp) [] l.

(** ** Data model (identical in both files) *)

Inductive Group : Set := operating | discontinued.

#[global] Instance Group_eq_dec : EqDecision Group.
Proof. solve_decision. Defined.

#[global] Instance Group_countable : Countable Group.
Proof.
  refine (inj_countable' (fun g => match g with operating => true | discontinued => false end)
                         (fun b : bool => if b then operating else discontinued) _).
  by intros [].
Defined.

Record Airline := {
  code : string;
  name : string;
  color : string;
  group : Group
}.

(** [interface DataPoint { year: number; [key: string]: number }]: one
    object holding the time coordinate under the key ["year"] and one
    value per airline code. *)
Abbreviation DataPoint := (gmap string Qc).

Definition operatingColors : list string :=
  ["#1f77b4"; "#2ca02c"; "#ff7f0e"; "#d62728"; "#9467bd";
   "#8c564b"; "#e377c2"; "#7f7f7f"; "#bcbd22"; "#17becf"]%string.

Definition discontinuedColors : list string :=
  ["#aec7e8"; "#98df8a"; "#ffbb78"; "#ff9896"; "#c5b0d5";
   "#c49c94"; "#f7b6d3"; "#c7c7c7"; "#dbdb8d"; "#9edae5"]%string.

(** [generateAirlines()]: six operating airlines followed by six
    discontinued ones, coloured by position in the group's palette. *)
Definition generateAirlines : list Airline :=
  let operatingAirlines :=
    imap (fun index code =>
            {| code := code;
               name := ("Airline " ++ code)%string;
               color := default ""%string (operatingColors !! index);
               group := operating |})
         ["LX"; "BA"; "AF"; "LH"; "KL"; "IB"]%string in
  let discontinuedAirlines :=
    imap (fun index code =>
            {| code := code;
               name := ("Airline " ++ code)%string;
               color := default ""%string (discontinuedColors !! index);
               group := discontinued |})
         ["CX"; "LZ"; "C3"; "UL"; "AA"; "DL"]%string in
  operatingAirlines ++ discontinuedAirlines.

(** State of the generator between two iterations of its outer loops:
    the [lastValues] object, the number of [Math.random()] calls made so
    far, and the [data] array built so far. *)
Record GenState := {
  lastValues : gmap string Qc;
  calls : nat;
  data : list (gmap string Qc)
}.

(** The time axis: [years] is [2010 .. 2024], [months] is [1 .. 12]. *)
Definition years : list Z := (fun i : nat => 2010 + Z.of_nat i) <$> seq 0 15.
Definition months : list Z := (fun i : nat => Z.of_nat i + 1) <$> seq 0 12.

(** The (year, month) pairs in the order in which the nested
    [years.forEach] / [months.forEach] loops visit them. *)
Definition schedule : list (Z * Z) :=
  y ← years; (fun m => (y, m)) <$> months.

(** The (year, month) of time step [t], for [t < 180]. *)
Definition monthAt (t : nat) : Z * Z := default (0, 0) (schedule !! t).

(** Inputs used in the examples: a random source that always returns the
    same number, one that returns 0.25 and then 0.501953125 (that is
    1/2 + 1/512), and small catalogs built like [generateAirlines]. *)
Definition constantRandom (r : Qc) : nat -> Qc := fun _ => r.

Definition jumpRandom : nat -> Qc :=
  fun k => match k with O => num 0.25 | S _ => num 0.501953125 end.

(** A random source that returns 0.5, then 0.25, then 0 for ever. *)
Definition edgeRandom : nat -> Qc :=
  fun k => match k with O => num 0.5 | S O => num 0.25 | _ => num 0 end.

Definition airlineLX : Airline :=
  {| code := "LX"; name := "Airline LX"; color := "#1f77b4"; group := operating |}.
Definition airlineBA : Airline :=
  {| code := "BA"; name := "Airline BA"; color := "#2ca02c"; group := operating |}.
Definition airlineCX : Airline :=
  {| code := "CX"; name := "Airline CX"; color := "#aec7e8"; group := discontinued |}.
Definition airlineLZ : Airline :=
  {| code := "LZ"; name := "Airline LZ"; color := "#98df8a"; group := discontinued |}.

Definition twoPlusTwo : list Airline :=
  [airlineLX; airlineBA; airlineCX; airlineLZ].

(** The value the initialisation loop stores for an airline of group [g]
    when its [Math.random()] call returns [r]. *)
Definition startValue (g : Group) (r : Qc) : Qc :=
  match g with
  | operating => fadd (fmul r (num 2000)) (num 2000)
  | discontinued => fadd (fmul r (num 1500)) (num 1000)
  end.

(** The clamp ranges of the two groups, as written in both generators:
    [Math.max(800, Math.min(5500, _))] and
    [Math.max(100, Math.min(3500, _))]. *)
Definition bandMin (g : Group) : Qc :=
  match g with operating => num 800 | discontinued => num 100 end.

Definition bandMax (g : Group) : Qc :=
  match g with operating => num 5500 | discontinued => num 3500 end.

Definition inBand (g : Group) (v : Qc) : Prop :=
  (bandMin g <= v)%Qc /\ (v <= bandMax g)%Qc.

(** The two bands together: what [lastValues] can hold. *)
Definition inSomeBand (v : Qc) : Prop :=
  (num 100 <= v)%Qc /\ (v <= num 5500)%Qc.

(** [year + (month - 1) / 12], the number stored under "year" in the
    sample of a month, as both generators compute it. *)
Definition yearDecimalOf (year month : Z) : Qc :=
  fadd (Qc_of_Z year) (fdiv (fsub (Qc_of_Z month) (num 1)) (num 12)).

(** Whether the group-dependent block leaves the value of an airline of
    group [g] unmultiplied in the given month: none of the date tests of
    that group holds. *)
Definition noMultiplier (g : Group) (year month : Z) : bool :=
  match g with
  | operating =>
      negb ((year =? 2020) && (3 <=? month) && (month <=? 6))
      && negb ((year =? 2021) || ((year =? 2022) && (month <=? 6)))
  | discontinued => negb (2015 <? year)
  end.

(** ** Events and tooltip content (identical in both files) *)

(** The argument recharts passes to [onMouseMove].  Its
    [activeTooltipIndex] is [undefined] ([None]), [null] ([Some None]) or
    a number ([Some (Some i)]). *)
Record MouseState := { activeTooltipIndex : option (option Z) }.

(** A move event that reports the sample index [index]. *)
Definition moveOver (index : Z) : option MouseState :=
  Some {| activeTooltipIndex := Some (Some index) |}.

(** What the user (or the host page) can do to the chart. *)
Inductive Event :=
| ModeChange (checked : bool)            (* checkbox of [App] *)
| LegendItemClick (code : string)        (* [toggleItem(airline.code)] *)
| GroupHeaderClick (g : Group)           (* [toggleGroup(group)] *)
| ItemMouseEnter (code : string)         (* legend item or line hit area *)
| ItemMouseLeave
| ChartMouseMove (state : option MouseState)
| ChartMouseLeave.

(** What [CustomTooltip] renders: the airline, the [dataPoint.year] handed
    to [formatDate] and the number shown ([value?.toLocaleString() || 0]),
    or the date and one row per visible airline. *)
Inductive Tooltip :=
| SingleTooltip (airline : Airline) (year : option Qc) (value : Qc)
| ClassicTooltip (year : option Qc) (rows : list (Airline * Qc)).

(** [data[activeIndex]] on an array. *)
Definition array_get {A} (l : list A) (i : Z) : option A :=
  if 0 <=? i then l !! Z.to_nat i else None.

(** ** Date labels and legend (identical in both files) *)

(** [arr[n]] for an array and a number: [undefined] unless [n] is an
    integer inside the array. *)
Definition array_at {A} (l : list A) (n : Qc) : option A :=
  if decide (Qc_of_Z (Qfloor n) = n) then array_get l (Qfloor n) else None.

(** The [monthNames] array of [formatDate]. *)
Definition monthNames : list string :=
  ["Jan"; "Feb"; "Mar"; "Apr"; "May"; "Jun";
   "Jul"; "Aug"; "Sep"; "Oct"; "Nov"; "Dec"]%string.

(** The template literal of [formatDate]: the month name, or the text
    "undefined" when the array has no such entry, a space, and the year
    in decimal.  JavaScript prints an integer below [2^53] in absolute
    value all in digits; beyond, it prints the shortest decimal that
    reads back as the same number, and from [10^21] on in exponent
    notation.  Such years are outside the model: the statements on labels
    bound the year. *)
Definition dateTemplate (month : option string) (year : Z) : string :=
  (default "undefined" month ++ " " ++ pretty year)%string.

(** What [renderLegend] draws: per group its title, whether the group
    carries the class [group-hidden], and per airline whether its item
    carries the class [hidden]. *)
Record LegendItem := { itemAirline : Airline; itemHidden : bool }.

Record LegendGroup := {
  groupTitle : string;
  groupHidden : bool;
  groupItems : list LegendItem
}.

(** ** src/App.tsx *)

Module AppTsx.

(** The first [airlines.forEach]: one [Math.random()] per airline. *)
Definition initLastValues (rnd : nat -> Qc) (airlines : list Airline)
  : gmap string Qc * nat :=
  fold_left
    (fun (acc : gmap string Qc * nat) airline =>
       let '(lastValues, k) := acc in
       match group airline with
       | operating =>
           (<[code airline := fadd (fmul (rnd k) (num 2000)) (num 2000)]> lastValues, S k)
       | discontinued =>
           (<[code airline := fadd (fmul (rnd k) (num 1500)) (num 1000)]> lastValues, S k)
       end)
    airlines (∅, O).

(** [lastValue + variation], the value of [newValue] at its declaration,
    for the random draw [r]. *)
Definition perturbed (lastValue r : Qc) : Qc :=
  let maxVariation := fmul lastValue (lit 0.08) in
  let variation := fmul (fmul (fsub r (num 0.5)) (num 2)) maxVariation in
  fadd lastValue variation.

(** The group-dependent [if] block: multipliers by date, then the clamp. *)
Definition applyTrend (g : Group) (year month : Z) (newValue : Qc) : Qc :=
  match g with
  | operating =>
      let newValue :=
        if (year =? 2020) && (3 <=? month) && (month <=? 6)
        then fmul newValue (lit 0.85) else newValue in
      let newValue :=
        if (year =? 2021) || ((year =? 2022) && (month <=? 6))
        then fmul newValue (lit 1.02) else newValue in
      Math_max (num 800) (Math_min (num 5500) newValue)
  | discontinued =>
      let newValue :=
        if 2015 <? year then fmul newValue (lit 0.997) else newValue in
      let newValue :=
        if 2018 <? year then fmul newValue (lit 0.995) else newValue in
      Math_max (num 100) (Math_min (num 3500) newValue)
  end.

(** Body of the inner [airlines.forEach].  The accumulator is
    ([lastValues], number of random calls, [dataPoint]).  Every code read
    from [lastValues] was written by [initLastValues] over the same
    catalog, so the default of the lookup is never used. *)
Definition airlineStep (rnd : nat -> Qc) (year month : Z)
    (acc : gmap string Qc * nat * gmap string Qc) (airline : Airline)
  : gmap string Qc * nat * gmap string Qc :=
  let '(lastValues, k, dataPoint) := acc in
  let lastValue := default (num 0) (lastValues !! code airline) in
  let newValue := perturbed lastValue (rnd k) in
  let newValue := applyTrend (group airline) year month newValue in
  (<[code airline := newValue]> lastValues, S k,
   <[code airline := Math_round newValue]> dataPoint).

(** [{ year: year + (month - 1) / 12 }] *)
Definition newDataPoint (year month : Z) : gmap string Qc :=
  {[ "year"%string := yearDecimalOf year month ]}.

(** Body of [months.forEach]: a fresh [dataPoint], the loop over the
    airlines, then [data.push(dataPoint)]. *)
Definition monthStep (rnd : nat -> Qc) (airlines : list Airline)
    (st : GenState) (year month : Z) : GenState :=
  let dataPoint := newDataPoint year month in
  let '(lastValues', k', dataPoint') :=
    fold_left (airlineStep rnd year month) airlines
              (lastValues st, calls st, dataPoint) in
  {| lastValues := lastValues'; calls := k'; data := data st ++ [dataPoint'] |}.

Definition initState (rnd : nat -> Qc) (airlines : list Airline) : GenState :=
  let '(lastValues0, k0) := initLastValues rnd airlines in
  {| lastValues := lastValues0; calls := k0; data := [] |}.

(** The nested loops of [generateData], returning the final state. *)
Definition generateRun (rnd : nat -> Qc) (airlines : list Airline) : GenState :=
  fold_left
    (fun st year =>
       fold_left (fun st month => monthStep rnd airlines st year month) months st)
    years (initState rnd airlines).

Definition generateData (rnd : nat -> Qc) (airlines : list Airline)
  : list (gmap string Qc) :=
  data (generateRun rnd airlines).

(** *** Intermediate states of the run

    The state once the first [t] months of the schedule are done, and the
    accumulator of the inner loop just before the [j]-th airline of month
    [t] is handled. *)
Definition runMonths (rnd : nat -> Qc) (airlines : list Airline)
    (sched : list (Z * Z)) : GenState :=
  fold_left (fun st ym => monthStep rnd airlines st ym.1 ym.2) sched
            (initState rnd airlines).

Definition stateAfter (rnd : nat -> Qc) (airlines : list Airline) (t : nat)
  : GenState :=
  runMonths rnd airlines (take t schedule).

Definition stateBefore (rnd : nat -> Qc) (airlines : list Airline) (t j : nat)
  : gmap string Qc * nat * gmap string Qc :=
  let st := stateAfter rnd airlines t in
  let ym := monthAt t in
  fold_left (airlineStep rnd ym.1 ym.2) (take j airlines)
            (lastValues st, calls st, newDataPoint ym.1 ym.2).

(** *** The component: state, handlers and derived values *)

(** The [useState] cells of the component and the [lastUpdateRef]
    ref of the throttle. *)
Record ChartState := {
  hiddenItems : gset string;
  hiddenGroups : gset Group;
  hoveredItem : option string;
  activeIndex : option Z;
  lastUpdateRef : Z
}.

Definition initialState : ChartState :=
  {| hiddenItems := ∅; hiddenGroups := ∅;
     hoveredItem := None; activeIndex := None;
     lastUpdateRef := 0 |}.

Definition setHoveredItem (h : option string) (st : ChartState) : ChartState :=
  {| hiddenItems := hiddenItems st; hiddenGroups := hiddenGroups st;
     hoveredItem := h; activeIndex := activeIndex st;
     lastUpdateRef := lastUpdateRef st |}.

Definition setActiveIndex (i : option Z) (st : ChartState) : ChartState :=
  {| hiddenItems := hiddenItems st; hiddenGroups := hiddenGroups st;
     hoveredItem := hoveredItem st; activeIndex := i;
     lastUpdateRef := lastUpdateRef st |}.

Definition toggleItem (code : string) (st : ChartState) : ChartState :=
  let newSet :=
    if decide (code ∈ hiddenItems st) then hiddenItems st ∖ {[ code ]}
    else hiddenItems st ∪ {[ code ]} in
  {| hiddenItems := newSet; hiddenGroups := hiddenGroups st;
     hoveredItem := hoveredItem st; activeIndex := activeIndex st;
     lastUpdateRef := lastUpdateRef st |}.

Definition toggleGroup (g : Group) (st : ChartState) : ChartState :=
  let newSet :=
    if decide (g ∈ hiddenGroups st) then hiddenGroups st ∖ {[ g ]}
    else hiddenGroups st ∪ {[ g ]} in
  {| hiddenItems := hiddenItems st; hiddenGroups := newSet;
     hoveredItem := hoveredItem st; activeIndex := activeIndex st;
     lastUpdateRef := lastUpdateRef st |}.

Definition isItemVisible (st : ChartState) (airline : Airline) : bool :=
  if decide (group airline ∈ hiddenGroups st) then false
  else if decide (code airline ∈ hiddenItems st) then false
  else true.

Definition getLineOpacity (singleAirlineMode : bool) (st : ChartState)
    (airline : Airline) : Qc :=
  if decide (group airline ∈ hiddenGroups st) then num 0
  else if decide (code airline ∈ hiddenItems st) then num 0
  else if negb singleAirlineMode then num 1
  else if decide (hoveredItem st = None) then num 1
  else if decide (hoveredItem st = Some (code airline)) then num 1
  else num 0.08.

Definition getLineWidth (st : ChartState) (airline : Airline) : Qc :=
  if decide (hoveredItem st = Some (code airline)) then num 3 else num 2.

(** [CustomTooltip]; [None] is the [null] it returns.  The test
    [!hoveredItem] also rejects the empty string. *)
Definition CustomTooltip (singleAirlineMode : bool) (airlines : list Airline)
    (data : list (gmap string Qc)) (st : ChartState) : option Tooltip :=
  match activeIndex st with
  | None => None
  | Some i =>
      match array_get data i with
      | None => None
      | Some dataPoint =>
          if singleAirlineMode then
            match hoveredItem st with
            | None => None
            | Some h =>
                if decide (h = ""%string) then None
                else
                  match List.find (fun a => bool_decide (code a = h)) airlines with
                  | None => None
                  | Some airline =>
                      let value := dataPoint !! h in
                      Some (SingleTooltip airline (dataPoint !! "year"%string)
                                          (default (num 0) value))
                  end
            end
          else
            let visibleAirlines := List.filter (isItemVisible st) airlines in
            if (length visibleAirlines =? 0)%nat then None
            else
              Some (ClassicTooltip (dataPoint !! "year"%string)
                      ((fun airline =>
                          (airline, default (num 0) (dataPoint !! code airline)))
                         <$> visibleAirlines))
      end
  end.

Definition throttleMs : Z := 16.

(** [handleMouseMove(state)], run when [Date.now()] is [now]. *)
Definition handleMouseMove (now : Z) (state : option MouseState)
    (st : ChartState) : ChartState :=
  if now - lastUpdateRef st <? throttleMs then st
  else
    let st :=
      {| hiddenItems := hiddenItems st; hiddenGroups := hiddenGroups st;
         hoveredItem := hoveredItem st; activeIndex := activeIndex st;
         lastUpdateRef := now |} in
    match state with
    | Some {| activeTooltipIndex := Some index |} => setActiveIndex index st
    | _ => st
    end.

Definition handleMouseLeave (st : ChartState) : ChartState :=
  setActiveIndex None st.

(** The comparator of [sortedAirlines] and the sorted copy. *)
Definition hoverCompare (hoveredItem : option string) (a b : Airline) : Z :=
  if decide (Some (code a) = hoveredItem) then 1
  else if decide (Some (code b) = hoveredItem) then -1
  else 0.

Definition sortedAirlines (airlines : list Airline) (hoveredItem : option string)
  : list Airline :=
  Array_sort (hoverCompare hoveredItem) airlines.

(** The [activeDot] prop of the visible line: the radius of the dot, or
    [None] for [false]. *)
Definition activeDot (singleAirlineMode : bool) (st : ChartState)
    (airline : Airline) : option Z :=
  if bool_decide (activeIndex st ≠ None)
     && (if singleAirlineMode
         then bool_decide (hoveredItem st = Some (code airline))
         else isItemVisible st airline)
  then Some (if singleAirlineMode then 6 else 4)
  else None.

(** *** The mounted component

    The prop [singleAirlineMode] (state of [App]), the two [useMemo]
    values, and the component state.  [mount] is the first render. *)
Record World := {
  singleAirlineMode : bool;
  memoAirlines : list Airline;
  memoData : list (gmap string Qc);
  chart : ChartState
}.

Definition mount (rnd : nat -> Qc) (mode : bool) : World :=
  let airlines := generateAirlines in
  {| singleAirlineMode := mode;
     memoAirlines := airlines;
     memoData := generateData rnd airlines;
     chart := initialState |}.

Definition withChart (w : World) (st : ChartState) : World :=
  {| singleAirlineMode := singleAirlineMode w;
     memoAirlines := memoAirlines w;
     memoData := memoData w;
     chart := st |}.

(** One event, dispatched when [Date.now()] is [now]. *)
Definition step (now : Z) (e : Event) (w : World) : World :=
  match e with
  | ModeChange checked =>
      {| singleAirlineMode := checked;
         memoAirlines := memoAirlines w;
         memoData := memoData w;
         chart := chart w |}
  | LegendItemClick code => withChart w (toggleItem code (chart w))
  | GroupHeaderClick g => withChart w (toggleGroup g (chart w))
  | ItemMouseEnter code => withChart w (setHoveredItem (Some code) (chart w))
  | ItemMouseLeave => withChart w (setHoveredItem None (chart w))
  | ChartMouseMove state =>
      withChart w (handleMouseMove now state (chart w))
  | ChartMouseLeave =>
      withChart w (handleMouseLeave (chart w))
  end.

(** The states a user can bring the mounted chart into. *)
Inductive reachable (rnd : nat -> Qc) : World -> Prop :=
| reachable_mount mode : reachable rnd (mount rnd mode)
| reachable_step now e w : reachable rnd w -> reachable rnd (step now e w).

(** *** Date label and legend *)

(** [formatDate(yearDecimal)] *)
Definition formatDate (yearDecimal : Qc) : string :=
  let year := Qfloor yearDecimal in
  let monthIndex := Math_round (fmul (fsub yearDecimal (Qc_of_Z year)) (num 12)) in
  dateTemplate (array_at monthNames monthIndex) year.

(** The two filtered copies of the catalog. *)
Definition operatingAirlines (airlines : list Airline) : list Airline :=
  filter (fun a => group a = operating) airlines.

Definition discontinuedAirlines (airlines : list Airline) : list Airline :=
  filter (fun a => group a = discontinued) airlines.

(** [renderLegend()] *)
Definition renderLegend (airlines : list Airline) (st : ChartState)
  : list LegendGroup :=
  [ {| groupTitle := "Operating";
       groupHidden := bool_decide (operating ∈ hiddenGroups st);
       groupItems :=
         (fun airline =>
            {| itemAirline := airline;
               itemHidden := bool_decide (code airline ∈ hiddenItems st)
                             || bool_decide (operating ∈ hiddenGroups st) |})
           <$> operatingAirlines airlines |};
    {| groupTitle := "Discontinued";
       groupHidden := bool_decide (discontinued ∈ hiddenGroups st);
       groupItems :=
         (fun airline =>
            {| itemAirline := airline;
               itemHidden := bool_decide (code airline ∈ hiddenItems st)
                             || bool_decide (discontinued ∈ hiddenGroups st) |})
           <$> discontinuedAirlines airlines |} ].

(** *** A burst of pointer moves

    The handler applied to a list of moves, each with the value of
    [Date.now()] at which it arrives, and the arrival times of the moves
    that pass the throttle. *)
Definition runMoves (events : list (Z * option MouseState)) (st : ChartState)
  : ChartState :=
  fold_left (fun st e => handleMouseMove e.1 e.2 st) events st.

Fixpoint acceptedTimes (events : list (Z * option MouseState)) (st : ChartState)
  : list Z :=
  match events with
  | [] => []
  | e :: events' =>
      if e.1 - lastUpdateRef st <? throttleMs
      then acceptedTimes events' (handleMouseMove e.1 e.2 st)
      else e.1 :: acceptedTimes events' (handleMouseMove e.1 e.2 st)
  end.

End AppTsx.

(** ** src/components/LineChart.tsx *)

Module LineChartTsx.

(** The first [airlines.forEach]: one [Math.random()] per airline. *)
Definition initLastValues (rnd : nat -> Qc) (airlines : list Airline)
  : gmap string Qc * nat :=
  fold_left
    (fun (acc : gmap string Qc * nat) airline =>
       let '(lastValues, k) := acc in
       match group airline with
       | operating =>
           (<[code airline := fadd (fmul (rnd k) (num 2000)) (num 2000)]> lastValues, S k)
       | discontinued =>
           (<[code airline := fadd (fmul (rnd k) (num 1500)) (num 1000)]> lastValues, S k)
       end)
    airlines (∅, O).

(** [lastValue + variation], the value of [newValue] at its declaration,
    for the random draw [r]. *)
Definition perturbed (lastValue r : Qc) : Qc :=
  let maxVariation := fmul lastValue (lit 0.08) in
  let variation := fmul (fmul (fsub r (num 0.5)) (num 2)) maxVariation in
  fadd lastValue variation.

(** The group-dependent [if] block: multipliers by date, then the clamp. *)
Definition applyTrend (g : Group) (year month : Z) (newValue : Qc) : Qc :=
  match g with
  | operating =>
      let newValue :=
        if (year =? 2020) && (3 <=? month) && (month <=? 6)
        then fmul newValue (lit 0.85) else newValue in
      let newValue :=
        if (year =? 2021) || ((year =? 2022) && (month <=? 6))
        then fmul newValue (lit 1.02) else newValue in
      Math_max (num 800) (Math_min (num 5500) newValue)
  | discontinued =>
      let newValue :=
        if 2015 <? year then fmul newValue (lit 0.997) else newValue in
      let newValue :=
        if 2018 <? year then fmul newValue (lit 0.995) else newValue in
      Math_max (num 100) (Math_min (num 3500) newValue)
  end.

(** Body of the inner [airlines.forEach].  The accumulator is
    ([lastValues], number of random calls, [dataPoint]).  Every code read
    from [lastValues] was written by [initLastValues] over the same
    catalog, so the default of the lookup is never used. *)
Definition airlineStep (rnd : nat -> Qc) (year month : Z)
    (acc : gmap string Qc * nat * gmap string Qc) (airline : Airline)
  : gmap string Qc * nat * gmap string Qc :=
  let '(lastValues, k, dataPoint) := acc in
  let lastValue := default (num 0) (lastValues !! code airline) in
  let newValue := perturbed lastValue (rnd k) in
  let newValue := applyTrend (group airline) year month newValue in
  (<[code airline := newValue]> lastValues, S k,
   <[code airline := Math_round newValue]> dataPoint).

(** [{ year: year + (month - 1) / 12 }] *)
Definition newDataPoint (year month : Z) : gmap string Qc :=
  {[ "year"%string := yearDecimalOf year month ]}.

(** Body of [months.forEach]: a fresh [dataPoint], the loop over the
    airlines, then [data.push(dataPoint)]. *)
Definition monthStep (rnd : nat -> Qc) (airlines : list Airline)
    (st : GenState) (year month : Z) : GenState :=
  let dataPoint := newDataPoint year month in
  let '(lastValues', k', dataPoint') :=
    fold_left (airlineStep rnd year month) airlines
              (lastValues st, calls st, dataPoint) in
  {| lastValues := lastValues'; calls := k'; data := data st ++ [dataPoint'] |}.

Definition initState (rnd : nat -> Qc) (airlines : list Airline) : GenState :=
  let '(lastValues0, k0) := initLastValues rnd airlines in
  {| lastValues := lastValues0; calls := k0; data := [] |}.

(** The nested loops of [generateData], returning the final state. *)
Definition generateRun (rnd : nat -> Qc) (airlines : list Airline) : GenState :=
  fold_left
    (fun st year =>
       fold_left (fun st month => monthStep rnd airlines st year month) months st)
    years (initState rnd airlines).

Definition generateData (rnd : nat -> Qc) (airlines : list Airline)
  : list (gmap string Qc) :=
  data (generateRun rnd airlines).

(** *** Intermediate states of the run

    The state once the first [t] months of the schedule are done, and the
    accumulator of the inner loop just before the [j]-th airline of month
    [t] is handled. *)
Definition runMonths (rnd : nat -> Qc) (airlines : list Airline)
    (sched : list (Z * Z)) : GenState :=
  fold_left (fun st ym => monthStep rnd airlines st ym.1 ym.2) sched
            (initState rnd airlines).

Definition stateAfter (rnd : nat -> Qc) (airlines : list Airline) (t : nat)
  : GenState :=
  runMonths rnd airlines (take t schedule).

Definition stateBefore (rnd : nat -> Qc) (airlines : list Airline) (t j : nat)
  : gmap string Qc * nat * gmap string Qc :=
  let st := stateAfter rnd airlines t in
  let ym := monthAt t in
  fold_left (airlineStep rnd ym.1 ym.2) (take j airlines)
            (lastValues st, calls st, newDataPoint ym.1 ym.2).

(** *** The component: state, handlers and derived values *)

(** The [useState] cells of the component. *)
Record ChartState := {
  hiddenItems : gset string;
  hiddenGroups : gset Group;
  hoveredItem : option string;
  activeIndex : option Z
}.

Definition initialState : ChartState :=
  {| hiddenItems := ∅; hiddenGroups := ∅;
     hoveredItem := None; activeIndex := None |}.

Definition setHoveredItem (h : option string) (st : ChartState) : ChartState :=
  {| hiddenItems := hiddenItems st; hiddenGroups := hiddenGroups st;
     hoveredItem := h; activeIndex := activeIndex st |}.

Definition setActiveIndex (i : option Z) (st : ChartState) : ChartState :=
  {| hiddenItems := hiddenItems st; hiddenGroups := hiddenGroups st;
     hoveredItem := hoveredItem st; activeIndex := i |}.

Definition toggleItem (code : string) (st : ChartState) : ChartState :=
  let newSet :=
    if decide (code ∈ hiddenItems st) then hiddenItems st ∖ {[ code ]}
    else hiddenItems st ∪ {[ code ]} in
  {| hiddenItems := newSet; hiddenGroups := hiddenGroups st;
     hoveredItem := hoveredItem st; activeIndex := activeIndex st |}.

Definition toggleGroup (g : Group) (st : ChartState) : ChartState :=
  let newSet :=
    if decide (g ∈ hiddenGroups st) then hiddenGroups st ∖ {[ g ]}
    else hiddenGroups st ∪ {[ g ]} in
  {| hiddenItems := hiddenItems st; hiddenGroups := newSet;
     hoveredItem := hoveredItem st; activeIndex := activeIndex st |}.

Definition isItemVisible (st : ChartState) (airline : Airline) : bool :=
  if decide (group airline ∈ hiddenGroups st) then false
  else if decide (code airline ∈ hiddenItems st) then false
  else true.

Definition getLineOpacity (singleAirlineMode : bool) (st : ChartState)
    (airline : Airline) : Qc :=
  if negb (isItemVisible st airline) then num 0
  else if negb singleAirlineMode then num 1
  else if decide (hoveredItem st = None) then num 1
  else if decide (hoveredItem st = Some (code airline)) then num 1
  else num 0.15.

Definition getLineWidth (st : ChartState) (airline : Airline) : Qc :=
  if decide (hoveredItem st = Some (code airline)) then num 3 else num 2.

(** [CustomTooltip]; [None] is the [null] it returns.  The test
    [!hoveredItem] also rejects the empty string. *)
Definition CustomTooltip (singleAirlineMode : bool) (airlines : list Airline)
    (data : list (gmap string Qc)) (st : ChartState) : option Tooltip :=
  match activeIndex st with
  | None => None
  | Some i =>
      match array_get data i with
      | None => None
      | Some dataPoint =>
          if singleAirlineMode then
            match hoveredItem st with
            | None => None
            | Some h =>
                if decide (h = ""%string) then None
                else
                  match List.find (fun a => bool_decide (code a = h)) airlines with
                  | None => None
                  | Some airline =>
                      let value := dataPoint !! h in
                      Some (SingleTooltip airline (dataPoint !! "year"%string)
                                          (default (num 0) value))
                  end
            end
          else
            let visibleAirlines := List.filter (isItemVisible st) airlines in
            if (length visibleAirlines =? 0)%nat then None
            else
              Some (ClassicTooltip (dataPoint !! "year"%string)
                      ((fun airline =>
                          (airline, default (num 0) (dataPoint !! code airline)))
                         <$> visibleAirlines))
      end
  end.

(** [handleMouseMove(state)]: no clock is read. *)
Definition handleMouseMove (state : option MouseState) (st : ChartState)
  : ChartState :=
  match state with
  | Some {| activeTooltipIndex := Some index |} => setActiveIndex index st
  | _ => st
  end.

Definition handleMouseLeave (singleAirlineMode : bool) (st : ChartState)
  : ChartState :=
  let st := setActiveIndex None st in
  if negb singleAirlineMode then st else st.

(** The comparator of the inline [sort] and the sorted copy. *)
Definition hoverCompare (hoveredItem : option string) (a b : Airline) : Z :=
  if decide (Some (code a) = hoveredItem) then 1
  else if decide (Some (code b) = hoveredItem) then -1
  else 0.

Definition sortedAirlines (airlines : list Airline) (hoveredItem : option string)
  : list Airline :=
  Array_sort (hoverCompare hoveredItem) airlines.

(** The [dot] prop of the visible line: the radius of the circle drawn
    at sample [index]. *)
Definition dot (singleAirlineMode : bool) (st : ChartState)
    (airline : Airline) (index : Z) : Z :=
  if singleAirlineMode then
    if bool_decide (hoveredItem st = Some (code airline))
       && bool_decide (activeIndex st = Some index)
    then 6 else 0
  else
    if bool_decide (activeIndex st = Some index) && isItemVisible st airline
    then 4 else 0.

(** *** The mounted component

    The prop [singleAirlineMode] (state of [App]), the two [useMemo]
    values, and the component state.  [mount] is the first render. *)
Record World := {
  singleAirlineMode : bool;
  memoAirlines : list Airline;
  memoData : list (gmap string Qc);
  chart : ChartState
}.

Definition mount (rnd : nat -> Qc) (mode : bool) : World :=
  let airlines := generateAirlines in
  {| singleAirlineMode := mode;
     memoAirlines := airlines;
     memoData := generateData rnd airlines;
     chart := initialState |}.

Definition withChart (w : World) (st : ChartState) : World :=
  {| singleAirlineMode := singleAirlineMode w;
     memoAirlines := memoAirlines w;
     memoData := memoData w;
     chart := st |}.

(** One event, dispatched when [Date.now()] is [now]. *)
Definition step (now : Z) (e : Event) (w : World) : World :=
  match e with
  | ModeChange checked =>
      {| singleAirlineMode := checked;
         memoAirlines := memoAirlines w;
         memoData := memoData w;
         chart := chart w |}
  | LegendItemClick code => withChart w (toggleItem code (chart w))
  | GroupHeaderClick g => withChart w (toggleGroup g (chart w))
  | ItemMouseEnter code => withChart w (setHoveredItem (Some code) (chart w))
  | ItemMouseLeave => withChart w (setHoveredItem None (chart w))
  | ChartMouseMove state =>
      withChart w (handleMouseMove state (chart w))
  | ChartMouseLeave =>
      withChart w (handleMouseLeave (singleAirlineMode w) (chart w))
  end.

(** The states a user can bring the mounted chart into. *)
Inductive reachable (rnd : nat -> Qc) : World -> Prop :=
| reachable_mount mode : reachable rnd (mount rnd mode)
| reachable_step now e w : reachable rnd w -> reachable rnd (step now e w).

(** *** Date label and legend *)

(** [formatDate(yearDecimal)] *)
Definition formatDate (yearDecimal : Qc) : string :=
  let year := Qfloor yearDecimal in
  let monthIndex := Math_round (fmul (fsub yearDecimal (Qc_of_Z year)) (num 12)) in
  dateTemplate (array_at monthNames monthIndex) year.

(** The two filtered copies of the catalog. *)
Definition operatingAirlines (airlines : list Airline) : list Airline :=
  filter (fun a => group a = operating) airlines.

Definition discontinuedAirlines (airlines : list Airline) : list Airline :=
  filter (fun a => group a = discontinued) airlines.

(** [renderLegend()] *)
Definition renderLegend (airlines : list Airline) (st : ChartState)
  : list LegendGroup :=
  [ {| groupTitle := "Operating";
       groupHidden := bool_decide (operating ∈ hiddenGroups st);
       groupItems :=
         (fun airline =>
            {| itemAirline := airline;
               itemHidden := bool_decide (code airline ∈ hiddenItems st)
                             || bool_decide (operating ∈ hiddenGroups st) |})
           <$> operatingAirlines airlines |};
    {| groupTitle := "Discontinued";
       groupHidden := bool_decide (discontinued ∈ hiddenGroups st);
       groupItems :=
         (fun airline =>
            {| itemAirline := airline;
               itemHidden := bool_decide (code airline ∈ hiddenItems st)
                             || bool_decide (discontinued ∈ hiddenGroups st) |})
           <$> discontinuedAirlines airlines |} ].

End LineChartTsx.

(** ** The two components side by side

    [src/components/LineChart.tsx] keeps the same four [useState] cells
    as [src/App.tsx] and no throttle ref.  [useStateCells] is the state
    of the former that holds the cells of a state of the latter, and
    [useWorld] the same for the mounted component. *)
Definition useStateCells (st : AppTsx.ChartState) : LineChartTsx.ChartState :=
  {| LineChartTsx.hiddenItems := AppTsx.hiddenItems st;
     LineChartTsx.hiddenGroups := AppTsx.hiddenGroups st;
     LineChartTsx.hoveredItem := AppTsx.hoveredItem st;
     LineChartTsx.activeIndex := AppTsx.activeIndex st |}.

Definition useWorld (w : AppTsx.World) : LineChartTsx.World :=
  {| LineChartTsx.singleAirlineMode := AppTsx.singleAirlineMode w;
     LineChartTsx.memoAirlines := AppTsx.memoAirlines w;
     LineChartTsx.memoData := AppTsx.memoData w;
     LineChartTsx.chart := useStateCells (AppTsx.chart w) |}.

(** * Proof tools *)

(** [near_by lemma x k H], with [lemma] the bound on the rounding error
    of [binary64]: what rounding does to the number [x] of size at most
    [2^k], recorded as [H] with the two powers of two evaluated. *)
Ltac near_by lemma x k H :=
  pose proof (lemma x k ltac:(lia)) as H;
  let c1 := eval vm_compute in (pow2 k) in
  let c2 := eval vm_compute in (pow2 (k - 53)) in
  change (pow2 k) with c1 in H; change (pow2 (k - 53)) with c2 in H;
  rewrite !Qabs_Qle_condition in H.

(** * Properties *)

(** ** Arithmetic on numbers *)

Section Numbers.
Local Open Scope Qc_scope.

Lemma this_num q : (this (num q) == q)%Q.
Proof. apply Qred_correct. Qed.

Lemma this_add (x y : Qc) : (this (x + y) == this x + this y)%Q.
Proof. apply Qred_correct. Qed.

Lemma this_mul (x y : Qc) : (this (x * y) == this x * this y)%Q.
Proof. apply Qred_correct. Qed.

Lemma this_opp (x : Qc) : (this (- x) == - this x)%Q.
Proof. apply Qred_correct. Qed.

Lemma this_minus (x y : Qc) : (this (x - y) == this x - this y)%Q.
Proof. unfold Qcminus. rewrite this_add, this_opp. reflexivity. Qed.

Lemma this_inv (x : Qc) : (this (/ x) == / this x)%Q.
Proof. apply Qred_correct. Qed.

Lemma num_of_Z (z : Z) : num (inject_Z z) = Qc_of_Z z.
Proof. apply Qc_is_canon, this_num. Qed.

Lemma Math_max_lb a b : a <= Math_max a b.
Proof.
  unfold Math_max.
  destruct (Qclt_le_dec a b); [by apply Qclt_le_weak | apply Qcle_refl].
Qed.

Lemma Math_max_ub a b c : a <= c -> b <= c -> Math_max a b <= c.
Proof. unfold Math_max. by destruct (Qclt_le_dec a b). Qed.

Lemma Math_min_ub a b : Math_min a b <= a.
Proof.
  unfold Math_min.
  destruct (Qclt_le_dec b a); [by apply Qclt_le_weak | apply Qcle_refl].
Qed.

Lemma clamp_bounds lo hi x :
  lo <= hi -> lo <= Math_max lo (Math_min hi x) <= hi.
Proof.
  intros H. split; [apply Math_max_lb|].
  apply Math_max_ub; [done | apply Math_min_ub].
Qed.

Lemma clamp_id lo hi x :
  lo <= x -> x <= hi -> Math_max lo (Math_min hi x) = x.
Proof.
  intros H1 H2. unfold Math_max, Math_min.
  destruct (Qclt_le_dec x hi) as [H|H].
  - destruct (Qclt_le_dec lo x); [done | by apply Qcle_antisym].
  - assert (x = hi) as -> by (by apply Qcle_antisym).
    destruct (Qclt_le_dec lo hi); [done | by apply Qcle_antisym].
Qed.

Lemma Qfloor_lt_int (q : Q) (z : Z) : (q < inject_Z z)%Q -> (Qfloor q < z)%Z.
Proof.
  intros H. destruct (Z_lt_le_dec (Qfloor q) z) as [|Hge]; [done|].
  rewrite Zle_Qle in Hge. pose proof (Qfloor_le q). lra.
Qed.

Lemma Qfloor_ge_int (q : Q) (z : Z) : (inject_Z z <= q)%Q -> (z <= Qfloor q)%Z.
Proof. intros H. rewrite <- (Qfloor_Z z). by apply Qfloor_resp_le. Qed.

Lemma Math_round_le_int (z : Z) x : x <= Qc_of_Z z -> Math_round x <= Qc_of_Z z.
Proof.
  unfold Math_round, Qcle. cbn [this Qc_of_Z]. intros H.
  rewrite <- Zle_Qle. apply Z.lt_succ_r, Qfloor_lt_int.
  rewrite this_add, this_num. unfold Z.succ. rewrite inject_Z_plus.
  change (inject_Z 1) with 1%Q. lra.
Qed.

Lemma Math_round_ge_int (z : Z) x : Qc_of_Z z <= x -> Qc_of_Z z <= Math_round x.
Proof.
  unfold Math_round, Qcle. cbn [this Qc_of_Z]. intros H.
  rewrite <- Zle_Qle. apply Qfloor_ge_int.
  rewrite this_add, this_num. lra.
Qed.

(** Rounding an integer gives it back. *)
Lemma Math_round_int (z : Z) : Math_round (Qc_of_Z z) = Qc_of_Z z.
Proof.
  apply Qcle_antisym;
    [apply Math_round_le_int | apply Math_round_ge_int]; apply Qcle_refl.
Qed.

(** The rounded value is within one half of the argument. *)
Lemma Math_round_near x :
  x - num 0.5 < Math_round x /\ Math_round x <= x + num 0.5.
Proof.
  unfold Math_round, Qclt, Qcle, Qcminus. cbn [this Qc_of_Z].
  pose proof (Qfloor_le (x + num 0.5)%Qc) as Hle.
  pose proof (Qlt_floor (x + num 0.5)%Qc) as Hlt.
  rewrite inject_Z_plus in Hlt. change (inject_Z 1) with 1%Q in Hlt.
  assert (this (x + num 0.5) == this x + 0.5)%Q as Heq
    by (by rewrite this_add, this_num).
  rewrite !this_add, this_opp, this_num.
  revert Hle Hlt Heq.
  generalize (inject_Z (Qfloor (x + num 0.5)%Qc)), (this (x + num 0.5)), (this x).
  intros; lra.
Qed.

(** The bounds of both bands are integers. *)
Lemma band_int g :
  exists lo hi : Z, bandMin g = Qc_of_Z lo /\ bandMax g = Qc_of_Z hi.
Proof.
  destruct g; [exists 800%Z, 5500%Z | exists 100%Z, 3500%Z];
    split; apply Qc_is_canon; reflexivity.
Qed.

Lemma Math_round_inBand g v : inBand g v -> inBand g (Math_round v).
Proof.
  unfold inBand. destruct (band_int g) as (lo & hi & -> & ->).
  intros [??]; split; auto using Math_round_le_int, Math_round_ge_int.
Qed.

End Numbers.

(** ** Binary64 rounding *)

Section Rounding.

Lemma pow2_pos z : (0 < pow2 z)%Q.
Proof. apply Qpower_0_lt. reflexivity. Qed.

Lemma pow2_le a b : a <= b -> (pow2 a <= pow2 b)%Q.
Proof. intros H. apply Qpower_le_compat_l; [done|]. by vm_compute. Qed.

Lemma pow2_le_inv a b : (pow2 a <= pow2 b)%Q -> a <= b.
Proof. intros H. apply (Qpower_le_compat_l_inv 2); [done|reflexivity]. Qed.

Lemma pow2_of_nonneg a : 0 <= a -> (pow2 a == inject_Z (2 ^ a))%Q.
Proof. intros H. unfold pow2. by rewrite Zpower_Qpower. Qed.

Lemma pow2_minus a b : (pow2 (a - b) == pow2 a / pow2 b)%Q.
Proof. apply Qpower_minus. by vm_compute. Qed.

(** The exponent found by [ilog2] is not too large. *)
Lemma ilog2_lower (x : Q) : (0 < x)%Q -> (pow2 (ilog2 x) <= x)%Q.
Proof.
  intros Hx. unfold ilog2.
  destruct (Qlt_le_dec x _) as [Hlt|Hle]; [|exact Hle].
  destruct x as [p q]. cbn [Qnum Qden] in *.
  assert (0 < p) as Hp.
  { unfold Qlt in Hx. cbn in Hx. lia. }
  pose proof (Z.log2_spec p Hp) as [Hp1 _].
  pose proof (Z.log2_spec (Z.pos q) (Pos2Z.is_pos q)) as [_ Hq2].
  pose proof (Z.log2_nonneg p) as Ha. pose proof (Z.log2_nonneg (Z.pos q)) as Hb.
  replace (Z.log2 p - Z.log2 (Z.pos q) - 1) with (Z.log2 p - Z.succ (Z.log2 (Z.pos q)))
    by lia.
  rewrite pow2_minus, !pow2_of_nonneg by lia.
  apply Qle_shift_div_r.
  { replace 0%Q with (inject_Z 0) by reflexivity. rewrite <- Zlt_Qlt. lia. }
  unfold Qle, Qmult, inject_Z. cbn [Qnum Qden]. nia.
Qed.

Lemma round_half_even_near (x : Q) :
  (Qabs (inject_Z (round_half_even x) - x) <= 1 # 2)%Q.
Proof.
  unfold round_half_even.
  pose proof (Qfloor_le x) as Hle. pose proof (Qlt_floor x) as Hlt.
  rewrite inject_Z_plus in Hlt. change (inject_Z 1) with 1%Q in Hlt.
  apply Qabs_Qle_condition.
  destruct (x - inject_Z (Qfloor x) ?= 1 # 2)%Q eqn:E.
  - apply Qeq_alt in E.
    destruct (Z.even (Qfloor x)); rewrite ?inject_Z_plus;
      change (inject_Z 1) with 1%Q; split; lra.
  - apply Qlt_alt in E. split; lra.
  - apply Qgt_alt in E. rewrite inject_Z_plus. change (inject_Z 1) with 1%Q.
    split; lra.
Qed.

(** Rounding moves a number of size at most [2^k] by at most half a
    unit in the last place of that size. *)
Lemma binary64_near (x : Qc) (k : Z) :
  -1022 <= k -> (Qabs x <= pow2 k)%Q ->
  (Qabs (binary64 x - x) <= pow2 (k - 53))%Q.
Proof.
  intros Hk Hx. unfold binary64.
  destruct (Qeq_bool x 0) eqn:E.
  - assert (this x - this x == 0)%Q as -> by ring.
    apply Qlt_le_weak, pow2_pos.
  - apply Qeq_bool_neq in E.
    assert (0 < Qabs x)%Q as Hpos.
    { destruct (Qlt_le_dec 0 (Qabs x)) as [|Hle]; [done|]. exfalso. apply E.
      destruct (Qlt_le_dec x 0) as [Hn|Hn].
      - rewrite Qabs_neg in Hle by lra. lra.
      - rewrite Qabs_pos in Hle by lra. lra. }
    set (e := Z.max (ilog2 (Qabs x)) (-1022)).
    assert (e <= k) as He.
    { apply Z.max_lub; [|done]. apply pow2_le_inv.
      eapply Qle_trans; [apply ilog2_lower; exact Hpos | exact Hx]. }
    pose proof (pow2_pos (e - 52)) as Hu.
    cbn [this Q2Qc]. rewrite Qred_correct.
    set (u := pow2 (e - 52)) in *.
    pose proof (round_half_even_near (x / u)) as Hn.
    set (n := inject_Z (round_half_even (x / u))) in *.
    assert (n * u - x == (n - x / u) * u)%Q as -> by (field; lra).
    rewrite Qabs_Qmult, (Qabs_pos u) by lra.
    apply Qle_trans with ((1 # 2) * u)%Q.
    + apply Qmult_le_compat_r; [done | lra].
    + apply Qle_trans with (pow2 (e - 53)); [|apply pow2_le; lia].
      unfold u. replace (e - 52) with ((e - 53) + 1) by lia.
      unfold pow2. rewrite Qpower_plus by (by vm_compute).
      change (2 ^ 1)%Q with 2%Q. generalize (2 ^ (e - 53))%Q. intros; lra.
Qed.
Lemma Qabs_mult_le (a b A : Q) :
  (- A <= a <= A)%Q -> (0 <= b)%Q -> (- (A * b) <= a * b <= A * b)%Q.
Proof. intros [H1 H2] Hb. split; nra. Qed.
End Rounding.

(** The five decimal literals of the generator that are not binary64
    values. *)
Lemma lit_008 : this (lit 0.08) = (5764607523034235 # 72057594037927936)%Q.
Proof. by vm_compute. Qed.

Section Bands.
Local Open Scope Qc_scope.

Lemma inBand_inSomeBand g v : inBand g v -> inSomeBand v.
Proof.
  intros [Hlo Hhi]. split.
  - eapply Qcle_trans; [|exact Hlo]. by destruct g; vm_compute.
  - eapply Qcle_trans; [exact Hhi|]. by destruct g; vm_compute.
Qed.

(** The initial value of a series is inside its band. *)
Lemma startValue_inBand g r : 0 <= r -> r < 1 -> inBand g (startValue g r).
Proof.
  intros H0 H1. unfold inBand, bandMin, bandMax, startValue, fadd, fmul.
  unfold Qcle, Qclt in *.
  change (this 0) with 0%Q in *. change (this 1) with 1%Q in *.
  destruct g.
  - near_by binary64_near (r * num 2000) 11%Z Hm.
    set (m := binary64 (r * num 2000)) in *.
    near_by binary64_near (m + num 2000) 12%Z Hs.
    repeat (rewrite ?this_add, ?this_mul, ?this_num in * ).
    revert Hm Hs. generalize (this (binary64 (m + num 2000))), (this m).
    revert H0 H1. generalize (this r). intros r' H0 H1 s' m' Hm Hs.
    assert (- (1 # 4398046511104) <= m' - r' * 2000 <= 1 # 4398046511104)%Q as Hm'
      by (apply Hm; split; lra).
    assert (- (1 # 2199023255552) <= s' - (m' + 2000) <= 1 # 2199023255552)%Q as Hs'
      by (apply Hs; split; lra).
    split; lra.
  - near_by binary64_near (r * num 1500) 11%Z Hm.
    set (m := binary64 (r * num 1500)) in *.
    near_by binary64_near (m + num 1000) 12%Z Hs.
    repeat (rewrite ?this_add, ?this_mul, ?this_num in * ).
    revert Hm Hs. generalize (this (binary64 (m + num 1000))), (this m).
    revert H0 H1. generalize (this r). intros r' H0 H1 s' m' Hm Hs.
    assert (- (1 # 4398046511104) <= m' - r' * 1500 <= 1 # 4398046511104)%Q as Hm'
      by (apply Hm; split; lra).
    assert (- (1 # 2199023255552) <= s' - (m' + 1000) <= 1 # 2199023255552)%Q as Hs'
      by (apply Hs; split; lra).
    split; lra.
Qed.
End Bands.


(** ** The generator of src/App.tsx *)

(** *** Loops as folds *)

Lemma fold_left_snoc_ind {A B} (f : A -> B -> A) (P : list B -> A -> Prop)
    (a0 : A) (l : list B) :
  P [] a0 ->
  (forall pre x acc, P pre acc -> P (pre ++ [x]) (f acc x)) ->
  P l (fold_left f l a0).
Proof.
  intros H0 Hstep. induction l as [|x l IH] using rev_ind; [done|].
  rewrite fold_left_app. by apply Hstep.
Qed.

Lemma fold_left_nested {S A B} (f : S -> A -> B -> S)
    (xs : list A) (ys : list B) (s : S) :
  fold_left (fun st x => fold_left (fun st y => f st x y) ys st) xs s =
  fold_left (fun st xy => f st xy.1 xy.2) (x ← xs; (fun y => (x, y)) <$> ys) s.
Proof.
  revert s. induction xs as [|x xs IH]; intros s; [done|].
  cbn [fold_left mbind list_bind]. rewrite fold_left_app, <- IH. f_equal.
  clear IH. revert s. induction ys as [|y ys IH]; intros s; [done|]. apply IH.
Qed.

Section AirlineLoop.
Import AppTsx.
Local Open Scope Qc_scope.
Context (rnd : nat -> Qc) (year month : Z).

Lemma applyTrend_inBand g v : inBand g (applyTrend g year month v).
Proof. destruct g; apply clamp_bounds; by vm_compute. Qed.

Lemma airlines_loop_calls l lv k dp :
  (fold_left (airlineStep rnd year month) l (lv, k, dp)).1.2 = (k + length l)%nat.
Proof.
  apply (fold_left_snoc_ind _ (fun pre acc => acc.1.2 = (k + length pre)%nat)).
  - simpl. lia.
  - intros pre x [[lv' k'] dp'] Hk. simpl in *. rewrite length_app. simpl. lia.
Qed.

Lemma airlines_loop_sample l lv k dp a :
  a ∈ l ->
  exists v,
    (fold_left (airlineStep rnd year month) l (lv, k, dp)).1.1 !! code a = Some v /\
    (fold_left (airlineStep rnd year month) l (lv, k, dp)).2 !! code a
      = Some (Math_round v).
Proof.
  revert a.
  apply (fold_left_snoc_ind _ (fun pre acc => forall a, a ∈ pre ->
    exists v, acc.1.1 !! code a = Some v /\ acc.2 !! code a = Some (Math_round v))).
  - intros a Ha. by apply elem_of_nil in Ha.
  - intros pre x [[lv' k'] dp'] IH a Ha. simpl in *.
    destruct (decide (code x = code a)) as [Heq|Hne].
    + rewrite Heq, !lookup_insert_eq. eauto.
    + rewrite !lookup_insert_ne by done. apply IH.
      apply elem_of_app in Ha as [Ha|Ha]; [done|].
      apply list_elem_of_singleton in Ha. by subst.
Qed.

Lemma airlines_loop_band l lv k dp a :
  NoDup (code <$> l) -> a ∈ l ->
  exists v,
    (fold_left (airlineStep rnd year month) l (lv, k, dp)).1.1 !! code a = Some v /\
    inBand (group a) v.
Proof.
  revert a.
  apply (fold_left_snoc_ind _ (fun pre acc => forall a, NoDup (code <$> pre) -> a ∈ pre ->
    exists v, acc.1.1 !! code a = Some v /\ inBand (group a) v)).
  - intros a _ Ha. by apply elem_of_nil in Ha.
  - intros pre x [[lv' k'] dp'] IH a Hnd Ha. simpl in *.
    rewrite fmap_app in Hnd. apply NoDup_app in Hnd as (Hnd & Hfresh & _).
    apply elem_of_app in Ha as [Ha|Ha].
    + assert (code x ≠ code a) as Hne.
      { intros Heq. apply (Hfresh (code a)).
        - by apply list_elem_of_fmap_2.
        - rewrite <- Heq. by apply list_elem_of_singleton. }
      rewrite lookup_insert_ne by done. by apply IH.
    + apply list_elem_of_singleton in Ha as ->. rewrite lookup_insert_eq.
      eexists; split; [done|]. apply applyTrend_inBand.
Qed.

Lemma airlines_loop_other l lv k dp c :
  c ∉ code <$> l ->
  (fold_left (airlineStep rnd year month) l (lv, k, dp)).1.1 !! c = lv !! c /\
  (fold_left (airlineStep rnd year month) l (lv, k, dp)).2 !! c = dp !! c.
Proof.
  apply (fold_left_snoc_ind _ (fun pre acc => c ∉ code <$> pre ->
    acc.1.1 !! c = lv !! c /\ acc.2 !! c = dp !! c)).
  - done.
  - intros pre x [[lv' k'] dp'] IH Hc. simpl in *.
    rewrite fmap_app in Hc. apply not_elem_of_app in Hc as [Hc Hx].
    assert (code x ≠ c) as Hne
      by (intros Heq; apply Hx; rewrite <- Heq; by apply list_elem_of_singleton).
    destruct (IH Hc) as [Hlv Hdp]. by rewrite !lookup_insert_ne.
Qed.

(** Every value the loop stores in [lastValues] is a clamp result,
    hence inside one of the two bands; and no key is ever removed. *)
Lemma airlines_loop_range l lv k dp :
  (forall c v, lv !! c = Some v -> inSomeBand v) ->
  forall c v,
    (fold_left (airlineStep rnd year month) l (lv, k, dp)).1.1 !! c = Some v ->
    inSomeBand v.
Proof.
  intros Hlv.
  apply (fold_left_snoc_ind _ (fun pre acc =>
    forall c v, acc.1.1 !! c = Some v -> inSomeBand v)); [done|].
  intros pre x [[lv' k'] dp'] IH c v. simpl in *.
  destruct (decide (code x = c)) as [<-|Hne].
  - rewrite lookup_insert_eq. intros [= <-].
    eapply inBand_inSomeBand, applyTrend_inBand.
  - rewrite lookup_insert_ne by done. apply IH.
Qed.

Lemma airlines_loop_defined l lv k dp c :
  is_Some (lv !! c) ->
  is_Some ((fold_left (airlineStep rnd year month) l (lv, k, dp)).1.1 !! c).
Proof.
  intros Hlv.
  apply (fold_left_snoc_ind _ (fun pre acc => is_Some (acc.1.1 !! c))); [done|].
  intros pre x [[lv' k'] dp'] IH. simpl in *.
  destruct (decide (code x = c)) as [->|Hne].
  - rewrite lookup_insert_eq. eauto.
  - by rewrite lookup_insert_ne.
Qed.
End AirlineLoop.

Section Run.
Import AppTsx.
Local Open Scope Qc_scope.
Context (rnd : nat -> Qc) (airlines : list Airline).

Lemma initLastValues_defined a :
  a ∈ airlines -> is_Some ((initLastValues rnd airlines).1 !! code a).
Proof.
  unfold initLastValues. revert a.
  apply (fold_left_snoc_ind _ (fun pre (acc : gmap string Qc * nat) =>
    forall a, a ∈ pre -> is_Some (acc.1 !! code a))).
  - intros a Ha. by apply elem_of_nil in Ha.
  - intros pre x [lv k] IH a Ha.
    assert (forall v, is_Some (<[code x := v]> lv !! code a)) as Hins.
    { intros v. destruct (decide (code x = code a)) as [->|Hne].
      - rewrite lookup_insert_eq. eauto.
      - rewrite lookup_insert_ne by done. apply IH.
        apply elem_of_app in Ha as [Ha|Ha]; [done|].
        apply list_elem_of_singleton in Ha. by subst. }
    destruct (group x); apply Hins.
Qed.

Lemma initLastValues_range :
  (forall n, 0 <= rnd n /\ rnd n < 1) ->
  forall c v, (initLastValues rnd airlines).1 !! c = Some v -> inSomeBand v.
Proof.
  intros Hrnd. unfold initLastValues.
  apply (fold_left_snoc_ind _ (fun pre (acc : gmap string Qc * nat) =>
    forall c v, acc.1 !! c = Some v -> inSomeBand v)); [done|].
  intros pre x [lv k] IH c v.
  assert (forall w, inSomeBand w -> <[code x := w]> lv !! c = Some v -> inSomeBand v)
    as Hins.
  { intros w Hw. destruct (decide (code x = c)) as [->|Hne].
    - rewrite lookup_insert_eq. by intros [= <-].
    - rewrite lookup_insert_ne by done. apply IH. }
  destruct (Hrnd k) as [H0 H1].
  pose proof (startValue_inBand (group x) (rnd k) H0 H1) as Hb.
  apply inBand_inSomeBand in Hb. unfold startValue in Hb.
  destruct (group x); simpl; by apply Hins.
Qed.

Lemma monthStep_eq st year month :
  monthStep rnd airlines st year month =
  let acc := fold_left (airlineStep rnd year month) airlines
               (lastValues st, calls st, newDataPoint year month) in
  {| lastValues := acc.1.1; calls := acc.1.2; data := data st ++ [acc.2] |}.
Proof. unfold monthStep. by destruct (fold_left _ _ _) as [[??]?]. Qed.

Lemma runMonths_snoc sched ym :
  runMonths rnd airlines (sched ++ [ym]) =
  monthStep rnd airlines (runMonths rnd airlines sched) ym.1 ym.2.
Proof. unfold runMonths. by rewrite fold_left_app. Qed.

Lemma runMonths_data_length sched :
  length (data (runMonths rnd airlines sched)) = length sched.
Proof.
  induction sched as [|ym sched IH] using rev_ind.
  - unfold runMonths, initState. simpl. by destruct (initLastValues _ _).
  - rewrite runMonths_snoc, monthStep_eq. simpl.
    rewrite !length_app, IH. done.
Qed.

Lemma runMonths_data_prefix pre post :
  data (runMonths rnd airlines pre) `prefix_of`
  data (runMonths rnd airlines (pre ++ post)).
Proof.
  induction post as [|ym post IH] using rev_ind.
  - by rewrite app_nil_r.
  - rewrite app_assoc, runMonths_snoc, monthStep_eq. simpl.
    by apply prefix_app_r.
Qed.

(** The nested loops visit the months in the order of [schedule]. *)
Lemma generateRun_schedule :
  generateRun rnd airlines = runMonths rnd airlines schedule.
Proof.
  unfold generateRun, runMonths, schedule.
  apply (fold_left_nested (monthStep rnd airlines)).
Qed.

Lemma schedule_length : length schedule = 180%nat.
Proof. reflexivity. Qed.

Lemma generateData_length : length (generateData rnd airlines) = 180%nat.
Proof.
  unfold generateData. by rewrite generateRun_schedule, runMonths_data_length.
Qed.

Lemma stateBefore_0 t :
  stateBefore rnd airlines t 0 =
  (lastValues (stateAfter rnd airlines t), calls (stateAfter rnd airlines t),
   newDataPoint (monthAt t).1 (monthAt t).2).
Proof. reflexivity. Qed.

Lemma stateBefore_S t j a :
  airlines !! j = Some a ->
  stateBefore rnd airlines t (S j) =
  airlineStep rnd (monthAt t).1 (monthAt t).2
              (stateBefore rnd airlines t j) a.
Proof.
  intros Ha. unfold stateBefore.
  by rewrite (take_S_r _ _ _ Ha), fold_left_app.
Qed.

Lemma stateAfter_S t :
  (t < 180)%nat ->
  stateAfter rnd airlines (S t) =
  let acc := stateBefore rnd airlines t (length airlines) in
  {| lastValues := acc.1.1; calls := acc.1.2;
     data := data (stateAfter rnd airlines t) ++ [acc.2] |}.
Proof.
  intros Ht. unfold stateAfter, stateBefore.
  destruct (lookup_lt_is_Some_2 schedule t) as [ym Hym]; [by rewrite schedule_length|].
  unfold monthAt.
  rewrite (take_S_r _ _ _ Hym), runMonths_snoc, monthStep_eq, Hym, firstn_all.
  done.
Qed.

Lemma stateAfter_all : stateAfter rnd airlines 180 = generateRun rnd airlines.
Proof. by rewrite generateRun_schedule. Qed.

(** Sample [t] of the matrix is the [dataPoint] completed in month [t]. *)
Lemma generateData_lookup t :
  (t < 180)%nat ->
  generateData rnd airlines !! t =
  Some (stateBefore rnd airlines t (length airlines)).2.
Proof.
  intros Ht. unfold generateData. rewrite generateRun_schedule.
  rewrite <- (take_drop (S t) schedule) at 1.
  rewrite (prefix_lookup_Some (data (stateAfter rnd airlines (S t))) _ t
             (stateBefore rnd airlines t (length airlines)).2); [done| |].
  - rewrite stateAfter_S by done. cbn [data].
    assert (length (data (stateAfter rnd airlines t)) = t) as Hlen.
    { unfold stateAfter.
      rewrite runMonths_data_length, length_take, schedule_length. lia. }
    rewrite lookup_app_r by lia. by rewrite Hlen, Nat.sub_diag.
  - apply runMonths_data_prefix.
Qed.
End Run.

(** *** The random walk: intermediate states and samples *)

Section Walk.
Import AppTsx.
Local Open Scope Qc_scope.
Context (rnd : nat -> Qc) (airlines : list Airline).

Lemma runMonths_defined sched a :
  a ∈ airlines -> is_Some (lastValues (runMonths rnd airlines sched) !! code a).
Proof.
  intros Ha. induction sched as [|ym sched IH] using rev_ind.
  - unfold runMonths, initState. simpl.
    pose proof (initLastValues_defined rnd airlines a Ha) as H.
    by destruct (initLastValues rnd airlines).
  - rewrite runMonths_snoc, monthStep_eq. simpl.
    by apply airlines_loop_defined.
Qed.

Lemma runMonths_range sched :
  (forall n, 0 <= rnd n /\ rnd n < 1) ->
  forall c v, lastValues (runMonths rnd airlines sched) !! c = Some v -> inSomeBand v.
Proof.
  intros Hrnd. induction sched as [|ym sched IH] using rev_ind.
  - unfold runMonths, initState. simpl.
    pose proof (initLastValues_range rnd airlines Hrnd) as H.
    by destruct (initLastValues rnd airlines).
  - rewrite runMonths_snoc, monthStep_eq. simpl.
    by apply airlines_loop_range.
Qed.

Lemma stateBefore_defined t j a :
  a ∈ airlines -> is_Some ((stateBefore rnd airlines t j).1.1 !! code a).
Proof.
  intros Ha. unfold stateBefore.
  by apply airlines_loop_defined, runMonths_defined.
Qed.

Lemma stateBefore_range t j :
  (forall n, 0 <= rnd n /\ rnd n < 1) ->
  forall c v, (stateBefore rnd airlines t j).1.1 !! c = Some v -> inSomeBand v.
Proof.
  intros Hrnd. unfold stateBefore.
  by apply airlines_loop_range, runMonths_range.
Qed.

(** Five roundings separate [newValue] from [lastValue]: the product
    [lastValue * 0.08], the difference, its double, the product with
    [maxVariation] and the sum.  Their errors and the excess of the
    double [0.08] over 2/25 stay below [0.08 * lastValue * 2^-40]. *)
Lemma perturbed_bound (lastValue r : Qc) :
  0 <= r -> r < 1 -> inSomeBand lastValue ->
  Qcabs (perturbed lastValue r - lastValue)
    <= num 0.08 * lastValue * (1 + roundingMargin).
Proof.
  intros Hr0 Hr1 [HL0 HL1]. apply Qcabs_Qcle_condition.
  unfold perturbed, fadd, fmul, fsub, roundingMargin.
  unfold Qcle, Qclt in *.
  rewrite this_num in HL0, HL1.
  change (this 0) with 0%Q in *. change (this 1) with 1%Q in *.
  near_by binary64_near (lastValue * lit 0.08) 9%Z Hmv.
  near_by binary64_near (r - num 0.5) (-1)%Z Hd.
  set (mv := binary64 (lastValue * lit 0.08)) in *.
  set (d := binary64 (r - num 0.5)) in *.
  near_by binary64_near (d * num 2) 1%Z Hs.
  set (s := binary64 (d * num 2)) in *.
  near_by binary64_near (s * mv) 9%Z Hv.
  set (v := binary64 (s * mv)) in *.
  near_by binary64_near (lastValue + v) 13%Z Hn.
  set (n := binary64 (lastValue + v)) in *.
  repeat (rewrite ?this_opp, ?this_minus, ?this_add, ?this_mul, ?this_num, ?lit_008 in * ).
  change (this 1) with 1%Q.
  revert Hmv Hd Hs Hv Hn.
  generalize (this n), (this v), (this s), (this d), (this mv).
  revert Hr0 Hr1 HL0 HL1. generalize (this lastValue), (this r).
  intros L r' Hr0 Hr1 HL0 HL1 n' v' s' d' mv' Hmv Hd Hs Hv Hn.
  assert (- (1 # 17592186044416) <= mv' - L * (5764607523034235 # 72057594037927936)
          <= 1 # 17592186044416)%Q as Hmv' by (apply Hmv; split; lra).
  assert (- (1 # 18014398509481984) <= d' - (r' - 0.5) <= 1 # 18014398509481984)%Q
    as Hd' by (apply Hd; split; lra).
  assert (- (1 # 4503599627370496) <= s' - d' * 2 <= 1 # 4503599627370496)%Q
    as Hs' by (apply Hs; split; lra).
  assert (- ((1 + (1 # 1125899906842624)) * mv') <= s' * mv'
          <= (1 + (1 # 1125899906842624)) * mv')%Q as Hp
    by (apply Qabs_mult_le; [split; lra | lra]).
  assert (- (1 # 17592186044416) <= v' - s' * mv' <= 1 # 17592186044416)%Q as Hv'
    by (apply Hv; split; lra).
  assert (- (1 # 1099511627776) <= n' - (L + v') <= 1 # 1099511627776)%Q as Hn'
    by (apply Hn; split; lra).
  revert Hp Hv'. generalize (s' * mv')%Q. intros p Hp Hv'.
  clear Hmv Hd Hs Hv Hn. split; lra.
Qed.

Lemma perturbation_bound_at t j a :
  (forall n, 0 <= rnd n /\ rnd n < 1) ->
  airlines !! j = Some a ->
  exists lastValue,
    (stateBefore rnd airlines t j).1.1 !! code a = Some lastValue /\
    inSomeBand lastValue /\
    Qcabs (perturbed lastValue (rnd (stateBefore rnd airlines t j).1.2) - lastValue)
      <= num 0.08 * lastValue * (1 + roundingMargin).
Proof.
  intros Hrnd Ha.
  assert (a ∈ airlines) as Hin by (by eapply list_elem_of_lookup_2).
  destruct (stateBefore_defined t j a Hin) as [v Hv].
  assert (inSomeBand v) as Hb by (by eapply stateBefore_range).
  exists v. split; [done|]. split; [done|].
  apply perturbed_bound; [apply Hrnd | apply Hrnd | done].
Qed.

Lemma sample_at t a :
  (t < 180)%nat -> a ∈ airlines ->
  exists v dp,
    generateData rnd airlines !! t = Some dp /\
    lastValues (stateAfter rnd airlines (S t)) !! code a = Some v /\
    dp !! code a = Some (Math_round v).
Proof.
  intros Ht Ha. rewrite generateData_lookup, stateAfter_S by done.
  unfold stateBefore. rewrite firstn_all. cbn [lastValues].
  destruct (airlines_loop_sample rnd (monthAt t).1 (monthAt t).2 airlines
              (lastValues (stateAfter rnd airlines t))
              (calls (stateAfter rnd airlines t))
              (newDataPoint (monthAt t).1 (monthAt t).2) a Ha) as (v & Hv & Hdp).
  eauto.
Qed.

Lemma lastValue_band_at t a :
  NoDup (code <$> airlines) -> (t < 180)%nat -> a ∈ airlines ->
  exists v, lastValues (stateAfter rnd airlines (S t)) !! code a = Some v /\
            inBand (group a) v.
Proof.
  intros Hnd Ht Ha. rewrite stateAfter_S by done.
  unfold stateBefore. rewrite firstn_all. cbn [lastValues].
  by apply airlines_loop_band.
Qed.

Lemma sample_band dp a :
  NoDup (code <$> airlines) ->
  dp ∈ generateData rnd airlines -> a ∈ airlines ->
  exists v, dp !! code a = Some v /\ inBand (group a) v.
Proof.
  intros Hnd Hdp Ha.
  apply list_elem_of_lookup in Hdp as [t Ht].
  assert (t < 180)%nat as Hlt.
  { rewrite <- (generateData_length rnd airlines). by eapply lookup_lt_Some. }
  destruct (sample_at t a Hlt Ha) as (v & dp' & Hdp' & Hv & Hs).
  destruct (lastValue_band_at t a Hnd Hlt Ha) as (v' & Hv' & Hband).
  assert (dp' = dp) as -> by congruence.
  assert (v' = v) as -> by congruence.
  exists (Math_round v). split; [done|]. by apply Math_round_inBand.
Qed.
End Walk.

(** *** The two generators are the same function *)

Lemma LineChartTsx_monthStep_eq : LineChartTsx.monthStep = AppTsx.monthStep.
Proof. reflexivity. Qed.

Lemma LineChartTsx_initState_eq : LineChartTsx.initState = AppTsx.initState.
Proof. reflexivity. Qed.

Lemma LineChartTsx_generateData_eq rnd airlines :
  LineChartTsx.generateData rnd airlines = AppTsx.generateData rnd airlines.
Proof.
  unfold LineChartTsx.generateData, LineChartTsx.generateRun,
    AppTsx.generateData, AppTsx.generateRun.
  by rewrite LineChartTsx_monthStep_eq, LineChartTsx_initState_eq.
Qed.

Lemma LineChartTsx_stateBefore_eq rnd airlines t j :
  LineChartTsx.stateBefore rnd airlines t j = AppTsx.stateBefore rnd airlines t j.
Proof. reflexivity. Qed.

Lemma LineChartTsx_stateAfter_eq rnd airlines t :
  LineChartTsx.stateAfter rnd airlines t = AppTsx.stateAfter rnd airlines t.
Proof. reflexivity. Qed.

Lemma LineChartTsx_perturbed_eq lastValue r :
  LineChartTsx.perturbed lastValue r = AppTsx.perturbed lastValue r.
Proof. reflexivity. Qed.

Lemma LineChartTsx_initLastValues_eq rnd airlines :
  LineChartTsx.initLastValues rnd airlines = AppTsx.initLastValues rnd airlines.
Proof. reflexivity. Qed.

Lemma option_Qc_eq (o : option Qc) (y : Qc) :
  this <$> o = Some (this y) -> o = Some y.
Proof.
  destruct o as [x|]; [|done]. simpl. intros [= H]. f_equal.
  apply Qc_is_canon. by rewrite H.
Qed.

Lemma generateAirlines_NoDup : NoDup (code <$> generateAirlines).
Proof. apply (bool_decide_unpack _). by vm_compute. Qed.

(** The codes of the catalogs used below are ordinary keys. *)
Lemma generateAirlines_ordinary : "__proto__"%string ∉ code <$> generateAirlines.
Proof. apply (bool_decide_unpack _). vm_compute. exact I. Qed.

Lemma twoPlusTwo_ordinary : "__proto__"%string ∉ code <$> twoPlusTwo.
Proof. apply (bool_decide_unpack _). vm_compute. exact I. Qed.

(** *** A constant random source: the first year *)

Lemma NoDup_code_inj (l : list Airline) a b :
  NoDup (code <$> l) -> a ∈ l -> b ∈ l -> code a = code b -> a = b.
Proof.
  induction l as [|x l IH]; intros Hnd Ha Hb Heq.
  - by apply elem_of_nil in Ha.
  - rewrite fmap_cons in Hnd. apply NoDup_cons in Hnd as [Hx Hnd].
    apply elem_of_cons in Ha as [->|Ha], Hb as [->|Hb]; [done| | |by apply IH].
    + exfalso. apply Hx. rewrite Heq. by apply list_elem_of_fmap_2.
    + exfalso. apply Hx. rewrite <- Heq. by apply list_elem_of_fmap_2.
Qed.

Section InitialValues.
Import AppTsx.
Context (rnd : nat -> Qc).

Lemma initLastValues_lookup airlines j a :
  NoDup (code <$> airlines) -> airlines !! j = Some a ->
  (initLastValues rnd airlines).1 !! code a = Some (startValue (group a) (rnd j)).
Proof.
  unfold initLastValues. revert j a.
  refine (proj2 (fold_left_snoc_ind _
    (fun pre (acc : gmap string Qc * nat) =>
       acc.2 = length pre /\
       forall j a, NoDup (code <$> pre) -> pre !! j = Some a ->
                   acc.1 !! code a = Some (startValue (group a) (rnd j)))
    _ airlines _ _)).
  - split; [done|]. intros j a _ Hj. by rewrite lookup_nil in Hj.
  - intros pre x [lv k] [Hk IH]. simpl in Hk, IH. subst k.
    assert ((<[code x := startValue (group x) (rnd (length pre))]> lv,
             S (length pre)) =
            match group x with
            | operating =>
                (<[code x := fadd (fmul (rnd (length pre)) (num 2000)) (num 2000)]> lv,
                 S (length pre))
            | discontinued =>
                (<[code x := fadd (fmul (rnd (length pre)) (num 1500)) (num 1000)]> lv,
                 S (length pre))
            end) as <- by (by destruct (group x)).
    split; [rewrite length_app; simpl; lia|].
    intros j a Hnd Hj. cbn [fst].
    rewrite fmap_app in Hnd. apply NoDup_app in Hnd as (Hnd & Hfresh & _).
    destruct (decide (j < length pre)%nat) as [Hlt|Hge].
    + rewrite lookup_app_l in Hj by done.
      rewrite lookup_insert_ne; [by apply IH|].
      intros Heq. apply (Hfresh (code a)).
      * apply list_elem_of_fmap_2. by eapply list_elem_of_lookup_2.
      * rewrite <- Heq. by apply list_elem_of_singleton.
    + rewrite lookup_app_r in Hj by lia.
      destruct (j - length pre)%nat as [|n] eqn:Hn; [|by rewrite lookup_cons_ne_0, lookup_nil in Hj].
      injection Hj as <-. rewrite lookup_insert_eq.
      by replace j with (length pre) by lia.
Qed.
End InitialValues.

Section FirstYear.
Import AppTsx.
Local Open Scope Qc_scope.
Context (airlines : list Airline) (Hnd : NoDup (code <$> airlines)).

(** The draw 0.5 gives the variation 0, and the starting values 3000
    and 1750 are binary64 values. *)
Lemma perturbed_half g :
  perturbed (startValue g (num 0.5)) (num 0.5) = startValue g (num 0.5).
Proof. destruct g; apply Qc_is_canon; by vm_compute. Qed.

Lemma applyTrend_2010 g month :
  applyTrend g 2010 month (startValue g (num 0.5)) = startValue g (num 0.5).
Proof.
  destruct g; unfold applyTrend; cbn [Z.eqb Pos.eqb Z.ltb Z.compare Pos.compare Pos.compare_cont andb orb];
    apply clamp_id; by vm_compute.
Qed.

Lemma startValue_rounded g :
  Math_round (startValue g (num 0.5)) =
  match g with operating => num 3000 | discontinued => num 1750 end.
Proof. destruct g; apply Qc_is_canon; by vm_compute. Qed.

(** With every draw equal to 0.5 and no multiplier in force, one pass
    over the airlines leaves [lastValues] untouched and writes the
    rounded starting values into the [dataPoint]. *)
Lemma steady_loop month l lv k dp :
  (forall a, a ∈ l -> a ∈ airlines) ->
  (forall a, a ∈ airlines ->
             lv !! code a = Some (startValue (group a) (num 0.5))) ->
  (fold_left (airlineStep (constantRandom (num 0.5)) 2010 month) l (lv, k, dp)).1.1 = lv /\
  (forall a, a ∈ l ->
     (fold_left (airlineStep (constantRandom (num 0.5)) 2010 month) l (lv, k, dp)).2
       !! code a = Some (Math_round (startValue (group a) (num 0.5)))).
Proof.
  intros Hsub Hlv. revert Hsub.
  apply (fold_left_snoc_ind _ (fun pre acc =>
    (forall a, a ∈ pre -> a ∈ airlines) ->
    acc.1.1 = lv /\
    forall a, a ∈ pre ->
      acc.2 !! code a = Some (Math_round (startValue (group a) (num 0.5))))).
  - split; [done|]. intros a Ha. by apply elem_of_nil in Ha.
  - intros pre x [[lv' k'] dp'] IH Hsub. cbn [fst snd] in IH.
    destruct IH as [-> IH].
    { intros a Ha. apply Hsub, elem_of_app. by left. }
    assert (x ∈ airlines) as Hx.
    { apply Hsub, elem_of_app. right. by apply list_elem_of_singleton. }
    unfold airlineStep. cbn [fst snd]. rewrite (Hlv x Hx). cbn [default].
    unfold constantRandom, id. rewrite perturbed_half, applyTrend_2010.
    split; [by apply insert_id, Hlv|].
    intros a Ha. destruct (decide (code x = code a)) as [Heq|Hne].
    + assert (a ∈ airlines) as Ha' by (by apply Hsub).
      rewrite (NoDup_code_inj airlines x a Hnd Hx Ha' Heq).
      by rewrite lookup_insert_eq.
    + rewrite lookup_insert_ne by done. apply IH.
      apply elem_of_app in Ha as [Ha|Ha]; [done|].
      apply list_elem_of_singleton in Ha. by subst.
Qed.

Lemma monthAt_first_year t : (t < 12)%nat -> (monthAt t).1 = 2010%Z.
Proof.
  intros Ht. do 12 (destruct t as [|t]; [reflexivity|]). lia.
Qed.

Lemma init_steady a :
  a ∈ airlines ->
  (initLastValues (constantRandom (num 0.5)) airlines).1 !! code a
    = Some (startValue (group a) (num 0.5)).
Proof.
  intros Ha. apply list_elem_of_lookup in Ha as [j Hj].
  by rewrite (initLastValues_lookup _ airlines j a Hnd Hj).
Qed.

Lemma first_year_steady t :
  (t <= 12)%nat ->
  lastValues (stateAfter (constantRandom (num 0.5)) airlines t) =
  (initLastValues (constantRandom (num 0.5)) airlines).1.
Proof.
  induction t as [|t IH]; intros Ht.
  - unfold stateAfter, runMonths, initState. simpl.
    by destruct (initLastValues _ _).
  - rewrite stateAfter_S by lia. cbn [lastValues].
    unfold stateBefore. rewrite firstn_all, IH by lia.
    rewrite monthAt_first_year by lia.
    apply steady_loop; [done|]. apply init_steady.
Qed.

Lemma first_year_sample t a :
  (t < 12)%nat -> a ∈ airlines ->
  exists dp,
    generateData (constantRandom (num 0.5)) airlines !! t = Some dp /\
    dp !! code a = Some (Math_round (startValue (group a) (num 0.5))).
Proof.
  intros Ht Ha. rewrite generateData_lookup by lia.
  eexists; split; [done|].
  unfold stateBefore. rewrite firstn_all, first_year_steady by lia.
  rewrite monthAt_first_year by lia.
  by apply steady_loop; [|apply init_steady|].
Qed.
End FirstYear.

(** ** Visibility *)

Lemma isItemVisible_iff (st : AppTsx.ChartState) (a : Airline) :
  AppTsx.isItemVisible st a = true <->
  (group a ∉ AppTsx.hiddenGroups st) /\ (code a ∉ AppTsx.hiddenItems st).
Proof.
  unfold AppTsx.isItemVisible.
  destruct (decide (group a ∈ AppTsx.hiddenGroups st));
    destruct (decide (code a ∈ AppTsx.hiddenItems st));
    split; try done; by intros [??].
Qed.

Lemma isItemVisible_hidden_group (st : AppTsx.ChartState) (a : Airline) :
  group a ∈ AppTsx.hiddenGroups st -> AppTsx.isItemVisible st a = false.
Proof. intros H. unfold AppTsx.isItemVisible. by rewrite decide_True. Qed.

(** ** Tooltip *)

Lemma find_code_Some (airlines : list Airline) h :
  h ∈ code <$> airlines ->
  exists airline,
    List.find (fun a => bool_decide (code a = h)) airlines = Some airline /\
    airline ∈ airlines /\ code airline = h.
Proof.
  induction airlines as [|x l IH]; intros Hin.
  - by apply elem_of_nil in Hin.
  - simpl. destruct (decide (code x = h)) as [Heq|Hne].
    + rewrite bool_decide_eq_true_2 by done. exists x.
      split; [done|]. split; [apply elem_of_cons; by left | done].
    + rewrite bool_decide_eq_false_2 by done.
      rewrite fmap_cons in Hin. apply elem_of_cons in Hin as [Hin|Hin]; [done|].
      destruct (IH Hin) as (a & Hf & Ha & Hc). exists a.
      split; [done|]. split; [apply elem_of_cons; by right | done].
Qed.

Lemma array_get_in_range {A} (l : list A) (i : Z) :
  0 <= i < Z.of_nat (length l) ->
  exists x, array_get l i = Some x /\ l !! Z.to_nat i = Some x.
Proof.
  intros [Hlo Hhi]. unfold array_get.
  rewrite (proj2 (Z.leb_le 0 i)) by done.
  destruct (lookup_lt_is_Some_2 l (Z.to_nat i)) as [x Hx]; [lia|]. eauto.
Qed.

Lemma single_tooltip_App (airlines : list Airline) (data : list (gmap string Qc))
    (st : AppTsx.ChartState) h i :
  AppTsx.hoveredItem st = Some h -> AppTsx.activeIndex st = Some i ->
  h <> ""%string -> h ∈ code <$> airlines -> 0 <= i < Z.of_nat (length data) ->
  exists airline dataPoint,
    airline ∈ airlines /\ code airline = h /\
    data !! Z.to_nat i = Some dataPoint /\
    AppTsx.CustomTooltip true airlines data st =
    Some (SingleTooltip airline (dataPoint !! "year"%string)
            (match dataPoint !! h with Some value => value | None => num 0 end)).
Proof.
  intros Hh Hi Hne Hin Hrange.
  destruct (find_code_Some airlines h Hin) as (airline & Hfind & Ha & Hc).
  destruct (array_get_in_range data i Hrange) as (dataPoint & Hget & Hlook).
  exists airline, dataPoint. repeat split; try done.
  unfold AppTsx.CustomTooltip. rewrite Hi, Hget, Hh.
  rewrite decide_False by done. by rewrite Hfind.
Qed.

Lemma LineChartTsx_CustomTooltip_eq mode airlines data
    (stA : AppTsx.ChartState) (stL : LineChartTsx.ChartState) :
  LineChartTsx.hiddenItems stL = AppTsx.hiddenItems stA ->
  LineChartTsx.hiddenGroups stL = AppTsx.hiddenGroups stA ->
  LineChartTsx.hoveredItem stL = AppTsx.hoveredItem stA ->
  LineChartTsx.activeIndex stL = AppTsx.activeIndex stA ->
  LineChartTsx.CustomTooltip mode airlines data stL =
  AppTsx.CustomTooltip mode airlines data stA.
Proof.
  intros H1 H2 H3 H4. unfold LineChartTsx.CustomTooltip, AppTsx.CustomTooltip.
  rewrite H3, H4.
  assert (LineChartTsx.isItemVisible stL = AppTsx.isItemVisible stA) as ->; [|done].
  unfold LineChartTsx.isItemVisible, AppTsx.isItemVisible. by rewrite H1, H2.
Qed.

Lemma LineChartTsx_CustomTooltip_single_eq airlines data
    (stA : AppTsx.ChartState) (stL : LineChartTsx.ChartState) :
  LineChartTsx.hoveredItem stL = AppTsx.hoveredItem stA ->
  LineChartTsx.activeIndex stL = AppTsx.activeIndex stA ->
  LineChartTsx.CustomTooltip true airlines data stL =
  AppTsx.CustomTooltip true airlines data stA.
Proof.
  intros H3 H4. unfold LineChartTsx.CustomTooltip, AppTsx.CustomTooltip.
  by rewrite H3, H4.
Qed.

(** ** Z-order: the sorted copy of the catalog *)

Section ZOrder.
Context (hovered : option string).
Lemma sort_insert_hovered x l :
  Some (code x) = hovered -> sort_insert (AppTsx.hoverCompare hovered) x l = l ++ [x].
Proof.
  intros Hx. induction l as [|y l IH]; [done|].
  simpl. unfold AppTsx.hoverCompare at 1.
  rewrite decide_True by done. simpl. by rewrite IH.
Qed.

Lemma sort_insert_other x l :
  Some (code x) <> hovered -> sort_insert (AppTsx.hoverCompare hovered) x l = x :: l.
Proof.
  intros Hx. destruct l as [|y l]; [done|].
  simpl. unfold AppTsx.hoverCompare.
  rewrite decide_False by done. by destruct (decide (Some (code y) = hovered)).
Qed.

Lemma Array_sort_hover l :
  Array_sort (AppTsx.hoverCompare hovered) l =
  filter (fun a => Some (code a) <> hovered) l ++
  reverse (filter (fun a => Some (code a) = hovered) l).
Proof.
  unfold Array_sort. induction l as [|x l IH]; [done|].
  simpl. rewrite IH.
  destruct (decide (Some (code x) = hovered)) as [Hx|Hx].
  - rewrite sort_insert_hovered by done.
    rewrite filter_cons_False by (by intros H; apply H).
    rewrite filter_cons_True by done.
    by rewrite reverse_cons, app_assoc.
  - rewrite sort_insert_other by done.
    rewrite filter_cons_True by done.
    by rewrite filter_cons_False by done.
Qed.

Lemma hovered_unique l :
  NoDup (code <$> l) ->
  reverse (filter (fun a => Some (code a) = hovered) l)
  = filter (fun a => Some (code a) = hovered) l.
Proof.
  induction l as [|x l IH]; intros Hnd; [done|].
  rewrite fmap_cons in Hnd. apply NoDup_cons in Hnd as [Hx Hnd].
  destruct (decide (Some (code x) = hovered)) as [Hh|Hh].
  - rewrite filter_cons_True by done.
    assert (filter (fun a => Some (code a) = hovered) l = []) as ->; [|done].
    clear IH Hnd. induction l as [|y l IHl]; [done|].
    rewrite fmap_cons in Hx. apply not_elem_of_cons in Hx as [Hne Hx].
    rewrite filter_cons_False; [by apply IHl|].
    intros Hy. apply Hne. congruence.
  - rewrite filter_cons_False by done. by apply IH.
Qed.

Lemma sortedAirlines_spec airlines :
  NoDup (code <$> airlines) ->
  AppTsx.sortedAirlines airlines hovered =
  filter (fun a => Some (code a) <> hovered) airlines ++
  filter (fun a => Some (code a) = hovered) airlines.
Proof.
  intros Hnd. unfold AppTsx.sortedAirlines.
  by rewrite Array_sort_hover, hovered_unique.
Qed.

Lemma sortedAirlines_last airlines a :
  NoDup (code <$> airlines) -> a ∈ airlines -> Some (code a) = hovered ->
  last (AppTsx.sortedAirlines airlines hovered) = Some a.
Proof.
  intros Hnd Ha Hh. rewrite sortedAirlines_spec by done.
  assert (a ∈ filter (fun a => Some (code a) = hovered) airlines) as Hin
    by (by apply list_elem_of_filter).
  assert (forall b, b ∈ filter (fun a => Some (code a) = hovered) airlines -> b = a) as Hall.
  { intros b [Hb Hb']%list_elem_of_filter.
    apply (NoDup_code_inj airlines); [done..|congruence]. }
  revert Hin Hall.
  generalize (filter (fun a => Some (code a) = hovered) airlines).
  intros hs. destruct hs as [|b hs _] using rev_ind; intros Hin Hall.
  - by apply elem_of_nil in Hin.
  - rewrite app_assoc, last_snoc. f_equal. apply Hall, elem_of_app.
    right. by apply list_elem_of_singleton.
Qed.
End ZOrder.

(** The engine's sorting algorithm does not matter: a rearrangement of
    the catalog that is sorted for the comparator and keeps the
    non-hovered airlines in their order is the list computed above. *)
Section AnyStableSort.
Context (hovered : option string).

(** A list in which no element is followed by one that the comparator
    wants before it has its hovered entry, if any, in last position. *)
Lemma sorted_split (l : list Airline) :
  (forall i j a b, (i < j)%nat -> l !! i = Some a -> l !! j = Some b ->
                   AppTsx.hoverCompare hovered a b <= 0) ->
  l = filter (fun a => Some (code a) <> hovered) l ++
      filter (fun a => Some (code a) = hovered) l /\
  (length (filter (fun a => Some (code a) = hovered) l) <= 1)%nat.
Proof.
  induction l as [|a l IH]; intros Hsorted; [split; [done | simpl; lia]|].
  destruct (decide (Some (code a) = hovered)) as [Ha|Ha].
  - destruct l as [|b l].
    + rewrite filter_cons_False by (by intros H; apply H).
      rewrite filter_cons_True by done. split; [done | simpl; lia].
    + exfalso. specialize (Hsorted 0%nat 1%nat a b). unfold AppTsx.hoverCompare in Hsorted.
      rewrite decide_True in Hsorted by done.
      specialize (Hsorted ltac:(lia) eq_refl eq_refl). lia.
  - rewrite filter_cons_True by done. rewrite filter_cons_False by done.
    destruct IH as [IH1 IH2].
    { intros i j x y Hij Hi Hj. apply (Hsorted (S i) (S j)); [lia|done..]. }
    split; [|done]. simpl. by rewrite <- IH1.
Qed.

Lemma short_Permutation {A} (l1 l2 : list A) :
  (length l1 <= 1)%nat -> l1 ≡ₚ l2 -> l1 = l2.
Proof.
  intros Hlen Hp. destruct l1 as [|x [|y l1]]; [| |simpl in Hlen; lia].
  - by apply Permutation_nil_l in Hp.
  - by apply Permutation_singleton_l in Hp.
Qed.

Lemma stable_sort_unique (airlines l : list Airline) :
  l ≡ₚ airlines ->
  (forall i j a b, (i < j)%nat -> l !! i = Some a -> l !! j = Some b ->
                   AppTsx.hoverCompare hovered a b <= 0) ->
  filter (fun a => Some (code a) <> hovered) l
  = filter (fun a => Some (code a) <> hovered) airlines ->
  l = filter (fun a => Some (code a) <> hovered) airlines ++
      filter (fun a => Some (code a) = hovered) airlines.
Proof.
  intros Hperm Hsorted Hstable.
  destruct (sorted_split l Hsorted) as [Hsplit Hlen].
  rewrite Hsplit at 1. rewrite Hstable. f_equal.
  apply short_Permutation; [done|]. by rewrite Hperm.
Qed.
End AnyStableSort.

Lemma LineChartTsx_sortedAirlines_eq airlines hovered :
  LineChartTsx.sortedAirlines airlines hovered = AppTsx.sortedAirlines airlines hovered.
Proof. reflexivity. Qed.

(** ** The mode flag *)

Lemma App_step_frame now e (w1 w2 : AppTsx.World) :
  AppTsx.chart w1 = AppTsx.chart w2 ->
  AppTsx.memoData w1 = AppTsx.memoData w2 ->
  AppTsx.memoAirlines w1 = AppTsx.memoAirlines w2 ->
  AppTsx.chart (AppTsx.step now e w1) = AppTsx.chart (AppTsx.step now e w2) /\
  AppTsx.memoData (AppTsx.step now e w1) = AppTsx.memoData (AppTsx.step now e w2) /\
  AppTsx.memoAirlines (AppTsx.step now e w1) = AppTsx.memoAirlines (AppTsx.step now e w2).
Proof. intros Hc Hd Ha. destruct e; cbn; by rewrite ?Hc, ?Hd, ?Ha. Qed.

Lemma LineChart_step_frame now e (w1 w2 : LineChartTsx.World) :
  LineChartTsx.chart w1 = LineChartTsx.chart w2 ->
  LineChartTsx.memoData w1 = LineChartTsx.memoData w2 ->
  LineChartTsx.memoAirlines w1 = LineChartTsx.memoAirlines w2 ->
  LineChartTsx.chart (LineChartTsx.step now e w1)
    = LineChartTsx.chart (LineChartTsx.step now e w2) /\
  LineChartTsx.memoData (LineChartTsx.step now e w1)
    = LineChartTsx.memoData (LineChartTsx.step now e w2) /\
  LineChartTsx.memoAirlines (LineChartTsx.step now e w1)
    = LineChartTsx.memoAirlines (LineChartTsx.step now e w2).
Proof.
  intros Hc Hd Ha. destruct e; cbn; rewrite ?Hc, ?Hd, ?Ha; try done.
  unfold LineChartTsx.handleMouseLeave.
  by destruct (LineChartTsx.singleAirlineMode w1), (LineChartTsx.singleAirlineMode w2).
Qed.

Lemma App_step_memo now e (w : AppTsx.World) :
  AppTsx.memoData (AppTsx.step now e w) = AppTsx.memoData w /\
  AppTsx.memoAirlines (AppTsx.step now e w) = AppTsx.memoAirlines w.
Proof. by destruct e. Qed.

Lemma App_reachable_memo rnd (w : AppTsx.World) :
  AppTsx.reachable rnd w ->
  AppTsx.memoData w = AppTsx.generateData rnd generateAirlines /\
  AppTsx.memoAirlines w = generateAirlines.
Proof.
  induction 1 as [mode|now e w Hw [IHd IHa]]; [split; reflexivity|].
  destruct (App_step_memo now e w) as [-> ->]. exact (conj IHd IHa).
Qed.

Lemma LineChart_step_memo now e (w : LineChartTsx.World) :
  LineChartTsx.memoData (LineChartTsx.step now e w) = LineChartTsx.memoData w /\
  LineChartTsx.memoAirlines (LineChartTsx.step now e w) = LineChartTsx.memoAirlines w.
Proof. by destruct e. Qed.

Lemma LineChart_reachable_memo rnd (w : LineChartTsx.World) :
  LineChartTsx.reachable rnd w ->
  LineChartTsx.memoData w = LineChartTsx.generateData rnd generateAirlines /\
  LineChartTsx.memoAirlines w = generateAirlines.
Proof.
  induction 1 as [mode|now e w Hw [IHd IHa]]; [split; reflexivity|].
  destruct (LineChart_step_memo now e w) as [-> ->]. exact (conj IHd IHa).
Qed.

(** *** What the mode flag does change: opacity and the active dot *)

Lemma getLineOpacity_hidden mode (st : AppTsx.ChartState) a :
  AppTsx.isItemVisible st a = false -> AppTsx.getLineOpacity mode st a = num 0.
Proof.
  unfold AppTsx.isItemVisible, AppTsx.getLineOpacity.
  destruct (decide (group a ∈ AppTsx.hiddenGroups st)); [done|].
  by destruct (decide (code a ∈ AppTsx.hiddenItems st)).
Qed.

Lemma getLineOpacity_classic (st : AppTsx.ChartState) a :
  AppTsx.isItemVisible st a = true -> AppTsx.getLineOpacity false st a = num 1.
Proof.
  unfold AppTsx.isItemVisible, AppTsx.getLineOpacity.
  destruct (decide (group a ∈ AppTsx.hiddenGroups st)); [done|].
  by destruct (decide (code a ∈ AppTsx.hiddenItems st)).
Qed.

Lemma getLineOpacity_single (st : AppTsx.ChartState) a :
  AppTsx.isItemVisible st a = true ->
  AppTsx.getLineOpacity true st a =
  match AppTsx.hoveredItem st with
  | None => num 1
  | Some h => if decide (h = code a) then num 1 else num 0.08
  end.
Proof.
  unfold AppTsx.isItemVisible, AppTsx.getLineOpacity.
  destruct (decide (group a ∈ AppTsx.hiddenGroups st)); [done|].
  destruct (decide (code a ∈ AppTsx.hiddenItems st)); [done|]. intros _. cbn.
  destruct (AppTsx.hoveredItem st) as [h|]; [|done].
  rewrite decide_False by done.
  destruct (decide (h = code a)) as [->|Hne]; [by rewrite decide_True|].
  rewrite decide_False; [done|]. by intros [=].
Qed.

Lemma LineChartTsx_getLineOpacity_single (st : LineChartTsx.ChartState) a :
  LineChartTsx.isItemVisible st a = true ->
  LineChartTsx.getLineOpacity true st a =
  match LineChartTsx.hoveredItem st with
  | None => num 1
  | Some h => if decide (h = code a) then num 1 else num 0.15
  end.
Proof.
  unfold LineChartTsx.getLineOpacity. intros ->. cbn.
  destruct (LineChartTsx.hoveredItem st) as [h|]; [|done].
  rewrite decide_False by done.
  destruct (decide (h = code a)) as [->|Hne]; [by rewrite decide_True|].
  rewrite decide_False; [done|]. by intros [=].
Qed.

(** With "LX" hovered, "BA" is faded in single-airline mode and not in
    classic mode; with an active index, "BA" has no active dot in
    single-airline mode and has one in classic mode. *)
Lemma mode_changes_presentation :
  let st := AppTsx.setActiveIndex (Some 5)
              (AppTsx.setHoveredItem (Some "LX"%string) AppTsx.initialState) in
  AppTsx.getLineOpacity true st airlineBA = num 0.08 /\
  AppTsx.getLineOpacity false st airlineBA = num 1 /\
  AppTsx.getLineWidth st airlineLX = num 3 /\
  AppTsx.getLineWidth st airlineBA = num 2 /\
  AppTsx.activeDot true st airlineBA = None /\
  AppTsx.activeDot false st airlineBA = Some 4 /\
  AppTsx.activeDot true st airlineLX = Some 6.
Proof. repeat split; reflexivity. Qed.

Lemma LineChartTsx_mode_changes_presentation :
  let st := LineChartTsx.setActiveIndex (Some 5)
              (LineChartTsx.setHoveredItem (Some "LX"%string)
                 LineChartTsx.initialState) in
  LineChartTsx.getLineOpacity true st airlineBA = num 0.15 /\
  LineChartTsx.getLineOpacity false st airlineBA = num 1 /\
  LineChartTsx.getLineWidth st airlineLX = num 3 /\
  LineChartTsx.dot true st airlineBA 5 = 0 /\
  LineChartTsx.dot false st airlineBA 5 = 4 /\
  LineChartTsx.dot true st airlineLX 5 = 6 /\
  LineChartTsx.dot true st airlineLX 4 = 0.
Proof. repeat split; reflexivity. Qed.

(** ** Pointer moves *)

Lemma handleMouseMove_dropped now state (st : AppTsx.ChartState) :
  now - AppTsx.lastUpdateRef st < 16 ->
  AppTsx.handleMouseMove now state st = st.
Proof.
  intros H. unfold AppTsx.handleMouseMove, AppTsx.throttleMs.
  by rewrite (proj2 (Z.ltb_lt _ _) H).
Qed.

Lemma handleMouseMove_accepted now state (st : AppTsx.ChartState) :
  16 <= now - AppTsx.lastUpdateRef st ->
  AppTsx.lastUpdateRef (AppTsx.handleMouseMove now state st) = now /\
  AppTsx.hiddenItems (AppTsx.handleMouseMove now state st) = AppTsx.hiddenItems st /\
  AppTsx.hiddenGroups (AppTsx.handleMouseMove now state st) = AppTsx.hiddenGroups st /\
  AppTsx.hoveredItem (AppTsx.handleMouseMove now state st) = AppTsx.hoveredItem st /\
  AppTsx.activeIndex (AppTsx.handleMouseMove now state st) =
    match state with
    | Some {| activeTooltipIndex := Some index |} => index
    | _ => AppTsx.activeIndex st
    end.
Proof.
  intros H. unfold AppTsx.handleMouseMove, AppTsx.throttleMs.
  rewrite (proj2 (Z.ltb_ge _ _) H).
  by destruct state as [[[index|]]|].
Qed.

(** Two moves in a row: when the first passes the throttle, a second one
    less than 16 ms later changes nothing. *)
Lemma handleMouseMove_min_interval now1 now2 state1 state2 (st : AppTsx.ChartState) :
  16 <= now1 - AppTsx.lastUpdateRef st ->
  now2 - now1 < 16 ->
  AppTsx.handleMouseMove now2 state2 (AppTsx.handleMouseMove now1 state1 st)
  = AppTsx.handleMouseMove now1 state1 st.
Proof.
  intros H1 H2. apply handleMouseMove_dropped.
  destruct (handleMouseMove_accepted now1 state1 st H1) as [-> _]. done.
Qed.

(** *** The walk of one series: numbering of the draws, recurrence *)

Section Draws.
Import AppTsx.
Context (rnd : nat -> Qc) (airlines : list Airline).

Lemma initLastValues_calls : (initLastValues rnd airlines).2 = length airlines.
Proof.
  unfold initLastValues.
  apply (fold_left_snoc_ind _ (fun pre (acc : gmap string Qc * nat) =>
           acc.2 = length pre)); [done|].
  intros pre x [lv k] Hk. simpl in Hk. subst k.
  rewrite length_app. destruct (group x); simpl; lia.
Qed.

Lemma runMonths_calls sched :
  calls (runMonths rnd airlines sched)
  = (length airlines + length sched * length airlines)%nat.
Proof.
  induction sched as [|ym sched IH] using rev_ind.
  - unfold runMonths, initState. simpl.
    pose proof initLastValues_calls as H.
    destruct (initLastValues rnd airlines). simpl in *. lia.
  - rewrite runMonths_snoc, monthStep_eq. cbn [calls].
    rewrite airlines_loop_calls, IH, length_app. simpl. lia.
Qed.

Lemma stateAfter_calls t :
  (t <= 180)%nat ->
  calls (stateAfter rnd airlines t) = (length airlines + t * length airlines)%nat.
Proof.
  intros Ht. unfold stateAfter.
  rewrite runMonths_calls, length_take, schedule_length.
  by rewrite Nat.min_l.
Qed.

Lemma stateBefore_calls t j :
  (t <= 180)%nat -> (j <= length airlines)%nat ->
  (stateBefore rnd airlines t j).1.2
  = (length airlines + t * length airlines + j)%nat.
Proof.
  intros Ht Hj. unfold stateBefore.
  rewrite airlines_loop_calls, stateAfter_calls, length_take by done.
  by rewrite Nat.min_l.
Qed.

(** One pass of the inner loop, for a catalog with distinct codes: the
    airline at position [j] reads its own stored value, uses draw
    [k + j], and what it writes is still there at the end of the pass. *)
Lemma airlines_loop_at year month l lv k dp j a :
  NoDup (code <$> l) -> l !! j = Some a ->
  (fold_left (airlineStep rnd year month) l (lv, k, dp)).1.1 !! code a
  = Some (applyTrend (group a) year month
            (perturbed (default (num 0) (lv !! code a)) (rnd (k + j)%nat))).
Proof.
  intros Hnd Hj.
  pose proof (take_drop_middle l j a Hj) as Hsplit.
  rewrite <- Hsplit in Hnd |- *.
  rewrite fmap_app, fmap_cons in Hnd.
  apply NoDup_app in Hnd as (_ & Hpre & Hnd).
  apply NoDup_cons in Hnd as [Hpost _].
  rewrite fold_left_app. cbn [fold_left].
  pose proof (airlines_loop_other rnd year month (take j l) lv k dp (code a)) as Ho.
  pose proof (airlines_loop_calls rnd year month (take j l) lv k dp) as Hc.
  destruct (fold_left (airlineStep rnd year month) (take j l) (lv, k, dp))
    as [[lv1 k1] dp1]. cbn [fst snd] in Ho, Hc.
  destruct Ho as [Ho _].
  { intros Hin. apply (Hpre _ Hin). apply elem_of_cons. by left. }
  unfold airlineStep at 2.
  pose proof (airlines_loop_other rnd year month (drop (S j) l)
    (<[code a := applyTrend (group a) year month
                   (perturbed (default (num 0) (lv1 !! code a)) (rnd k1))]> lv1)
    (S k1)
    (<[code a := Math_round (applyTrend (group a) year month
                   (perturbed (default (num 0) (lv1 !! code a)) (rnd k1)))]> dp1)
    (code a) Hpost) as [-> _].
  rewrite lookup_insert_eq, Ho, Hc, length_take.
  assert (j < length l)%nat by (by eapply lookup_lt_Some).
  by rewrite Nat.min_l by lia.
Qed.
End Draws.

Section Series.
Import AppTsx.
Local Open Scope Qc_scope.
Context (rnd : nat -> Qc) (airlines : list Airline).

Lemma stateAfter_0 :
  lastValues (stateAfter rnd airlines 0) = (initLastValues rnd airlines).1.
Proof.
  unfold stateAfter, runMonths, initState. simpl.
  by destruct (initLastValues rnd airlines).
Qed.

Lemma stateAfter_step t j a :
  NoDup (code <$> airlines) -> airlines !! j = Some a -> (t < 180)%nat ->
  lastValues (stateAfter rnd airlines (S t)) !! code a
  = Some (applyTrend (group a) (monthAt t).1 (monthAt t).2
            (perturbed
               (default (num 0) (lastValues (stateAfter rnd airlines t) !! code a))
               (rnd (length airlines + t * length airlines + j)%nat))).
Proof.
  intros Hnd Hj Ht. rewrite stateAfter_S by done. cbn [lastValues].
  unfold stateBefore. rewrite firstn_all.
  rewrite (airlines_loop_at rnd _ _ airlines _ _ _ j a Hnd Hj).
  by rewrite stateAfter_calls by lia.
Qed.

Lemma stateAfter_inBand t a :
  (forall n, 0 <= rnd n /\ rnd n < 1) ->
  NoDup (code <$> airlines) -> a ∈ airlines -> (t <= 180)%nat ->
  exists L, lastValues (stateAfter rnd airlines t) !! code a = Some L /\
            inBand (group a) L.
Proof.
  intros Hrnd Hnd Ha Ht. destruct t as [|t].
  - apply list_elem_of_lookup in Ha as [j Hj].
    rewrite stateAfter_0, (initLastValues_lookup rnd airlines j a Hnd Hj).
    eexists; split; [done|]. apply startValue_inBand; apply Hrnd.
  - apply lastValue_band_at; [done | lia | done].
Qed.
End Series.

(** * The claims about the generator *)

Section GeneratorClaims.
Local Open Scope Qc_scope.

(** C1, as stated, fails in binary64 arithmetic.  One operating airline
    and the draws 0.5, 0.25, 0: the series starts at 3000, January 2010
    leaves the stored last value 2880, and in February the draw 0 gives
    [maxVariation = 2880 * 0.08], rounded up to the double above 230.4,
    and [newValue = 2880 - maxVariation], rounded down: [newValue] is
    away from [lastValue] by [0.08 * 2880 + 1/10995116277760].  The
    bound fails as a comparison of the exact numbers and also when both
    sides are computed in binary64.  Both files. *)
Lemma perturbation_exceeds_8_percent :
  (forall n, 0 <= edgeRandom n /\ edgeRandom n < 1) /\
  (AppTsx.stateBefore edgeRandom [airlineLX] 1 0).1.1 !! code airlineLX
    = Some (num 2880) /\
  (AppTsx.stateBefore edgeRandom [airlineLX] 1 0).1.2 = 2%nat /\
  Qcabs (AppTsx.perturbed (num 2880) (edgeRandom 2) - num 2880)
    = num 0.08 * num 2880 + num (1 # 10995116277760) /\
  ~ Qcabs (AppTsx.perturbed (num 2880) (edgeRandom 2) - num 2880)
      <= num 0.08 * num 2880 /\
  ~ Qcabs (LineChartTsx.perturbed (num 2880) (edgeRandom 2) - num 2880)
      <= num 0.08 * num 2880 /\
  ~ Qcabs (fsub (AppTsx.perturbed (num 2880) (edgeRandom 2)) (num 2880))
      <= fmul (lit 0.08) (num 2880).
Proof.
  split.
  { intros [|[|n]]; split; by vm_compute. }
  split; [apply option_Qc_eq; by vm_compute|].
  split; [by vm_compute|].
  split; [apply Qc_is_canon; by vm_compute|].
  split; [by vm_compute|].
  split; by vm_compute.
Qed.

(** C1 (perturbation bound), up to rounding.  Take any random source
    whose values lie in [[0, 1)], any catalog whose codes are ordinary
    keys (none is [__proto__]), any month [t] and any position [j] in
    the catalog, holding airline [a].
    [stateBefore rnd airlines t j] is the accumulator
    [(lastValues, k, dataPoint)] of the inner loop just before that
    airline is handled in that month: the step reads
    [lastValue = lastValues[a.code]], draws [rnd k] and sets
    [newValue = lastValue + variation], which is [perturbed lastValue
    (rnd k)], before any date-conditioned multiplier or clamp.  The read
    succeeds, [lastValue] lies between 100 and 5500, and
    [|newValue - lastValue| <= 0.08 * lastValue * (1 + 2^-40)]: the five
    roundings of the step and the excess of the double [0.08] over 2/25
    fit in the margin.  This holds at every month (the first included)
    and in both files. *)
Theorem perturbation_within_8_percent_up_to_rounding
    (rnd : nat -> Qc) (airlines : list Airline) (t j : nat) (a : Airline) :
  ("__proto__"%string ∉ code <$> airlines) ->
  (forall n, 0 <= rnd n /\ rnd n < 1) ->
  airlines !! j = Some a ->
  (exists lastValue,
      (AppTsx.stateBefore rnd airlines t j).1.1 !! code a = Some lastValue /\
      num 100 <= lastValue /\ lastValue <= num 5500 /\
      Qcabs (AppTsx.perturbed lastValue (rnd (AppTsx.stateBefore rnd airlines t j).1.2)
             - lastValue)
        <= num 0.08 * lastValue * (1 + roundingMargin)) /\
  (exists lastValue,
      (LineChartTsx.stateBefore rnd airlines t j).1.1 !! code a = Some lastValue /\
      num 100 <= lastValue /\ lastValue <= num 5500 /\
      Qcabs (LineChartTsx.perturbed lastValue
               (rnd (LineChartTsx.stateBefore rnd airlines t j).1.2)
             - lastValue)
        <= num 0.08 * lastValue * (1 + roundingMargin)).
Proof.
  intros _ Hrnd Ha.
  destruct (perturbation_bound_at rnd airlines t j a Hrnd Ha) as (v & Hv & [H0 H1] & Hb).
  split.
  - exists v. by repeat split.
  - rewrite LineChartTsx_stateBefore_eq. exists v.
    rewrite LineChartTsx_perturbed_eq. by repeat split.
Qed.

(** The bound at the fourth month for the second airline of the real
    catalog, with the draws of [jumpRandom]. *)
Lemma perturbation_within_8_percent_up_to_rounding_witness :
  ("__proto__"%string ∉ code <$> generateAirlines) /\
  (forall n, 0 <= jumpRandom n /\ jumpRandom n < 1) /\
  generateAirlines !! 1%nat = Some airlineBA /\
  exists lastValue,
    (AppTsx.stateBefore jumpRandom generateAirlines 3 1).1.1 !! code airlineBA
      = Some lastValue /\
    num 100 <= lastValue /\ lastValue <= num 5500 /\
    Qcabs (AppTsx.perturbed lastValue
             (jumpRandom (AppTsx.stateBefore jumpRandom generateAirlines 3 1).1.2)
           - lastValue)
      <= num 0.08 * lastValue * (1 + roundingMargin).
Proof.
  assert (forall n, 0 <= jumpRandom n /\ jumpRandom n < 1) as Hrnd.
  { intros [|n]; split; by vm_compute. }
  split; [exact generateAirlines_ordinary|].
  split; [exact Hrnd|]. split; [reflexivity|].
  exact (proj1 (perturbation_within_8_percent_up_to_rounding jumpRandom generateAirlines
                  3 1 airlineBA generateAirlines_ordinary Hrnd eq_refl)).
Defined.

(** C2 (clamp invariant).  For a catalog with distinct codes and any
    random source whatsoever, every sample of the generated matrix holds,
    for every airline, a value inside the band of the airline's group:
    800..5500 for [operating], 100..3500 for [discontinued] ([bandMin],
    [bandMax]).  The clamp is the last operation of [applyTrend], after
    the multipliers, and its result is what is written to [lastValues]:
    after every month the stored last value of every airline is inside
    the band as well.  Both files. *)
Theorem samples_within_band (rnd : nat -> Qc) (airlines : list Airline) :
  NoDup (code <$> airlines) ->
  (forall dp a,
      dp ∈ AppTsx.generateData rnd airlines -> a ∈ airlines ->
      exists v, dp !! code a = Some v /\ bandMin (group a) <= v /\ v <= bandMax (group a)) /\
  (forall t a,
      (t < 180)%nat -> a ∈ airlines ->
      exists v, lastValues (AppTsx.stateAfter rnd airlines (S t)) !! code a = Some v /\
                bandMin (group a) <= v /\ v <= bandMax (group a)) /\
  (forall dp a,
      dp ∈ LineChartTsx.generateData rnd airlines -> a ∈ airlines ->
      exists v, dp !! code a = Some v /\ bandMin (group a) <= v /\ v <= bandMax (group a)) /\
  (forall t a,
      (t < 180)%nat -> a ∈ airlines ->
      exists v, lastValues (LineChartTsx.stateAfter rnd airlines (S t)) !! code a = Some v /\
                bandMin (group a) <= v /\ v <= bandMax (group a)).
Proof.
  intros Hnd.
  assert (forall dp a,
      dp ∈ AppTsx.generateData rnd airlines -> a ∈ airlines ->
      exists v, dp !! code a = Some v /\ bandMin (group a) <= v /\ v <= bandMax (group a)) as H1.
  { intros dp a Hdp Ha. by apply (sample_band rnd airlines). }
  assert (forall t a,
      (t < 180)%nat -> a ∈ airlines ->
      exists v, lastValues (AppTsx.stateAfter rnd airlines (S t)) !! code a = Some v /\
                bandMin (group a) <= v /\ v <= bandMax (group a)) as H2.
  { intros t a Ht Ha. by apply (lastValue_band_at rnd airlines). }
  repeat split; [exact H1 | exact H2 | |].
  - intros dp a. rewrite LineChartTsx_generateData_eq. apply H1.
  - intros t a. rewrite LineChartTsx_stateAfter_eq. apply H2.
Qed.

(** The real catalog has distinct codes, so all its samples are in band. *)
Lemma samples_within_band_witness :
  NoDup (code <$> generateAirlines) /\
  forall dp a,
    dp ∈ AppTsx.generateData jumpRandom generateAirlines -> a ∈ generateAirlines ->
    exists v, dp !! code a = Some v /\ bandMin (group a) <= v /\ v <= bandMax (group a).
Proof.
  split; [exact generateAirlines_NoDup|].
  exact (proj1 (samples_within_band jumpRandom generateAirlines
                  generateAirlines_NoDup)).
Defined.

(** C3, as stated, fails: the value kept in [lastValues] is the clamped
    value before rounding, the sample is its rounding.  One airline,
    first draw 0.25 (start at 2500), second draw 1/2 + 1/512 (variation
    200/256): after the first month [lastValues["LX"]] is 2500.78125
    while the sample is 2501.  Both files. *)
Lemma last_value_is_not_rounded :
  lastValues (AppTsx.stateAfter jumpRandom [airlineLX] 1) !! "LX"%string
    = Some (num 2500.78125) /\
  (AppTsx.generateData jumpRandom [airlineLX] !! 0%nat) ≫= (fun dp => dp !! "LX"%string)
    = Some (num 2501) /\
  lastValues (LineChartTsx.stateAfter jumpRandom [airlineLX] 1) !! "LX"%string
    = Some (num 2500.78125) /\
  (LineChartTsx.generateData jumpRandom [airlineLX] !! 0%nat) ≫= (fun dp => dp !! "LX"%string)
    = Some (num 2501) /\
  num 2500.78125 <> num 2501.
Proof.
  assert (lastValues (AppTsx.stateAfter jumpRandom [airlineLX] 1) !! "LX"%string
          = Some (num 2500.78125)) as H1
    by (apply option_Qc_eq; by vm_compute).
  assert ((AppTsx.generateData jumpRandom [airlineLX] !! 0%nat)
            ≫= (fun dp => dp !! "LX"%string) = Some (num 2501)) as H2.
  { rewrite generateData_lookup by lia. apply option_Qc_eq. by vm_compute. }
  split; [exact H1|]. split; [exact H2|].
  split; [by rewrite LineChartTsx_stateAfter_eq|].
  split; [by rewrite LineChartTsx_generateData_eq|].
  intros [=].
Qed.

(** C3, amended.  For a catalog with distinct codes that are ordinary
    keys (none is [__proto__]), in every month [t] but the last
    the airline at position [j] reads its stored last value [L], and the
    clamped value [v] computed from [L] is written to [lastValues] as it
    is, unrounded; the sample of the month holds [Math.round(v)], which
    differs from [v] by at most one half.  The next month starts from
    the stored [v], not from the sample: its stored value is the clamped
    perturbation of [v] and its sample the rounding of that.  Both
    files. *)
Theorem sample_is_rounded_last_value
    (rnd : nat -> Qc) (airlines : list Airline) (t j : nat) (a : Airline) :
  ("__proto__"%string ∉ code <$> airlines) ->
  NoDup (code <$> airlines) -> airlines !! j = Some a -> (S t < 180)%nat ->
  (exists L v v' dp dp',
      lastValues (AppTsx.stateAfter rnd airlines t) !! code a = Some L /\
      v = AppTsx.applyTrend (group a) (monthAt t).1 (monthAt t).2
            (AppTsx.perturbed L (rnd (length airlines + t * length airlines + j)%nat)) /\
      lastValues (AppTsx.stateAfter rnd airlines (S t)) !! code a = Some v /\
      AppTsx.generateData rnd airlines !! t = Some dp /\
      dp !! code a = Some (Math_round v) /\
      v - num 0.5 < Math_round v /\ Math_round v <= v + num 0.5 /\
      v' = AppTsx.applyTrend (group a) (monthAt (S t)).1 (monthAt (S t)).2
             (AppTsx.perturbed v (rnd (length airlines + S t * length airlines + j)%nat)) /\
      lastValues (AppTsx.stateAfter rnd airlines (S (S t))) !! code a = Some v' /\
      AppTsx.generateData rnd airlines !! S t = Some dp' /\
      dp' !! code a = Some (Math_round v')) /\
  (exists L v v' dp dp',
      lastValues (LineChartTsx.stateAfter rnd airlines t) !! code a = Some L /\
      v = LineChartTsx.applyTrend (group a) (monthAt t).1 (monthAt t).2
            (LineChartTsx.perturbed L (rnd (length airlines + t * length airlines + j)%nat)) /\
      lastValues (LineChartTsx.stateAfter rnd airlines (S t)) !! code a = Some v /\
      LineChartTsx.generateData rnd airlines !! t = Some dp /\
      dp !! code a = Some (Math_round v) /\
      v - num 0.5 < Math_round v /\ Math_round v <= v + num 0.5 /\
      v' = LineChartTsx.applyTrend (group a) (monthAt (S t)).1 (monthAt (S t)).2
             (LineChartTsx.perturbed v (rnd (length airlines + S t * length airlines + j)%nat)) /\
      lastValues (LineChartTsx.stateAfter rnd airlines (S (S t))) !! code a = Some v' /\
      LineChartTsx.generateData rnd airlines !! S t = Some dp' /\
      dp' !! code a = Some (Math_round v')).
Proof.
  intros _ Hnd Hj Ht.
  assert (a ∈ airlines) as Ha by (by eapply list_elem_of_lookup_2).
  assert (t < 180)%nat as Ht0 by lia.
  destruct (stateBefore_defined rnd airlines t 0 a Ha) as [L HL].
  rewrite stateBefore_0 in HL. cbn [fst] in HL.
  pose proof (stateAfter_step rnd airlines t j a Hnd Hj Ht0) as Hv.
  rewrite HL in Hv. cbn [default] in Hv.
  pose proof (stateAfter_step rnd airlines (S t) j a Hnd Hj Ht) as Hv'.
  rewrite Hv in Hv'. cbn [default] in Hv'.
  destruct (sample_at rnd airlines t a Ht0 Ha) as (w & dp & Hdp & Hw & Hs).
  rewrite Hv in Hw. injection Hw as <-.
  destruct (sample_at rnd airlines (S t) a Ht Ha) as (w' & dp' & Hdp' & Hw' & Hs').
  rewrite Hv' in Hw'. injection Hw' as <-.
  destruct (Math_round_near
              (AppTsx.applyTrend (group a) (monthAt t).1 (monthAt t).2
                 (AppTsx.perturbed L (rnd (length airlines + t * length airlines + j)%nat)))) as [Hlo Hhi].
  assert (exists L v v' dp dp',
      lastValues (AppTsx.stateAfter rnd airlines t) !! code a = Some L /\
      v = AppTsx.applyTrend (group a) (monthAt t).1 (monthAt t).2
            (AppTsx.perturbed L (rnd (length airlines + t * length airlines + j)%nat)) /\
      lastValues (AppTsx.stateAfter rnd airlines (S t)) !! code a = Some v /\
      AppTsx.generateData rnd airlines !! t = Some dp /\
      dp !! code a = Some (Math_round v) /\
      v - num 0.5 < Math_round v /\ Math_round v <= v + num 0.5 /\
      v' = AppTsx.applyTrend (group a) (monthAt (S t)).1 (monthAt (S t)).2
             (AppTsx.perturbed v (rnd (length airlines + S t * length airlines + j)%nat)) /\
      lastValues (AppTsx.stateAfter rnd airlines (S (S t))) !! code a = Some v' /\
      AppTsx.generateData rnd airlines !! S t = Some dp' /\
      dp' !! code a = Some (Math_round v')) as HApp.
  { eexists L, _, _, dp, dp'.
    split; [exact HL|]. split; [reflexivity|]. split; [exact Hv|].
    split; [exact Hdp|]. split; [exact Hs|]. split; [exact Hlo|].
    split; [exact Hhi|]. split; [reflexivity|]. split; [exact Hv'|].
    split; [exact Hdp'|]. exact Hs'. }
  split; [exact HApp|].
  destruct HApp as (L0 & v & v' & d & d' & H1 & H2 & H3 & H4 & H5 & H6 & H7
                    & H8 & H9 & H10 & H11).
  exists L0, v, v', d, d'.
  rewrite !LineChartTsx_stateAfter_eq, LineChartTsx_generateData_eq.
  unfold LineChartTsx.applyTrend, LineChartTsx.perturbed.
  split; [exact H1|]. split; [exact H2|]. split; [exact H3|].
  split; [exact H4|]. split; [exact H5|]. split; [exact H6|].
  split; [exact H7|]. split; [exact H8|]. split; [exact H9|].
  split; [exact H10|]. exact H11.
Qed.

(** The first airline of the real catalog in the eighth month: the
    stored value, its rounding in the sample and the next month. *)
Lemma sample_is_rounded_last_value_witness :
  ("__proto__"%string ∉ code <$> generateAirlines) /\
  NoDup (code <$> generateAirlines) /\
  generateAirlines !! 0%nat = Some airlineLX /\ (8 < 180)%nat /\
  exists L v v' dp dp',
    lastValues (AppTsx.stateAfter jumpRandom generateAirlines 7) !! code airlineLX
      = Some L /\
    v = AppTsx.applyTrend (group airlineLX) (monthAt 7).1 (monthAt 7).2
          (AppTsx.perturbed L (jumpRandom (12 + 7 * 12 + 0)%nat)) /\
    lastValues (AppTsx.stateAfter jumpRandom generateAirlines 8) !! code airlineLX
      = Some v /\
    AppTsx.generateData jumpRandom generateAirlines !! 7%nat = Some dp /\
    dp !! code airlineLX = Some (Math_round v) /\
    v - num 0.5 < Math_round v /\ Math_round v <= v + num 0.5 /\
    v' = AppTsx.applyTrend (group airlineLX) (monthAt 8).1 (monthAt 8).2
           (AppTsx.perturbed v (jumpRandom (12 + 8 * 12 + 0)%nat)) /\
    lastValues (AppTsx.stateAfter jumpRandom generateAirlines 9) !! code airlineLX
      = Some v' /\
    AppTsx.generateData jumpRandom generateAirlines !! 8%nat = Some dp' /\
    dp' !! code airlineLX = Some (Math_round v').
Proof.
  assert (generateAirlines !! 0%nat = Some airlineLX) as Hj by reflexivity.
  assert (8 < 180)%nat as Ht by lia.
  split; [exact generateAirlines_ordinary|].
  split; [exact generateAirlines_NoDup|]. split; [exact Hj|]. split; [exact Ht|].
  exact (proj1 (sample_is_rounded_last_value jumpRandom generateAirlines 7 0 airlineLX
                  generateAirlines_ordinary generateAirlines_NoDup Hj Ht)).
Defined.

(** C10 (the two generators).  [generateData] of [src/App.tsx] and
    [generateData] of [src/components/LineChart.tsx] return the same
    matrix for every catalog and every sequence of random draws: same
    length, same ["year"] entries, same values. *)
Theorem generators_agree (rnd : nat -> Qc) (airlines : list Airline) :
  LineChartTsx.generateData rnd airlines = AppTsx.generateData rnd airlines.
Proof.
  unfold LineChartTsx.generateData, LineChartTsx.generateRun,
    AppTsx.generateData, AppTsx.generateRun.
  by rewrite LineChartTsx_monthStep_eq, LineChartTsx_initState_eq.
Qed.

(** C9, as stated, fails: [generateData] has no parameter for the range
    of years, it always covers 2010..2024.  With two operating and two
    discontinued airlines and every draw equal to 0.5 the matrix has 180
    samples, not 12, and they are not all equal: "CX" starts at 1750 and
    is at 1745 in January 2016 (sample 72), when the first decay
    multiplier comes into force.  Both files. *)
Lemma first_year_is_not_the_whole_matrix :
  length (AppTsx.generateData (constantRandom (num 0.5)) twoPlusTwo) = 180%nat /\
  (AppTsx.generateData (constantRandom (num 0.5)) twoPlusTwo !! 0%nat)
    ≫= (fun dp => dp !! "CX"%string) = Some (num 1750) /\
  (AppTsx.generateData (constantRandom (num 0.5)) twoPlusTwo !! 72%nat)
    ≫= (fun dp => dp !! "CX"%string) = Some (num 1745) /\
  length (LineChartTsx.generateData (constantRandom (num 0.5)) twoPlusTwo) = 180%nat /\
  (LineChartTsx.generateData (constantRandom (num 0.5)) twoPlusTwo !! 72%nat)
    ≫= (fun dp => dp !! "CX"%string) = Some (num 1745) /\
  num 1750 <> num 1745.
Proof.
  assert (forall t v, (t < 180)%nat ->
            this <$> ((AppTsx.stateBefore (constantRandom (num 0.5)) twoPlusTwo t
                         (length twoPlusTwo)).2 !! "CX"%string) = Some (this v) ->
            (AppTsx.generateData (constantRandom (num 0.5)) twoPlusTwo !! t)
              ≫= (fun dp => dp !! "CX"%string) = Some v) as Hat.
  { intros t v Ht Hv. rewrite generateData_lookup by done. by apply option_Qc_eq. }
  assert ((AppTsx.generateData (constantRandom (num 0.5)) twoPlusTwo !! 72%nat)
            ≫= (fun dp => dp !! "CX"%string) = Some (num 1745)) as H72
    by (apply Hat; [lia | by vm_compute]).
  split; [apply generateData_length|].
  split; [apply Hat; [lia | by vm_compute]|].
  split; [exact H72|].
  split; [rewrite LineChartTsx_generateData_eq; apply generateData_length|].
  split; [by rewrite LineChartTsx_generateData_eq|].
  intros [=].
Qed.

(** C9, amended.  The generator draws from [Math.random()] itself (here
    the stream [rnd]) and always produces 180 samples.  When every draw
    is 0.5 and the codes of the catalog are distinct, each airline starts
    at a value [v0] whose rounding is 3000 ([operating]) or 1750
    ([discontinued]), and its first 12 samples, those of 2010, are all
    equal to that rounded value.  Both files. *)
Theorem constant_source_first_year (airlines : list Airline) (a : Airline) :
  NoDup (code <$> airlines) -> a ∈ airlines ->
  (exists v0,
      (AppTsx.initLastValues (constantRandom (num 0.5)) airlines).1 !! code a = Some v0 /\
      Math_round v0 = match group a with
                      | operating => num 3000
                      | discontinued => num 1750
                      end /\
      length (AppTsx.generateData (constantRandom (num 0.5)) airlines) = 180%nat /\
      forall t, (t < 12)%nat ->
        exists dp,
          AppTsx.generateData (constantRandom (num 0.5)) airlines !! t = Some dp /\
          dp !! code a = Some (Math_round v0)) /\
  (exists v0,
      (LineChartTsx.initLastValues (constantRandom (num 0.5)) airlines).1 !! code a = Some v0 /\
      Math_round v0 = match group a with
                      | operating => num 3000
                      | discontinued => num 1750
                      end /\
      length (LineChartTsx.generateData (constantRandom (num 0.5)) airlines) = 180%nat /\
      forall t, (t < 12)%nat ->
        exists dp,
          LineChartTsx.generateData (constantRandom (num 0.5)) airlines !! t = Some dp /\
          dp !! code a = Some (Math_round v0)).
Proof.
  intros Hnd Ha.
  split; exists (startValue (group a) (num 0.5)).
  - split; [by apply init_steady|].
    split; [apply startValue_rounded|].
    split; [apply generateData_length|].
    intros t Ht. by apply first_year_sample.
  - rewrite LineChartTsx_initLastValues_eq.
    split; [by apply init_steady|].
    split; [apply startValue_rounded|].
    rewrite LineChartTsx_generateData_eq.
    split; [apply generateData_length|].
    intros t Ht. by apply first_year_sample.
Qed.

(** The scenario of the claim: two operating and two discontinued
    airlines; the first 12 samples of "CX" are 1750. *)
Lemma constant_source_first_year_witness :
  NoDup (code <$> twoPlusTwo) /\ airlineCX ∈ twoPlusTwo /\
  exists v0,
    (AppTsx.initLastValues (constantRandom (num 0.5)) twoPlusTwo).1 !! code airlineCX
      = Some v0 /\
    Math_round v0 = num 1750 /\
    length (AppTsx.generateData (constantRandom (num 0.5)) twoPlusTwo) = 180%nat /\
    forall t, (t < 12)%nat ->
      exists dp,
        AppTsx.generateData (constantRandom (num 0.5)) twoPlusTwo !! t = Some dp /\
        dp !! code airlineCX = Some (Math_round v0).
Proof.
  assert (NoDup (code <$> twoPlusTwo)) as Hnd.
  { apply (bool_decide_unpack _). vm_compute. exact I. }
  assert (airlineCX ∈ twoPlusTwo) as Ha.
  { apply list_elem_of_In. simpl. right. right. by left. }
  split; [exact Hnd|]. split; [exact Ha|].
  exact (proj1 (constant_source_first_year twoPlusTwo airlineCX Hnd Ha)).
Defined.

End GeneratorClaims.

(** * The claims about the interaction state *)

Section InteractionClaims.

(** C4 (visibility).  In every state of the component, reachable or
    not, an airline is visible exactly when its group is not in
    [hiddenGroups] and its code is not in [hiddenItems]; [toggleGroup]
    leaves [hiddenItems] as it is; and when the group "discontinued" is
    hidden and a discontinued airline that was hidden on its own is then
    un-hidden on its own, the airline is no longer in [hiddenItems] and
    still invisible. *)
Theorem visibility_needs_group_and_item (st : AppTsx.ChartState) (a : Airline) :
  (AppTsx.isItemVisible st a = true <->
   (group a ∉ AppTsx.hiddenGroups st) /\ (code a ∉ AppTsx.hiddenItems st)) /\
  (forall g, AppTsx.hiddenItems (AppTsx.toggleGroup g st) = AppTsx.hiddenItems st) /\
  (group a = discontinued ->
   discontinued ∉ AppTsx.hiddenGroups st ->
   code a ∈ AppTsx.hiddenItems st ->
   (code a ∉ AppTsx.hiddenItems
               (AppTsx.toggleItem (code a) (AppTsx.toggleGroup discontinued st))) /\
   AppTsx.isItemVisible
     (AppTsx.toggleItem (code a) (AppTsx.toggleGroup discontinued st)) a = false).
Proof.
  split; [apply isItemVisible_iff|]. split; [done|].
  intros Hg Hvis Hhid. split.
  - unfold AppTsx.toggleItem, AppTsx.toggleGroup. cbn.
    rewrite decide_True by done.
    intros [_ Hne]%elem_of_difference. apply Hne. by apply elem_of_singleton.
  - apply isItemVisible_hidden_group. rewrite Hg.
    unfold AppTsx.toggleItem, AppTsx.toggleGroup. cbn.
    rewrite decide_False by done.
    apply elem_of_union. right. by apply elem_of_singleton.
Qed.

(** "CX" hidden on its own, then the group hidden, then "CX" un-hidden. *)
Lemma visibility_needs_group_and_item_witness :
  group airlineCX = discontinued /\
  (discontinued ∉ AppTsx.hiddenGroups (AppTsx.toggleItem "CX" AppTsx.initialState)) /\
  (code airlineCX ∈ AppTsx.hiddenItems (AppTsx.toggleItem "CX" AppTsx.initialState)) /\
  AppTsx.isItemVisible
    (AppTsx.toggleItem (code airlineCX)
       (AppTsx.toggleGroup discontinued
          (AppTsx.toggleItem "CX" AppTsx.initialState))) airlineCX = false.
Proof.
  assert (discontinued ∉ AppTsx.hiddenGroups (AppTsx.toggleItem "CX" AppTsx.initialState))
    as Hg by (cbn; apply not_elem_of_empty).
  assert (code airlineCX ∈ AppTsx.hiddenItems (AppTsx.toggleItem "CX" AppTsx.initialState))
    as Hi.
  { unfold AppTsx.toggleItem. cbn.
    rewrite decide_False by apply not_elem_of_empty.
    apply elem_of_union. right. by apply elem_of_singleton. }
  split; [reflexivity|]. split; [exact Hg|]. split; [exact Hi|].
  exact (proj2 (proj2 (proj2 (visibility_needs_group_and_item
                                (AppTsx.toggleItem "CX" AppTsx.initialState) airlineCX))
                  eq_refl Hg Hi)).
Defined.

(** C5 (tooltip in single-airline mode).  Take a state of the component
    of [src/App.tsx] whose hovered code, if any, is a non-empty code of
    the catalog and whose active index, if any, is inside the matrix,
    and a state of the component of [src/components/LineChart.tsx] with
    the same hovered code and active index.  Then [CustomTooltip] returns
    [null] exactly when no airline is hovered or there is no active
    index; otherwise it shows the hovered airline, [dataPoint.year] and
    [dataPoint[hoveredItem]] of the sample at the active index, with 0
    in place of a value that is [undefined]; and both files render the
    same. *)
Theorem single_mode_tooltip
    (airlines : list Airline) (data : list (gmap string Qc))
    (stA : AppTsx.ChartState) (stL : LineChartTsx.ChartState) :
  LineChartTsx.hoveredItem stL = AppTsx.hoveredItem stA ->
  LineChartTsx.activeIndex stL = AppTsx.activeIndex stA ->
  (forall h, AppTsx.hoveredItem stA = Some h ->
             h <> ""%string /\ h ∈ code <$> airlines) ->
  (forall i, AppTsx.activeIndex stA = Some i ->
             0 <= i < Z.of_nat (length data)) ->
  (AppTsx.CustomTooltip true airlines data stA = None <->
   AppTsx.hoveredItem stA = None \/ AppTsx.activeIndex stA = None) /\
  (forall h i,
      AppTsx.hoveredItem stA = Some h -> AppTsx.activeIndex stA = Some i ->
      exists airline dataPoint,
        airline ∈ airlines /\ code airline = h /\
        data !! Z.to_nat i = Some dataPoint /\
        AppTsx.CustomTooltip true airlines data stA =
        Some (SingleTooltip airline (dataPoint !! "year"%string)
                (match dataPoint !! h with
                 | Some value => value
                 | None => num 0
                 end))) /\
  LineChartTsx.CustomTooltip true airlines data stL =
  AppTsx.CustomTooltip true airlines data stA.
Proof.
  intros H3 H4 Hhov Hact.
  assert (forall h i,
      AppTsx.hoveredItem stA = Some h -> AppTsx.activeIndex stA = Some i ->
      exists airline dataPoint,
        airline ∈ airlines /\ code airline = h /\
        data !! Z.to_nat i = Some dataPoint /\
        AppTsx.CustomTooltip true airlines data stA =
        Some (SingleTooltip airline (dataPoint !! "year"%string)
                (match dataPoint !! h with
                 | Some value => value
                 | None => num 0
                 end))) as Hsome.
  { intros h i Hh Hi. destruct (Hhov h Hh) as [Hne Hin].
    by apply single_tooltip_App; [..|apply Hact]. }
  split; [|split; [exact Hsome | by apply LineChartTsx_CustomTooltip_single_eq]].
  split.
  - intros Hnone.
    destruct (AppTsx.hoveredItem stA) as [h|] eqn:Hh; [|by left].
    destruct (AppTsx.activeIndex stA) as [i|] eqn:Hi; [|by right].
    destruct (Hsome h i eq_refl eq_refl) as (a & dp & _ & _ & _ & Htt).
    congruence.
  - unfold AppTsx.CustomTooltip. intros [Hh|Hi].
    + rewrite Hh. destruct (AppTsx.activeIndex stA) as [i|]; [|done].
      by destruct (array_get data i).
    + by rewrite Hi.
Qed.

(** The scenario of the specification: "LX" hovered, active index 5, on
    a matrix of six samples in which only the last has a value for
    "LX". *)
Lemma single_mode_tooltip_witness :
  (forall h,
      AppTsx.hoveredItem
        (AppTsx.setActiveIndex (Some 5)
           (AppTsx.setHoveredItem (Some "LX"%string) AppTsx.initialState)) = Some h ->
      h <> ""%string /\ h ∈ code <$> generateAirlines) /\
  (forall i,
      AppTsx.activeIndex
        (AppTsx.setActiveIndex (Some 5)
           (AppTsx.setHoveredItem (Some "LX"%string) AppTsx.initialState)) = Some i ->
      0 <= i < Z.of_nat (length
                 (replicate 5 (AppTsx.newDataPoint 2010 1)
                  ++ [<["LX"%string := num 3000]> (AppTsx.newDataPoint 2010 6)]))) /\
  exists airline dataPoint,
    airline ∈ generateAirlines /\ code airline = "LX"%string /\
    (replicate 5 (AppTsx.newDataPoint 2010 1)
     ++ [<["LX"%string := num 3000]> (AppTsx.newDataPoint 2010 6)])
      !! Z.to_nat 5 = Some dataPoint /\
    AppTsx.CustomTooltip true generateAirlines
      (replicate 5 (AppTsx.newDataPoint 2010 1)
       ++ [<["LX"%string := num 3000]> (AppTsx.newDataPoint 2010 6)])
      (AppTsx.setActiveIndex (Some 5)
         (AppTsx.setHoveredItem (Some "LX"%string) AppTsx.initialState))
    = Some (SingleTooltip airline (dataPoint !! "year"%string)
              (match dataPoint !! "LX"%string with
               | Some value => value
               | None => num 0
               end)).
Proof.
  assert (forall h,
      AppTsx.hoveredItem
        (AppTsx.setActiveIndex (Some 5)
           (AppTsx.setHoveredItem (Some "LX"%string) AppTsx.initialState)) = Some h ->
      h <> ""%string /\ h ∈ code <$> generateAirlines) as Hhov.
  { intros h [= <-]. split; [discriminate|].
    apply list_elem_of_In. simpl. by left. }
  assert (forall i,
      AppTsx.activeIndex
        (AppTsx.setActiveIndex (Some 5)
           (AppTsx.setHoveredItem (Some "LX"%string) AppTsx.initialState)) = Some i ->
      0 <= i < Z.of_nat (length
                 (replicate 5 (AppTsx.newDataPoint 2010 1)
                  ++ [<["LX"%string := num 3000]> (AppTsx.newDataPoint 2010 6)]))) as Hact.
  { intros i [= <-]. simpl. lia. }
  split; [exact Hhov|]. split; [exact Hact|].
  exact (proj1 (proj2 (single_mode_tooltip generateAirlines
    (replicate 5 (AppTsx.newDataPoint 2010 1)
     ++ [<["LX"%string := num 3000]> (AppTsx.newDataPoint 2010 6)])
    (AppTsx.setActiveIndex (Some 5)
       (AppTsx.setHoveredItem (Some "LX"%string) AppTsx.initialState))
    (LineChartTsx.setActiveIndex (Some 5)
       (LineChartTsx.setHoveredItem (Some "LX"%string) LineChartTsx.initialState))
    eq_refl eq_refl Hhov Hact)) "LX"%string 5 eq_refl eq_refl).
Defined.

(** C6 (z-order).  For a catalog with distinct codes and any hover
    state, the list in which the lines are rendered is the non-hovered
    airlines in catalog order followed by the hovered one, so the hovered
    airline, if it is in the catalog, is the last entry; every
    rearrangement of the catalog that is sorted for the comparator and
    keeps the non-hovered airlines in catalog order is that list, so the
    result does not depend on the sorting algorithm of the engine; both
    files sort alike; and with "BA" hovered the last entry of the real
    catalog's list is "BA". *)
Theorem hovered_series_is_rendered_last
    (airlines : list Airline) (hoveredItem : option string) :
  NoDup (code <$> airlines) ->
  AppTsx.sortedAirlines airlines hoveredItem =
    filter (fun a => Some (code a) <> hoveredItem) airlines ++
    filter (fun a => Some (code a) = hoveredItem) airlines /\
  (forall a, a ∈ airlines -> Some (code a) = hoveredItem ->
             last (AppTsx.sortedAirlines airlines hoveredItem) = Some a) /\
  (forall l,
      l ≡ₚ airlines ->
      (forall i j a b, (i < j)%nat -> l !! i = Some a -> l !! j = Some b ->
                       AppTsx.hoverCompare hoveredItem a b <= 0) ->
      filter (fun a => Some (code a) <> hoveredItem) l
      = filter (fun a => Some (code a) <> hoveredItem) airlines ->
      l = AppTsx.sortedAirlines airlines hoveredItem) /\
  LineChartTsx.sortedAirlines airlines hoveredItem =
    AppTsx.sortedAirlines airlines hoveredItem /\
  last (AppTsx.sortedAirlines generateAirlines (Some "BA"%string)) = Some airlineBA /\
  last (LineChartTsx.sortedAirlines generateAirlines (Some "BA"%string)) = Some airlineBA.
Proof.
  intros Hnd.
  split; [by apply sortedAirlines_spec|].
  split; [intros a Ha Hh; by apply sortedAirlines_last|].
  split.
  { intros l Hperm Hsorted Hstable. rewrite sortedAirlines_spec by done.
    by apply stable_sort_unique. }
  split; [apply LineChartTsx_sortedAirlines_eq|].
  split; reflexivity.
Qed.

(** Hovering "LX" in a catalog of four moves it from first to last. *)
Lemma hovered_series_is_rendered_last_witness :
  NoDup (code <$> twoPlusTwo) /\
  AppTsx.sortedAirlines twoPlusTwo (Some "LX"%string)
  = [airlineBA; airlineCX; airlineLZ; airlineLX].
Proof.
  assert (NoDup (code <$> twoPlusTwo)) as Hnd.
  { apply (bool_decide_unpack _). vm_compute. exact I. }
  split; [exact Hnd|].
  rewrite (proj1 (hovered_series_is_rendered_last twoPlusTwo (Some "LX"%string) Hnd)).
  reflexivity.
Defined.

(** C7 (mode switch).  Let [w] be a state of the mounted chart of
    [src/App.tsx] reached by any sequence of events, and [w'] the same
    state under another value of the mode flag.  Switching the mode
    changes neither the component state (the two hidden sets, the
    hovered code, the active index) nor the memoised catalog and matrix;
    every event leads from [w] and from [w'] to the same component state
    and the same matrix, so no handler depends on the flag; and the
    matrix is the one generated at mount, whatever the flag was then. *)
Theorem mode_switch_frame (rnd : nat -> Qc) (now : Z) (w w' : AppTsx.World) :
  AppTsx.reachable rnd w ->
  AppTsx.chart w' = AppTsx.chart w ->
  AppTsx.memoData w' = AppTsx.memoData w ->
  AppTsx.memoAirlines w' = AppTsx.memoAirlines w ->
  (forall checked,
      AppTsx.singleAirlineMode (AppTsx.step now (ModeChange checked) w) = checked /\
      AppTsx.chart (AppTsx.step now (ModeChange checked) w) = AppTsx.chart w /\
      AppTsx.memoData (AppTsx.step now (ModeChange checked) w) = AppTsx.memoData w /\
      AppTsx.memoAirlines (AppTsx.step now (ModeChange checked) w) = AppTsx.memoAirlines w) /\
  (forall e,
      AppTsx.chart (AppTsx.step now e w') = AppTsx.chart (AppTsx.step now e w) /\
      AppTsx.memoData (AppTsx.step now e w') = AppTsx.memoData (AppTsx.step now e w)) /\
  AppTsx.memoData w = AppTsx.generateData rnd generateAirlines /\
  (forall mode, AppTsx.memoData (AppTsx.mount rnd mode)
                = AppTsx.generateData rnd generateAirlines).
Proof.
  intros Hreach Hc Hd Ha.
  split; [done|].
  split; [intros e; destruct (App_step_frame now e w' w Hc Hd Ha) as (?&?&?); done|].
  split; [by apply App_reachable_memo | done].
Qed.

(** A chart mounted in single-airline mode with "LX" hovered, and the
    same chart in classic mode. *)
Lemma mode_switch_frame_witness :
  AppTsx.reachable jumpRandom
    (AppTsx.step 1000 (ItemMouseEnter "LX") (AppTsx.mount jumpRandom true)) /\
  AppTsx.chart
    (AppTsx.step 1200 (GroupHeaderClick operating)
       (AppTsx.step 1100 (ModeChange false)
          (AppTsx.step 1000 (ItemMouseEnter "LX") (AppTsx.mount jumpRandom true))))
  = AppTsx.chart
      (AppTsx.step 1200 (GroupHeaderClick operating)
         (AppTsx.step 1000 (ItemMouseEnter "LX") (AppTsx.mount jumpRandom true))).
Proof.
  assert (AppTsx.reachable jumpRandom
            (AppTsx.step 1000 (ItemMouseEnter "LX") (AppTsx.mount jumpRandom true)))
    as Hreach by (apply AppTsx.reachable_step, AppTsx.reachable_mount).
  split; [exact Hreach|].
  pose proof (App_step_memo 1100 (ModeChange false)
                (AppTsx.step 1000 (ItemMouseEnter "LX") (AppTsx.mount jumpRandom true)))
    as [Hd Ha].
  assert (AppTsx.chart
            (AppTsx.step 1100 (ModeChange false)
               (AppTsx.step 1000 (ItemMouseEnter "LX") (AppTsx.mount jumpRandom true)))
          = AppTsx.chart
              (AppTsx.step 1000 (ItemMouseEnter "LX") (AppTsx.mount jumpRandom true)))
    as Hc by reflexivity.
  pose proof (mode_switch_frame jumpRandom 1200
                (AppTsx.step 1000 (ItemMouseEnter "LX") (AppTsx.mount jumpRandom true))
                (AppTsx.step 1100 (ModeChange false)
                   (AppTsx.step 1000 (ItemMouseEnter "LX") (AppTsx.mount jumpRandom true)))
                Hreach Hc Hd Ha) as (_ & Hframe & _).
  exact (proj1 (Hframe (GroupHeaderClick operating))).
Defined.

(** C8, as stated, fails for [src/components/LineChart.tsx]: its
    [handleMouseMove] reads no clock.  Two moves one millisecond apart
    both set the active index. *)
Lemma LineChartTsx_moves_are_not_throttled :
  LineChartTsx.activeIndex
    (LineChartTsx.chart
       (LineChartTsx.step 1000 (ChartMouseMove (moveOver 3))
          (LineChartTsx.mount (constantRandom (num 0.5)) true)))
  = Some 3 /\
  LineChartTsx.activeIndex
    (LineChartTsx.chart
       (LineChartTsx.step 1001 (ChartMouseMove (moveOver 7))
          (LineChartTsx.step 1000 (ChartMouseMove (moveOver 3))
             (LineChartTsx.mount (constantRandom (num 0.5)) true))))
  = Some 7.
Proof. split; reflexivity. Qed.

(** C8, amended.  In [src/App.tsx] a pointer move that arrives less than
    16 ms after the last move that passed the throttle
    ([lastUpdateRef]) is dropped: the state is unchanged and nothing is
    kept for later.  A move that arrives 16 ms or more after it sets
    [lastUpdateRef] to the current time, leaves the hidden sets and the
    hovered code alone, sets the active index to the reported
    [activeTooltipIndex] if there is one, and leaves the active index
    alone otherwise; so a move that follows it by less than 16 ms
    changes nothing.  In [src/components/LineChart.tsx] every move that
    reports an index sets the active index. *)
Theorem pointer_moves_are_throttled_in_App
    (now now2 : Z) (state state2 : option MouseState) (index : option Z)
    (st : AppTsx.ChartState) (stL : LineChartTsx.ChartState) :
  (now - AppTsx.lastUpdateRef st < 16 ->
   AppTsx.handleMouseMove now state st = st) /\
  (16 <= now - AppTsx.lastUpdateRef st ->
   AppTsx.lastUpdateRef (AppTsx.handleMouseMove now state st) = now /\
   AppTsx.hiddenItems (AppTsx.handleMouseMove now state st) = AppTsx.hiddenItems st /\
   AppTsx.hiddenGroups (AppTsx.handleMouseMove now state st) = AppTsx.hiddenGroups st /\
   AppTsx.hoveredItem (AppTsx.handleMouseMove now state st) = AppTsx.hoveredItem st /\
   (state = Some {| activeTooltipIndex := Some index |} ->
    AppTsx.activeIndex (AppTsx.handleMouseMove now state st) = index) /\
   (state = None \/ state = Some {| activeTooltipIndex := None |} ->
    AppTsx.activeIndex (AppTsx.handleMouseMove now state st) = AppTsx.activeIndex st) /\
   (now2 - now < 16 ->
    AppTsx.handleMouseMove now2 state2 (AppTsx.handleMouseMove now state st)
    = AppTsx.handleMouseMove now state st)) /\
  LineChartTsx.activeIndex
    (LineChartTsx.handleMouseMove (Some {| activeTooltipIndex := Some index |}) stL)
  = index.
Proof.
  split; [apply handleMouseMove_dropped|]. split; [|done].
  intros Hge.
  destruct (handleMouseMove_accepted now state st Hge) as (H1 & H2 & H3 & H4 & H5).
  repeat split; try done.
  - intros ->. by rewrite H5.
  - intros [->| ->]; by rewrite H5.
  - intros Hlt. by apply handleMouseMove_min_interval.
Qed.

(** After a move accepted at time 1000, a move at 1005 is dropped and a
    move at 1016 is applied. *)
Lemma pointer_moves_are_throttled_in_App_witness :
  1005 - AppTsx.lastUpdateRef
           (AppTsx.handleMouseMove 1000 (moveOver 3) AppTsx.initialState) < 16 /\
  AppTsx.handleMouseMove 1005 (moveOver 7)
    (AppTsx.handleMouseMove 1000 (moveOver 3) AppTsx.initialState)
  = AppTsx.handleMouseMove 1000 (moveOver 3) AppTsx.initialState /\
  16 <= 1016 - AppTsx.lastUpdateRef
                 (AppTsx.handleMouseMove 1000 (moveOver 3) AppTsx.initialState) /\
  AppTsx.activeIndex
    (AppTsx.handleMouseMove 1016 (moveOver 7)
       (AppTsx.handleMouseMove 1000 (moveOver 3) AppTsx.initialState))
  = Some 7.
Proof.
  assert (1005 - AppTsx.lastUpdateRef
                   (AppTsx.handleMouseMove 1000 (moveOver 3) AppTsx.initialState) < 16)
    as Hlt by (vm_compute; reflexivity).
  assert (16 <= 1016 - AppTsx.lastUpdateRef
                         (AppTsx.handleMouseMove 1000 (moveOver 3) AppTsx.initialState))
    as Hge by (vm_compute; discriminate).
  pose proof (pointer_moves_are_throttled_in_App 1005 1005 (moveOver 7) None (Some 7)
                (AppTsx.handleMouseMove 1000 (moveOver 3) AppTsx.initialState)
                LineChartTsx.initialState) as [Hdrop _].
  pose proof (pointer_moves_are_throttled_in_App 1016 1016 (moveOver 7) None (Some 7)
                (AppTsx.handleMouseMove 1000 (moveOver 3) AppTsx.initialState)
                LineChartTsx.initialState) as [_ [Hacc _]].
  split; [exact Hlt|]. split; [exact (Hdrop Hlt)|]. split; [exact Hge|].
  destruct (Hacc Hge) as (_ & _ & _ & _ & Hidx & _).
  exact (Hidx eq_refl).
Defined.

End InteractionClaims.

(** * Further properties of the generator *)

Section Smooth.
Import AppTsx.
Local Open Scope Qc_scope.

(** Clamping into a range that contains [L] never moves a value away
    from [L]. *)
Lemma clamp_toward lo hi L x c :
  lo <= L -> L <= hi ->
  Qcabs (x - L) <= c -> Qcabs (Math_max lo (Math_min hi x) - L) <= c.
Proof.
  intros Hlo Hhi Hx. apply Qcabs_Qcle_condition in Hx as [Hx1 Hx2].
  apply Qcabs_Qcle_condition.
  unfold Math_max, Math_min.
  destruct (Qclt_le_dec x hi) as [H1|H1];
    [destruct (Qclt_le_dec lo x) as [H2|H2]
    |destruct (Qclt_le_dec lo hi) as [H2|H2]];
    unfold Qcle, Qclt, Qcminus in *;
    repeat (rewrite ?this_add, ?this_opp in * );
    revert Hlo Hhi Hx1 Hx2 H1 H2;
    generalize (this lo), (this hi), (this L), (this x), (this c);
    intros; split; lra.
Qed.

Lemma applyTrend_noMultiplier g year month v :
  noMultiplier g year month = true ->
  applyTrend g year month v
  = Math_max (bandMin g) (Math_min (bandMax g) v).
Proof.
  unfold noMultiplier, applyTrend, bandMin, bandMax.
  destruct g.
  - intros [H1 H2]%andb_true_iff.
    apply negb_true_iff in H1, H2. by rewrite H1, H2.
  - intros H1%negb_true_iff. rewrite H1.
    assert ((2018 <? year)%Z = false) as ->; [|done].
    apply Z.ltb_ge. apply Z.ltb_ge in H1. lia.
Qed.

Lemma quiet_step_bound g year month L r :
  noMultiplier g year month = true ->
  0 <= r -> r < 1 -> inBand g L ->
  Qcabs (applyTrend g year month (perturbed L r) - L)
    <= num 0.08 * L * (1 + roundingMargin).
Proof.
  intros Hq H0 H1 Hb. rewrite applyTrend_noMultiplier by done.
  apply clamp_toward; [apply Hb..|].
  apply perturbed_bound; [done..|]. by eapply inBand_inSomeBand.
Qed.

Lemma lit_085 : this (lit 0.85) = (7656119366529843 # 9007199254740992)%Q.
Proof. by vm_compute. Qed.

(** In the shock window an operating airline ends the month at the
    floor 800 or at most at 91.8% of where it started, up to the
    rounding of the step and of the product with [0.85]. *)
Lemma shock_step_bound month L r :
  (3 <= month <= 6)%Z -> 0 <= r -> r < 1 -> inBand operating L ->
  applyTrend operating 2020 month (perturbed L r) = num 800 \/
  applyTrend operating 2020 month (perturbed L r)
    <= num 0.918 * L * (1 + roundingMargin).
Proof.
  intros [Hm1 Hm2] H0 H1 HL. unfold applyTrend.
  rewrite (proj2 (Z.leb_le 3 month) Hm1), (proj2 (Z.leb_le month 6) Hm2).
  cbn [Z.eqb Pos.eqb andb orb].
  set (x := fmul (perturbed L r) (lit 0.85)).
  assert (x <= num 0.918 * L * (1 + roundingMargin)) as Hx.
  { pose proof (perturbed_bound L r H0 H1 (inBand_inSomeBand _ _ HL)) as Hp.
    apply Qcabs_Qcle_condition in Hp. destruct HL as [HL0 HL1].
    unfold x, fmul, roundingMargin, bandMin, bandMax, Qcle, Qclt in *.
    near_by binary64_near (perturbed L r * lit 0.85) 13%Z Hx.
    repeat (rewrite ?this_opp, ?this_minus, ?this_add, ?this_mul, ?this_num, ?lit_085 in * ).
    change (this 1) with 1%Q in *.
    revert Hx Hp. generalize (this (binary64 (perturbed L r * lit 0.85))).
    generalize (this (perturbed L r)). revert HL0 HL1. generalize (this L).
    intros L' HL0 HL1 n' x' Hx Hp.
    assert (- (1 # 1099511627776) <= x' - n' * (7656119366529843 # 9007199254740992)
            <= 1 # 1099511627776)%Q as Hx' by (apply Hx; split; lra).
    lra. }
  unfold Math_max, Math_min.
  destruct (Qclt_le_dec x (num 5500)) as [H2|H2].
  - destruct (Qclt_le_dec (num 800) x); [by right | by left].
  - right. eapply Qcle_trans; [exact H2 | exact Hx].
Qed.
End Smooth.

Section SeriesResults.
Local Open Scope Qc_scope.

(** X1 (the walk of one series).  For a catalog of [n] airlines with
    distinct codes, the airline at position [j] starts from [startValue]
    of its group at draw number [j]; in month [t] its stored last value
    becomes [applyTrend] of the perturbation of the previous one by draw
    number [n + t * n + j]; and one run of the generator makes
    [181 * n] draws, [n] for the initial values and [n] for each of the
    180 months. *)
Theorem series_recurrence
    (rnd : nat -> Qc) (airlines : list Airline) (t j : nat) (a : Airline) :
  NoDup (code <$> airlines) -> airlines !! j = Some a -> (t < 180)%nat ->
  lastValues (AppTsx.stateAfter rnd airlines 0) !! code a
    = Some (startValue (group a) (rnd j)) /\
  (exists L,
      lastValues (AppTsx.stateAfter rnd airlines t) !! code a = Some L /\
      lastValues (AppTsx.stateAfter rnd airlines (S t)) !! code a
      = Some (AppTsx.applyTrend (group a) (monthAt t).1 (monthAt t).2
                (AppTsx.perturbed L
                   (rnd (length airlines + t * length airlines + j)%nat)))) /\
  calls (AppTsx.generateRun rnd airlines) = (181 * length airlines)%nat.
Proof.
  intros Hnd Hj Ht.
  assert (a ∈ airlines) as Ha by (by eapply list_elem_of_lookup_2).
  split; [rewrite stateAfter_0; by apply initLastValues_lookup|].
  split.
  - destruct (runMonths_defined rnd airlines (take t schedule) a Ha) as [L HL].
    exists L. split; [exact HL|].
    rewrite (stateAfter_step rnd airlines t j a Hnd Hj Ht).
    unfold AppTsx.stateAfter. by rewrite HL.
  - rewrite generateRun_schedule, runMonths_calls, schedule_length. lia.
Qed.

Lemma series_recurrence_witness :
  NoDup (code <$> twoPlusTwo) /\ twoPlusTwo !! 2%nat = Some airlineCX /\ (5 < 180)%nat /\
  lastValues (AppTsx.stateAfter jumpRandom twoPlusTwo 0) !! code airlineCX
    = Some (startValue (group airlineCX) (jumpRandom 2)).
Proof.
  assert (NoDup (code <$> twoPlusTwo)) as Hnd.
  { apply (bool_decide_unpack _). vm_compute. exact I. }
  assert (5 < 180)%nat as Ht by lia.
  split; [exact Hnd|]. split; [reflexivity|]. split; [exact Ht|].
  exact (proj1 (series_recurrence jumpRandom twoPlusTwo 5 2 airlineCX Hnd eq_refl Ht)).
Defined.

(** X2 (months without a multiplier).  With draws in [0,1) and distinct
    codes that are ordinary keys (none is [__proto__]), in a month in which no date test of the airline's group holds
    ([noMultiplier]) the stored last value moves by at most 8 % of its
    previous value, up to the relative rounding margin [2^-40]:
    [|L' - L| <= 0.08 * L * (1 + 2^-40)], both sides taken exactly.  The
    clamp never moves a value away from a value that is already inside
    the band. *)
Theorem quiet_months_are_smooth
    (rnd : nat -> Qc) (airlines : list Airline) (t j : nat) (a : Airline) :
  ("__proto__"%string ∉ code <$> airlines) ->
  (forall n, 0 <= rnd n /\ rnd n < 1) ->
  NoDup (code <$> airlines) -> airlines !! j = Some a -> (t < 180)%nat ->
  noMultiplier (group a) (monthAt t).1 (monthAt t).2 = true ->
  exists L L',
    lastValues (AppTsx.stateAfter rnd airlines t) !! code a = Some L /\
    lastValues (AppTsx.stateAfter rnd airlines (S t)) !! code a = Some L' /\
    Qcabs (L' - L) <= num 0.08 * L * (1 + roundingMargin).
Proof.
  intros _ Hrnd Hnd Hj Ht Hq.
  assert (a ∈ airlines) as Ha by (by eapply list_elem_of_lookup_2).
  destruct (stateAfter_inBand rnd airlines t a Hrnd Hnd Ha) as (L & HL & Hband); [lia|].
  exists L. eexists. split; [exact HL|].
  rewrite (stateAfter_step rnd airlines t j a Hnd Hj Ht), HL. split; [done|].
  apply quiet_step_bound; [done | apply Hrnd | apply Hrnd | done].
Qed.

Lemma quiet_months_are_smooth_witness :
  ("__proto__"%string ∉ code <$> twoPlusTwo) /\
  (forall n, 0 <= jumpRandom n /\ jumpRandom n < 1) /\
  NoDup (code <$> twoPlusTwo) /\ twoPlusTwo !! 0%nat = Some airlineLX /\ (100 < 180)%nat /\
  noMultiplier (group airlineLX) (monthAt 100).1 (monthAt 100).2 = true /\
  exists L L',
    lastValues (AppTsx.stateAfter jumpRandom twoPlusTwo 100) !! code airlineLX = Some L /\
    lastValues (AppTsx.stateAfter jumpRandom twoPlusTwo 101) !! code airlineLX = Some L' /\
    Qcabs (L' - L) <= num 0.08 * L * (1 + roundingMargin).
Proof.
  assert (forall n, 0 <= jumpRandom n /\ jumpRandom n < 1) as Hrnd.
  { intros [|n]; split; by vm_compute. }
  assert (NoDup (code <$> twoPlusTwo)) as Hnd.
  { apply (bool_decide_unpack _). vm_compute. exact I. }
  assert (100 < 180)%nat as Ht by lia.
  split; [exact twoPlusTwo_ordinary|].
  split; [exact Hrnd|]. split; [exact Hnd|]. split; [reflexivity|].
  split; [exact Ht|]. split; [reflexivity|].
  exact (quiet_months_are_smooth jumpRandom twoPlusTwo 100 0 airlineLX
           twoPlusTwo_ordinary Hrnd Hnd eq_refl Ht eq_refl).
Defined.

(** X3 (March to June 2020).  Samples 122 to 125 are the months 3 to 6
    of 2020, the months of the multiplier 0.85.  With draws in [0,1) and
    distinct codes that are ordinary keys, in each of them the stored last value of an
    operating airline ends at the floor 800 or at no more than 91.8 %
    (1.08 * 0.85) of the previous one, up to the relative rounding
    margin [2^-40]: [L' <= 0.918 * L * (1 + 2^-40)], the right-hand side
    taken exactly. *)
Theorem shock_months_lower_operating_series
    (rnd : nat -> Qc) (airlines : list Airline) (t j : nat) (a : Airline) :
  ("__proto__"%string ∉ code <$> airlines) ->
  (forall n, 0 <= rnd n /\ rnd n < 1) ->
  NoDup (code <$> airlines) -> airlines !! j = Some a -> group a = operating ->
  (122 <= t <= 125)%nat ->
  monthAt t = (2020%Z, Z.of_nat t - 119)%Z /\
  exists L L',
    lastValues (AppTsx.stateAfter rnd airlines t) !! code a = Some L /\
    lastValues (AppTsx.stateAfter rnd airlines (S t)) !! code a = Some L' /\
    (L' = num 800 \/ L' <= num 0.918 * L * (1 + roundingMargin)).
Proof.
  intros _ Hrnd Hnd Hj Hg [Ht1 Ht2].
  split.
  { assert (t = 122 \/ t = 123 \/ t = 124 \/ t = 125)%nat as [->|[->|[->| ->]]] by lia;
      reflexivity. }
  assert (a ∈ airlines) as Ha by (by eapply list_elem_of_lookup_2).
  destruct (stateAfter_inBand rnd airlines t a Hrnd Hnd Ha) as (L & HL & Hband); [lia|].
  exists L. eexists. split; [exact HL|].
  rewrite (stateAfter_step rnd airlines t j a Hnd Hj) by lia.
  rewrite HL, Hg. split; [done|]. cbn [default].
  assert (exists m, monthAt t = (2020%Z, m) /\ (3 <= m <= 6)%Z) as (m & -> & Hm).
  { assert (t = 122 \/ t = 123 \/ t = 124 \/ t = 125)%nat as [->|[->|[->| ->]]] by lia;
      eexists; (split; [reflexivity | lia]). }
  apply shock_step_bound; [done | apply Hrnd | apply Hrnd |].
  by rewrite <- Hg.
Qed.

Lemma shock_months_lower_operating_series_witness :
  ("__proto__"%string ∉ code <$> twoPlusTwo) /\
  (forall n, 0 <= jumpRandom n /\ jumpRandom n < 1) /\
  NoDup (code <$> twoPlusTwo) /\ twoPlusTwo !! 0%nat = Some airlineLX /\
  group airlineLX = operating /\ (122 <= 123 <= 125)%nat /\
  monthAt 123 = (2020%Z, Z.of_nat 123 - 119)%Z /\
  exists L L',
    lastValues (AppTsx.stateAfter jumpRandom twoPlusTwo 123) !! code airlineLX = Some L /\
    lastValues (AppTsx.stateAfter jumpRandom twoPlusTwo 124) !! code airlineLX = Some L' /\
    (L' = num 800 \/ L' <= num 0.918 * L * (1 + roundingMargin)).
Proof.
  assert (forall n, 0 <= jumpRandom n /\ jumpRandom n < 1) as Hrnd.
  { intros [|n]; split; by vm_compute. }
  assert (NoDup (code <$> twoPlusTwo)) as Hnd.
  { apply (bool_decide_unpack _). vm_compute. exact I. }
  assert (122 <= 123 <= 125)%nat as Ht by lia.
  split; [exact twoPlusTwo_ordinary|].
  split; [exact Hrnd|]. split; [exact Hnd|]. split; [reflexivity|].
  split; [reflexivity|]. split; [exact Ht|].
  exact (shock_months_lower_operating_series jumpRandom twoPlusTwo 123 0 airlineLX
           twoPlusTwo_ordinary Hrnd Hnd eq_refl eq_refl Ht).
Defined.
End SeriesResults.

Section Samples.
Import AppTsx.
Local Open Scope Qc_scope.
Context (rnd : nat -> Qc).

(** Whatever the catalog, what one pass writes for a code of the catalog
    is the rounding of a clamp result. *)
Lemma airlines_loop_rounded year month l lv k dp a :
  a ∈ l ->
  exists v g,
    (fold_left (airlineStep rnd year month) l (lv, k, dp)).2 !! code a
      = Some (Math_round v) /\ inBand g v.
Proof.
  revert a.
  apply (fold_left_snoc_ind _ (fun pre acc => forall a, a ∈ pre ->
    exists v g, acc.2 !! code a = Some (Math_round v) /\ inBand g v)).
  - intros a Ha. by apply elem_of_nil in Ha.
  - intros pre x [[lv' k'] dp'] IH a Ha. cbn [airlineStep fst snd].
    destruct (decide (code x = code a)) as [Heq|Hne].
    + rewrite Heq, lookup_insert_eq. eexists _, (group x). split; [done|].
      apply applyTrend_inBand.
    + rewrite lookup_insert_ne by done. apply IH.
      apply elem_of_app in Ha as [Ha|Ha]; [done|].
      apply list_elem_of_singleton in Ha. by subst.
Qed.

Lemma airlines_loop_dom year month l lv k dp :
  dom (fold_left (airlineStep rnd year month) l (lv, k, dp)).2
  = dom dp ∪ list_to_set (code <$> l).
Proof.
  apply (fold_left_snoc_ind _ (fun pre acc =>
    dom acc.2 = dom dp ∪ list_to_set (code <$> pre))).
  - simpl. set_solver.
  - intros pre x [[lv' k'] dp'] IH. cbn [airlineStep fst snd] in *.
    rewrite dom_insert_L, IH, fmap_app, list_to_set_app_L. simpl. set_solver.
Qed.

Lemma Math_round_integer v g :
  inBand g v ->
  exists z : Z, Math_round v = Qc_of_Z z /\ (100 <= z <= 5500)%Z.
Proof.
  intros Hband. exists (Qfloor (v + num 0.5)%Qc). split; [done|].
  apply Math_round_inBand in Hband as [Hlo Hhi].
  unfold Math_round in Hlo, Hhi.
  destruct (band_int g) as (lo & hi & Elo & Ehi).
  rewrite Elo in Hlo. rewrite Ehi in Hhi.
  unfold Qcle in Hlo, Hhi. cbn [this Qc_of_Z] in Hlo, Hhi.
  rewrite <- Zle_Qle in Hlo, Hhi.
  assert (100 <= lo /\ hi <= 5500)%Z as [??]; [|lia].
  destruct g; unfold bandMin, bandMax in Elo, Ehi;
    apply (f_equal this) in Elo, Ehi; vm_compute in Elo, Ehi;
    injection Elo as <-; injection Ehi as <-; lia.
Qed.
End Samples.

Section TimeAxis.
Import AppTsx.
Local Open Scope Qc_scope.

Lemma this_div (x y : Qc) : (this (x / y) == this x / this y)%Q.
Proof. unfold Qcdiv, Qdiv. by rewrite this_mul, this_inv. Qed.

(** The "year" entries of the 180 months, checked one by one: each is
    within [2^-40] of [2010 + t / 12] and its floor is the calendar
    year. *)
Lemma sample_time_near t :
  (t < 180)%nat ->
  Qcabs (yearDecimalOf (monthAt t).1 (monthAt t).2
         - (num 2010 + Qc_of_Z (Z.of_nat t) / num 12)) <= roundingMargin /\
  Qfloor (yearDecimalOf (monthAt t).1 (monthAt t).2) = (2010 + Z.of_nat (t / 12))%Z.
Proof.
  intros Ht.
  assert (forallb
            (fun t =>
               Qle_bool
                 (Qabs (yearDecimalOf (monthAt t).1 (monthAt t).2
                        - (2010 + inject_Z (Z.of_nat t) / 12)))
                 (1 # 1099511627776)
               && (Qfloor (yearDecimalOf (monthAt t).1 (monthAt t).2)
                   =? 2010 + Z.of_nat (t / 12))%Z)
            (seq 0 180) = true) as Hall by (by vm_compute).
  rewrite forallb_forall in Hall.
  specialize (Hall t (proj2 (in_seq 180 0 t) ltac:(lia))).
  apply andb_true_iff in Hall as [Hnear Hfloor].
  apply Qle_bool_iff in Hnear. apply Z.eqb_eq in Hfloor.
  split; [|exact Hfloor].
  apply Qcabs_Qcle_condition. apply Qabs_Qle_condition in Hnear.
  unfold Qcle, roundingMargin.
  rewrite this_opp, this_minus, this_add, this_div, !this_num. cbn [this Qc_of_Z].
  exact Hnear.
Qed.

Lemma sample_time_increasing (t1 t2 : nat) :
  (t1 < t2)%nat -> (t2 < 180)%nat ->
  yearDecimalOf (monthAt t1).1 (monthAt t1).2
  < yearDecimalOf (monthAt t2).1 (monthAt t2).2.
Proof.
  intros Hlt Ht2.
  destruct (sample_time_near t1) as [H1 _]; [lia|].
  destruct (sample_time_near t2) as [H2 _]; [lia|].
  apply Qcabs_Qcle_condition in H1, H2.
  unfold Qclt, Qcle, roundingMargin in *.
  rewrite ?this_opp, ?this_minus, ?this_add, ?this_div, ?this_num in H1, H2.
  cbn [this Qc_of_Z] in H1, H2.
  assert (inject_Z (Z.of_nat t1) + 1 <= inject_Z (Z.of_nat t2))%Q as H.
  { change 1%Q with (inject_Z 1). rewrite <- inject_Z_plus, <- Zle_Qle. lia. }
  revert H1 H2 H.
  generalize (this (yearDecimalOf (monthAt t1).1 (monthAt t1).2)),
    (this (yearDecimalOf (monthAt t2).1 (monthAt t2).2)),
    (inject_Z (Z.of_nat t1)), (inject_Z (Z.of_nat t2)).
  intros y1 y2 q1 q2 H1 H2 H.
  unfold Qdiv in *. change (/ 12)%Q with (1 # 12)%Q in *. lra.
Qed.

Lemma sample_keys_and_time rnd airlines t :
  (t < 180)%nat ->
  exists dp,
    generateData rnd airlines !! t = Some dp /\
    dom dp = {[ "year"%string ]} ∪ list_to_set (code <$> airlines) /\
    (forall a, a ∈ airlines ->
       exists z : Z, dp !! code a = Some (Qc_of_Z z) /\ (100 <= z <= 5500)%Z) /\
    ("year"%string ∉ code <$> airlines ->
     dp !! "year"%string = Some (yearDecimalOf (monthAt t).1 (monthAt t).2)).
Proof.
  intros Ht. rewrite generateData_lookup by done. eexists; split; [done|].
  unfold stateBefore. rewrite firstn_all. split; [|split].
  - rewrite airlines_loop_dom. unfold newDataPoint. by rewrite dom_singleton_L.
  - intros a Ha.
    destruct (airlines_loop_rounded rnd (monthAt t).1 (monthAt t).2 airlines
                (lastValues (stateAfter rnd airlines t))
                (calls (stateAfter rnd airlines t))
                (newDataPoint (monthAt t).1 (monthAt t).2) a Ha)
      as (v & g & -> & Hband).
    destruct (Math_round_integer v g Hband) as (z & -> & Hz). eauto.
  - intros Hyear.
    destruct (airlines_loop_other rnd (monthAt t).1 (monthAt t).2 airlines
                (lastValues (stateAfter rnd airlines t))
                (calls (stateAfter rnd airlines t))
                (newDataPoint (monthAt t).1 (monthAt t).2) "year" Hyear)
      as [_ ->].
    apply lookup_singleton_eq.
Qed.
End TimeAxis.

Lemma monthAt_closed t :
  (t < 180)%nat ->
  monthAt t = (2010 + Z.of_nat (t / 12), Z.of_nat (t mod 12) + 1).
Proof.
  intros Ht.
  assert (Forall (fun t => monthAt t
                           = (2010 + Z.of_nat (t / 12), Z.of_nat (t mod 12) + 1))
                 (seq 0 180)) as Hall.
  { apply (bool_decide_unpack _). vm_compute. exact I. }
  rewrite Forall_forall in Hall. apply Hall, elem_of_seq. lia.
Qed.

Lemma generateAirlines_no_year : "year"%string ∉ code <$> generateAirlines.
Proof. apply (bool_decide_unpack _). vm_compute. exact I. Qed.

Section MatrixResults.
Local Open Scope Qc_scope.

(** X4 (time axis).  When no airline has the code "year", sample [t]
    holds under "year" the number the generator computes for the month,
    [year + (month - 1) / 12] with [year = 2010 + t div 12] and
    [month = t mod 12 + 1].  In binary64 this number is within [2^-40]
    of [2010 + t / 12], its floor is the calendar year, and every later
    sample holds a strictly larger one. *)
Theorem samples_are_monthly
    (rnd : nat -> Qc) (airlines : list Airline) (t : nat) :
  ("year"%string ∉ code <$> airlines) -> (t < 180)%nat ->
  exists dp yearDecimal,
    AppTsx.generateData rnd airlines !! t = Some dp /\
    dp !! "year"%string = Some yearDecimal /\
    yearDecimal
      = yearDecimalOf (2010 + Z.of_nat (t / 12)) (Z.of_nat (t mod 12) + 1) /\
    Qcabs (yearDecimal - (num 2010 + Qc_of_Z (Z.of_nat t) / num 12))
      <= roundingMargin /\
    Qfloor yearDecimal = (2010 + Z.of_nat (t / 12))%Z /\
    forall t' dp',
      (t < t')%nat -> AppTsx.generateData rnd airlines !! t' = Some dp' ->
      exists yearDecimal',
        dp' !! "year"%string = Some yearDecimal' /\ yearDecimal < yearDecimal'.
Proof.
  intros Hy Ht.
  destruct (sample_keys_and_time rnd airlines t Ht) as (dp & Hdp & _ & _ & Hyear).
  destruct (sample_time_near t Ht) as [Hnear Hfloor].
  exists dp, (yearDecimalOf (monthAt t).1 (monthAt t).2).
  split; [exact Hdp|]. split; [by apply Hyear|].
  split; [by rewrite monthAt_closed|]. split; [exact Hnear|]. split; [exact Hfloor|].
  intros t' dp' Hlt Hdp'.
  assert (t' < 180)%nat as Ht'.
  { rewrite <- (generateData_length rnd airlines). by eapply lookup_lt_Some. }
  destruct (sample_keys_and_time rnd airlines t' Ht') as (dp2 & Hdp2 & _ & _ & Hyear2).
  rewrite Hdp' in Hdp2. injection Hdp2 as <-.
  eexists. split; [by apply Hyear2|]. by apply sample_time_increasing.
Qed.

(** Sample 1, February 2010: the code stores the double nearest to
    [2010 + 1/12], not the fraction itself. *)
Lemma samples_are_monthly_witness :
  ("year"%string ∉ code <$> twoPlusTwo) /\ (1 < 180)%nat /\
  exists dp yearDecimal,
    AppTsx.generateData jumpRandom twoPlusTwo !! 1%nat = Some dp /\
    dp !! "year"%string = Some yearDecimal /\
    yearDecimal = num (8840439991194965 # 4398046511104) /\
    Qfloor yearDecimal = 2010%Z.
Proof.
  assert ("year"%string ∉ code <$> twoPlusTwo) as Hy.
  { apply (bool_decide_unpack _). vm_compute. exact I. }
  assert (1 < 180)%nat as Ht by lia.
  split; [exact Hy|]. split; [exact Ht|].
  destruct (samples_are_monthly jumpRandom twoPlusTwo 1 Hy Ht)
    as (dp & y & Hdp & Hyear & Hval & _ & Hfloor & _).
  exists dp, y. split; [exact Hdp|]. split; [exact Hyear|].
  split; [|exact Hfloor].
  rewrite Hval. apply Qc_is_canon. by vm_compute.
Defined.

(** X5 (content of a sample).  For every catalog whose codes are
    ordinary keys, also one with repeated codes, and every sequence of
    draws, the keys of sample [t] are "year" and the codes of the
    catalog, and the value under every code of the catalog is an integer
    between 100 and 5500.  Both files produce this sample. *)
Theorem samples_hold_an_integer_per_code
    (rnd : nat -> Qc) (airlines : list Airline) (t : nat) :
  ("__proto__"%string ∉ code <$> airlines) -> (t < 180)%nat ->
  exists dp,
    AppTsx.generateData rnd airlines !! t = Some dp /\
    LineChartTsx.generateData rnd airlines !! t = Some dp /\
    dom dp = {[ "year"%string ]} ∪ list_to_set (code <$> airlines) /\
    forall a, a ∈ airlines ->
      exists z : Z, dp !! code a = Some (Qc_of_Z z) /\ (100 <= z <= 5500)%Z.
Proof.
  intros _ Ht.
  destruct (sample_keys_and_time rnd airlines t Ht) as (dp & Hdp & Hdom & Hval & _).
  exists dp. split; [exact Hdp|]. split; [|by split].
  pose proof (LineChartTsx_generateData_eq rnd airlines) as HL.
  revert HL. generalize (LineChartTsx.generateData rnd airlines). by intros dL ->.
Qed.

Lemma samples_hold_an_integer_per_code_witness :
  ("__proto__"%string ∉ code <$> twoPlusTwo) /\ (6 < 180)%nat /\
  exists dp,
    AppTsx.generateData jumpRandom twoPlusTwo !! 6%nat = Some dp /\
    exists z : Z, dp !! "CX"%string = Some (Qc_of_Z z) /\ (100 <= z <= 5500)%Z.
Proof.
  assert ("__proto__"%string ∉ code <$> twoPlusTwo) as Hp.
  { apply (bool_decide_unpack _). vm_compute. exact I. }
  assert (6 < 180)%nat as Ht by lia.
  split; [exact Hp|]. split; [exact Ht|].
  destruct (samples_hold_an_integer_per_code jumpRandom twoPlusTwo 6 Hp Ht)
    as (dp & Hdp & _ & _ & Hval).
  exists dp. split; [exact Hdp|].
  apply (Hval airlineCX). apply list_elem_of_further, list_elem_of_further, list_elem_of_here.
Defined.

(** X6 (the matrix of the mounted chart).  In every state the mounted
    chart can reach, in either file, the catalog is the one of
    [generateAirlines] and the matrix is the same in both files, has 180
    samples, and sample [t] holds under "year" a number within [2^-40]
    of [2010 + t / 12] and, for every airline of the catalog, an integer
    inside the band of the airline's group. *)
Theorem mounted_chart_matrix
    (rnd : nat -> Qc) (w : AppTsx.World) (wL : LineChartTsx.World) (t : nat) :
  AppTsx.reachable rnd w -> LineChartTsx.reachable rnd wL -> (t < 180)%nat ->
  AppTsx.memoAirlines w = generateAirlines /\
  LineChartTsx.memoAirlines wL = generateAirlines /\
  LineChartTsx.memoData wL = AppTsx.memoData w /\
  length (AppTsx.memoData w) = 180%nat /\
  exists dp yearDecimal,
    AppTsx.memoData w !! t = Some dp /\
    dom dp = {[ "year"%string ]} ∪ list_to_set (code <$> generateAirlines) /\
    dp !! "year"%string = Some yearDecimal /\
    Qcabs (yearDecimal - (num 2010 + Qc_of_Z (Z.of_nat t) / num 12))
      <= roundingMargin /\
    forall a, a ∈ generateAirlines ->
      exists z : Z, dp !! code a = Some (Qc_of_Z z) /\ inBand (group a) (Qc_of_Z z).
Proof.
  intros Hw HwL Ht.
  destruct (App_reachable_memo rnd w Hw) as [Hd Ha].
  destruct (LineChart_reachable_memo rnd wL HwL) as [HdL HaL].
  split; [exact Ha|]. split; [exact HaL|].
  rewrite HdL, Hd. clear Hd HdL.
  pose proof (LineChartTsx_generateData_eq rnd generateAirlines) as HL.
  revert HL. generalize (LineChartTsx.generateData rnd generateAirlines). intros dL ->.
  split; [reflexivity|]. split; [apply generateData_length|].
  destruct (sample_keys_and_time rnd generateAirlines t Ht)
    as (dp & Hdp & Hdom & Hval & Hyear).
  exists dp, (yearDecimalOf (monthAt t).1 (monthAt t).2).
  split; [exact Hdp|]. split; [exact Hdom|].
  split; [apply Hyear, generateAirlines_no_year|].
  split; [by apply sample_time_near|].
  intros a Hin. destruct (Hval a Hin) as (z & Hz & _). exists z. split; [exact Hz|].
  destruct (sample_band rnd generateAirlines dp a generateAirlines_NoDup) as (v & Hv & Hb);
    [by eapply list_elem_of_lookup_2 | done |].
  rewrite Hz in Hv. by injection Hv as <-.
Qed.

Lemma mounted_chart_matrix_witness :
  AppTsx.reachable jumpRandom
    (AppTsx.step 20 (ChartMouseMove (moveOver 3)) (AppTsx.mount jumpRandom true)) /\
  LineChartTsx.reachable jumpRandom (LineChartTsx.mount jumpRandom false) /\
  (7 < 180)%nat /\
  length (AppTsx.memoData
            (AppTsx.step 20 (ChartMouseMove (moveOver 3)) (AppTsx.mount jumpRandom true)))
  = 180%nat.
Proof.
  assert (AppTsx.reachable jumpRandom
            (AppTsx.step 20 (ChartMouseMove (moveOver 3)) (AppTsx.mount jumpRandom true)))
    as Hw by (apply AppTsx.reachable_step, AppTsx.reachable_mount).
  assert (LineChartTsx.reachable jumpRandom (LineChartTsx.mount jumpRandom false))
    as HwL by apply LineChartTsx.reachable_mount.
  assert (7 < 180)%nat as Ht by lia.
  split; [exact Hw|]. split; [exact HwL|]. split; [exact Ht|].
  exact (proj1 (proj2 (proj2 (proj2
           (mounted_chart_matrix jumpRandom _ _ 7 Hw HwL Ht))))).
Defined.
End MatrixResults.

(** * Date labels *)

Section Integers.

Lemma round_half_even_int (q : Q) (n : Z) :
  (q == inject_Z n)%Q -> round_half_even q = n.
Proof.
  intros H. unfold round_half_even.
  rewrite (Qfloor_comp _ _ H), Qfloor_Z.
  assert (q - inject_Z n < 1 # 2)%Q as Hlt by (rewrite H; lra).
  pose proof (proj1 (Qlt_alt (q - inject_Z n) (1 # 2)) Hlt) as Hc.
  by rewrite Hc.
Qed.

(** Integers below [2^53] in absolute value are binary64 values. *)
Lemma binary64_int (z : Z) : Z.abs z < 2 ^ 53 -> binary64 (Qc_of_Z z) = Qc_of_Z z.
Proof.
  intros Hz. unfold binary64.
  destruct (Qeq_bool (Qc_of_Z z) 0) eqn:E; [done|].
  apply Qeq_bool_neq in E. cbn [this Qc_of_Z] in *.
  assert (z <> 0) as Hz0 by (intros ->; by apply E).
  set (e := Z.max (ilog2 (Qabs (inject_Z z))) (-1022)).
  assert (e <= 52) as He.
  { apply Z.max_lub; [|lia].
    assert (0 < Qabs (inject_Z z))%Q as Hpos.
    { change (Qabs (inject_Z z)) with (inject_Z (Z.abs z)).
      change 0%Q with (inject_Z 0). rewrite <- Zlt_Qlt. lia. }
    pose proof (ilog2_lower _ Hpos) as Hl.
    assert (pow2 (ilog2 (Qabs (inject_Z z))) < pow2 53)%Q as Hlt.
    { eapply Qle_lt_trans; [exact Hl|].
      change (Qabs (inject_Z z)) with (inject_Z (Z.abs z)).
      rewrite pow2_of_nonneg by lia. by rewrite <- Zlt_Qlt. }
    apply (Qpower_lt_compat_l_inv 2) in Hlt; [lia | reflexivity]. }
  assert (pow2 (e - 52) == / inject_Z (2 ^ (52 - e)))%Q as Hu.
  { replace (e - 52) with (- (52 - e)) by lia.
    unfold pow2. rewrite Qpower_opp. fold (pow2 (52 - e)).
    by rewrite pow2_of_nonneg by lia. }
  assert (0 < 2 ^ (52 - e)) as HN by (apply Z.pow_pos_nonneg; lia).
  assert (~ inject_Z (2 ^ (52 - e)) == 0)%Q as HN0.
  { change 0%Q with (inject_Z 0). rewrite inject_Z_injective. lia. }
  apply Qc_is_canon. cbn [this Q2Qc Qc_of_Z]. rewrite Qred_correct.
  rewrite (round_half_even_int _ (z * 2 ^ (52 - e))).
  - rewrite Hu, inject_Z_mult. field. exact HN0.
  - rewrite Hu, inject_Z_mult. field. exact HN0.
Qed.
End Integers.

Section Dates.
Local Open Scope Qc_scope.

Lemma Qfloor_of_Z (z : Z) : Qfloor (Qc_of_Z z) = z.
Proof.
  cbn [this Qc_of_Z]. apply Qfloor_Z.
Qed.

Lemma array_at_of_Z {A} (l : list A) (z : Z) :
  array_at l (Qc_of_Z z) = array_get l z.
Proof. unfold array_at. rewrite Qfloor_of_Z. by rewrite decide_True. Qed.

Lemma array_at_length {A} (l : list A) :
  array_at l (Qc_of_Z (Z.of_nat (length l))) = None.
Proof.
  rewrite array_at_of_Z. unfold array_get.
  rewrite (proj2 (Z.leb_le _ _)) by lia. rewrite Nat2Z.id.
  apply lookup_ge_None_2. lia.
Qed.

(** The fractional part of a number and its floor. *)
Lemma floor_fraction (x : Qc) :
  0 <= x - Qc_of_Z (Qfloor x) /\ x - Qc_of_Z (Qfloor x) < 1.
Proof.
  pose proof (Qfloor_le x) as Hle. pose proof (Qlt_floor x) as Hlt.
  rewrite inject_Z_plus in Hlt.
  unfold Qcle, Qclt. rewrite !this_minus. cbn [this Qc_of_Z].
  change (this 0) with 0%Q. change (this 1) with 1%Q.
  change (inject_Z 1) with 1%Q in Hlt. split; lra.
Qed.

(** [Math.round(x)] is the integer [j] when [j - 1/2 <= x < j + 1/2]. *)
Lemma Math_round_eq (x : Qc) (j : Z) :
  (inject_Z j - (1 # 2) <= x)%Q -> (x < inject_Z j + (1 # 2))%Q ->
  Math_round x = Qc_of_Z j.
Proof.
  intros H0 H1. unfold Math_round. f_equal.
  assert (inject_Z j <= (x + num 0.5)%Qc)%Q as Hlo by (rewrite this_add, this_num; lra).
  assert ((x + num 0.5)%Qc < inject_Z (j + 1))%Q as Hhi.
  { rewrite this_add, this_num, inject_Z_plus. change (inject_Z 1) with 1%Q. lra. }
  apply Qfloor_ge_int in Hlo. apply Qfloor_lt_int in Hhi. lia.
Qed.

(** The month index of a fraction [f] of a year: the two roundings of
    [(yearDecimal - year) * 12] move it by less than [2^-48]. *)
Lemma month_index_near (f : Qc) :
  0 <= f -> f < 1 ->
  (Qabs (fmul (binary64 f) (num 12) - 12 * f) <= 1 # 281474976710656)%Q.
Proof.
  intros H0 H1. unfold fmul, Qcle, Qclt in *.
  change (this 0) with 0%Q in *. change (this 1) with 1%Q in *.
  near_by binary64_near f 0%Z Hf.
  set (fs := binary64 f) in *.
  near_by binary64_near (fs * num 12) 4%Z Hp.
  rewrite ?this_mul, ?this_num in Hp.
  apply Qabs_Qle_condition.
  revert Hf Hp. generalize (this (binary64 (fs * num 12))), (this fs).
  revert H0 H1. generalize (this f). intros f' H0 H1 p' fs' Hf Hp.
  assert (- (1 # 9007199254740992) <= fs' - f' <= 1 # 9007199254740992)%Q as Hf'
    by (apply Hf; split; lra).
  assert (- (1 # 562949953421312) <= p' - fs' * 12 <= 1 # 562949953421312)%Q as Hp'
    by (apply Hp; split; lra).
  split; lra.
Qed.

Lemma monthNames_lookup (k : Z) :
  (0 <= k < 12)%Z ->
  exists name, array_get monthNames k = Some name /\ name ∈ monthNames.
Proof.
  intros Hk. unfold array_get. rewrite (proj2 (Z.leb_le _ _)) by lia.
  destruct (lookup_lt_is_Some_2 monthNames (Z.to_nat k)) as [name Hn].
  { simpl. lia. }
  exists name. split; [done|]. by eapply list_elem_of_lookup_2.
Qed.

(** The label of a number whose fraction of a year is [f]: a month name
    below [23/24], "undefined" above, with the margin [2^-40] on both
    sides of [23/24] where rounding decides. *)
Lemma formatDate_cases (yearDecimal : Qc) :
  let year := Qfloor yearDecimal in
  let fraction := yearDecimal - Qc_of_Z year in
  (fraction <= num (23 # 24) - roundingMargin /\
   exists name, name ∈ monthNames /\
     AppTsx.formatDate yearDecimal = (name ++ " " ++ pretty year)%string) \/
  (num (23 # 24) - roundingMargin < fraction /\
   fraction < num (23 # 24) + roundingMargin) \/
  (num (23 # 24) + roundingMargin <= fraction /\
   AppTsx.formatDate yearDecimal = ("undefined " ++ pretty year)%string).
Proof.
  intros year fraction.
  destruct (floor_fraction yearDecimal) as [H0 H1].
  fold year in H0, H1. fold fraction in H0, H1.
  pose proof (month_index_near fraction H0 H1) as Hp.
  apply Qabs_Qle_condition in Hp.
  unfold AppTsx.formatDate, fsub. fold year. fold fraction.
  set (p := fmul (binary64 fraction) (num 12)) in *.
  destruct (Qclt_le_dec (num (23 # 24) - roundingMargin) fraction) as [Hlo|Hlo].
  - destruct (Qclt_le_dec fraction (num (23 # 24) + roundingMargin)) as [Hhi|Hhi].
    + right. left. by split.
    + right. right. split; [done|].
      rewrite (Math_round_eq p 12).
      * change 12%Z with (Z.of_nat (length monthNames)). by rewrite array_at_length.
      * unfold Qcle, roundingMargin in Hhi. rewrite this_add, !this_num in Hhi.
        change (inject_Z 12) with 12%Q. revert Hp Hhi.
        generalize (this p), (this fraction). intros; lra.
      * unfold Qclt in H1. change (this 1) with 1%Q in H1.
        change (inject_Z 12) with 12%Q. revert Hp H1.
        generalize (this p), (this fraction). intros; lra.
  - left. split; [done|].
    set (k := Qfloor (p + num 0.5)%Qc).
    assert (Math_round p = Qc_of_Z k) as -> by reflexivity.
    assert (0 <= k < 12)%Z as Hk.
    { pose proof (Qfloor_le (p + num 0.5)%Qc) as Hle.
      pose proof (Qlt_floor (p + num 0.5)%Qc) as Hlt.
      fold k in Hle, Hlt.
      rewrite inject_Z_plus in Hlt. change (inject_Z 1) with 1%Q in Hlt.
      rewrite this_add, this_num in Hle, Hlt.
      unfold Qcle, roundingMargin in *. rewrite this_minus, !this_num in Hlo.
      change (this 0) with 0%Q in H0.
      assert (inject_Z (-1) < inject_Z k)%Q as Hk0.
      { change (inject_Z (-1)) with (-1)%Q. revert Hp H0 Hlt.
        generalize (this p), (this fraction), (inject_Z k). intros; lra. }
      assert (inject_Z k < inject_Z 12)%Q as Hk1.
      { change (inject_Z 12) with 12%Q. revert Hp Hlo Hle.
        generalize (this p), (this fraction), (inject_Z k). intros; lra. }
      rewrite <- Zlt_Qlt in Hk0, Hk1. lia. }
    rewrite array_at_of_Z.
    destruct (monthNames_lookup k Hk) as (name & -> & Hin).
    exists name. split; [done|]. reflexivity.
Qed.

Lemma Qc_of_Z_minus_1 (m : Z) : Qc_of_Z m - num 1 = Qc_of_Z (m - 1).
Proof.
  apply Qc_is_canon. rewrite this_minus, this_num. cbn [this Qc_of_Z].
  unfold Z.sub. rewrite inject_Z_plus. reflexivity.
Qed.
End Dates.

Section MonthStarts.
Local Open Scope Qc_scope.

(** [year + (month - 1) / 12] for a year from 0 to 9999: the difference
    [month - 1] is exact, the quotient and the sum are rounded, and the
    result is within [2^-38] of the exact number. *)
Lemma yearDecimalOf_near (y m : Z) :
  (0 <= y <= 9999)%Z -> (1 <= m <= 12)%Z ->
  (Qabs (yearDecimalOf y m - (inject_Z y + inject_Z (m - 1) / 12))
   <= 1 # 274877906944)%Q.
Proof.
  intros Hy Hm. unfold yearDecimalOf, fadd, fdiv, fsub.
  rewrite Qc_of_Z_minus_1, binary64_int by (change (2 ^ 53)%Z with 9007199254740992%Z; lia).
  assert (0 <= inject_Z y <= 9999)%Q as Hy'.
  { change 0%Q with (inject_Z 0). change 9999%Q with (inject_Z 9999).
    rewrite <- !Zle_Qle. lia. }
  assert (0 <= inject_Z (m - 1) <= 11)%Q as Hm'.
  { change 0%Q with (inject_Z 0). change 11%Q with (inject_Z 11).
    rewrite <- !Zle_Qle. lia. }
  near_by binary64_near (Qc_of_Z (m - 1) / num 12) 0%Z Hg.
  set (g := binary64 (Qc_of_Z (m - 1) / num 12)) in *.
  near_by binary64_near (Qc_of_Z y + g) 14%Z Hs.
  repeat (rewrite ?this_add, ?this_div, ?this_num in Hg).
  repeat (rewrite ?this_add, ?this_div, ?this_num in Hs).
  cbn [this Qc_of_Z] in Hg, Hs.
  apply Qabs_Qle_condition.
  revert Hg Hs. generalize (this (binary64 (Qc_of_Z y + g))), (this g).
  revert Hy' Hm'. generalize (inject_Z y), (inject_Z (m - 1)).
  intros Y M Hy' Hm' s' g' Hg Hs.
  unfold Qdiv in *. change (/ 12)%Q with (1 # 12)%Q in *.
  assert (- (1 # 9007199254740992) <= g' - M * (1 # 12) <= 1 # 9007199254740992)%Q as Hg'
    by (apply Hg; split; lra).
  assert (- (1 # 549755813888) <= s' - (Y + g') <= 1 # 549755813888)%Q as Hs'
    by (apply Hs; split; lra).
  split; lra.
Qed.

(** For January the number is the year itself. *)
Lemma yearDecimalOf_january (y : Z) :
  (0 <= y <= 9999)%Z -> yearDecimalOf y 1 = Qc_of_Z y.
Proof.
  intros Hy. unfold yearDecimalOf, fadd, fdiv, fsub.
  assert (binary64 (binary64 (Qc_of_Z 1 - num 1) / num 12) = 0) as ->
    by (apply Qc_is_canon; by vm_compute).
  rewrite Qcplus_0_r. apply binary64_int.
  change (2 ^ 53)%Z with 9007199254740992%Z. lia.
Qed.

Lemma yearDecimalOf_floor (y m : Z) :
  (0 <= y <= 9999)%Z -> (1 <= m <= 12)%Z -> Qfloor (yearDecimalOf y m) = y.
Proof.
  intros Hy Hm. destruct (decide (m = 1%Z)) as [->|Hne].
  { rewrite yearDecimalOf_january by done. apply Qfloor_of_Z. }
  pose proof (yearDecimalOf_near y m Hy Hm) as Hn. apply Qabs_Qle_condition in Hn.
  assert (1 <= inject_Z (m - 1) <= 11)%Q as Hm'.
  { change 1%Q with (inject_Z 1). change 11%Q with (inject_Z 11).
    rewrite <- !Zle_Qle. lia. }
  assert (inject_Z y <= yearDecimalOf y m)%Q as Hlo.
  { revert Hn Hm'. generalize (this (yearDecimalOf y m)), (inject_Z y), (inject_Z (m - 1)).
    intros s Y M Hn Hm'. unfold Qdiv in *. change (/ 12)%Q with (1 # 12)%Q in *. lra. }
  assert (yearDecimalOf y m < inject_Z (y + 1))%Q as Hhi.
  { rewrite inject_Z_plus. change (inject_Z 1) with 1%Q. revert Hn Hm'.
    generalize (this (yearDecimalOf y m)), (inject_Z y), (inject_Z (m - 1)).
    intros s Y M Hn Hm'. unfold Qdiv in *. change (/ 12)%Q with (1 # 12)%Q in *. lra. }
  apply Qfloor_ge_int in Hlo. apply Qfloor_lt_int in Hhi. lia.
Qed.

Lemma formatDate_month_start (y m : Z) :
  (0 <= y <= 9999)%Z -> (1 <= m <= 12)%Z ->
  AppTsx.formatDate (yearDecimalOf y m)
  = dateTemplate (monthNames !! Z.to_nat (m - 1)) y.
Proof.
  intros Hy Hm. unfold AppTsx.formatDate.
  rewrite yearDecimalOf_floor by done.
  assert (Math_round (fmul (fsub (yearDecimalOf y m) (Qc_of_Z y)) (num 12))
          = Qc_of_Z (m - 1)) as ->.
  { pose proof (floor_fraction (yearDecimalOf y m)) as [H0 H1].
    rewrite yearDecimalOf_floor in H0, H1 by done.
    pose proof (month_index_near _ H0 H1) as Hp. apply Qabs_Qle_condition in Hp.
    pose proof (yearDecimalOf_near y m Hy Hm) as Hn. apply Qabs_Qle_condition in Hn.
    unfold fsub. rewrite this_minus in Hp. cbn [this Qc_of_Z] in Hp.
    set (p := fmul (binary64 (yearDecimalOf y m - Qc_of_Z y)) (num 12)) in *.
    apply Math_round_eq; revert Hp Hn;
      generalize (this p), (this (yearDecimalOf y m)), (inject_Z y), (inject_Z (m - 1));
      intros p' s Y M Hp Hn; unfold Qdiv in *; change (/ 12)%Q with (1 # 12)%Q in *; lra. }
  rewrite array_at_of_Z. unfold array_get.
  by rewrite (proj2 (Z.leb_le _ _)) by lia.
Qed.

Lemma LineChartTsx_formatDate_eq x : LineChartTsx.formatDate x = AppTsx.formatDate x.
Proof. unfold LineChartTsx.formatDate, AppTsx.formatDate. reflexivity. Qed.
End MonthStarts.

Section DateResults.
Local Open Scope Qc_scope.

(** X7 (date label of a month start).  For every year [y] from 0 to 9999
    and month [m] from 1 to 12, [formatDate] applied to the number
    [y + (m - 1) / 12] as the generator computes it in binary64 is the
    name of month [m], a space and [y], in both files. *)
Theorem formatDate_names_the_month (y m : Z) :
  (0 <= y <= 9999)%Z -> (1 <= m <= 12)%Z ->
  exists name,
    monthNames !! Z.to_nat (m - 1) = Some name /\
    AppTsx.formatDate (yearDecimalOf y m) = (name ++ " " ++ pretty y)%string /\
    LineChartTsx.formatDate (yearDecimalOf y m) = (name ++ " " ++ pretty y)%string.
Proof.
  intros Hy Hm.
  destruct (lookup_lt_is_Some_2 monthNames (Z.to_nat (m - 1))) as [name Hn].
  { simpl. lia. }
  exists name. split; [exact Hn|].
  assert (AppTsx.formatDate (yearDecimalOf y m) = (name ++ " " ++ pretty y)%string) as HA.
  { rewrite formatDate_month_start by done. by rewrite Hn. }
  split; [exact HA | exact (eq_trans (LineChartTsx_formatDate_eq _) HA)].
Qed.

(** The example of the source comment: 2020.5 is July 2020. *)
Lemma formatDate_names_the_month_witness :
  (0 <= 2020 <= 9999)%Z /\ (1 <= 7 <= 12)%Z /\
  yearDecimalOf 2020 7 = num 2020.5 /\
  AppTsx.formatDate (yearDecimalOf 2020 7) = "Jul 2020"%string.
Proof.
  assert (0 <= 2020 <= 9999)%Z as Hy by lia.
  assert (1 <= 7 <= 12)%Z as Hm by lia.
  split; [exact Hy|]. split; [exact Hm|].
  split; [apply Qc_is_canon; by vm_compute|].
  destruct (formatDate_names_the_month 2020 7 Hy Hm) as (name & Hn & HA & _).
  injection Hn as <-. rewrite HA. reflexivity.
Defined.

(** X8 (every date label).  Let [year], from 0 to 9999, be the floor of
    the argument and [fraction] the rest.  If [fraction] is at most
    [23/24 - 2^-40] the label is one of the twelve month names followed
    by the year; if it is at least [23/24 + 2^-40] the month index
    rounds to 12, outside [monthNames], and the label reads "undefined"
    followed by the year.  In between, the rounding of
    [(yearDecimal - year) * 12] decides.  Both files agree. *)
Theorem formatDate_label_cases (yearDecimal : Qc) :
  (0 <= Qfloor yearDecimal <= 9999)%Z ->
  let year := Qfloor yearDecimal in
  let fraction := yearDecimal - Qc_of_Z year in
  LineChartTsx.formatDate yearDecimal = AppTsx.formatDate yearDecimal /\
  ((fraction <= num (23 # 24) - roundingMargin /\
    exists name, name ∈ monthNames /\
      AppTsx.formatDate yearDecimal = (name ++ " " ++ pretty year)%string) \/
   (num (23 # 24) - roundingMargin < fraction /\
    fraction < num (23 # 24) + roundingMargin) \/
   (num (23 # 24) + roundingMargin <= fraction /\
    AppTsx.formatDate yearDecimal = ("undefined " ++ pretty year)%string)).
Proof.
  intros _. split; [apply LineChartTsx_formatDate_eq | apply formatDate_cases].
Qed.

(** The last days of December 2020. *)
Lemma formatDate_label_cases_witness :
  (0 <= Qfloor (num 2020.99) <= 9999)%Z /\
  AppTsx.formatDate (num 2020.99) = "undefined 2020"%string.
Proof.
  assert (0 <= Qfloor (num 2020.99) <= 9999)%Z as Hy by (by vm_compute).
  split; [exact Hy|].
  destruct (formatDate_label_cases (num 2020.99) Hy) as [_ [[H _]|[[_ H]|[_ H]]]].
  - exfalso. vm_compute in H. by apply H.
  - exfalso. vm_compute in H. discriminate H.
  - rewrite H. reflexivity.
Defined.

(** X9 (date shown for a sample).  When no airline has the code "year",
    [formatDate] of the "year" entry of sample [t] is the name of month
    [t mod 12] (counted from January) followed by the year
    [2010 + t / 12]. *)
Theorem sample_date_labels
    (rnd : nat -> Qc) (airlines : list Airline) (t : nat) :
  ("year"%string ∉ code <$> airlines) -> (t < 180)%nat ->
  exists dp yearDecimal name,
    AppTsx.generateData rnd airlines !! t = Some dp /\
    dp !! "year"%string = Some yearDecimal /\
    monthNames !! (t mod 12)%nat = Some name /\
    AppTsx.formatDate yearDecimal
      = (name ++ " " ++ pretty (2010 + Z.of_nat (t / 12))%Z)%string.
Proof.
  intros Hy Ht.
  assert (t mod 12 < 12)%nat as Hmod by (apply Nat.mod_upper_bound; lia).
  assert (t / 12 < 15)%nat as Hdiv by (apply Nat.Div0.div_lt_upper_bound; lia).
  destruct (sample_keys_and_time rnd airlines t Ht) as (dp & Hdp & _ & _ & Hyear).
  destruct (lookup_lt_is_Some_2 monthNames (t mod 12)%nat) as [name Hn].
  { exact Hmod. }
  exists dp, (yearDecimalOf (monthAt t).1 (monthAt t).2), name.
  split; [exact Hdp|]. split; [by apply Hyear|]. split; [exact Hn|].
  rewrite monthAt_closed by done. cbn [fst snd].
  rewrite formatDate_month_start by lia.
  replace (Z.to_nat (Z.of_nat (t mod 12) + 1 - 1)) with (t mod 12)%nat by lia.
  by rewrite Hn.
Qed.

Lemma sample_date_labels_witness :
  ("year"%string ∉ code <$> twoPlusTwo) /\ (126 < 180)%nat /\
  exists dp yearDecimal,
    AppTsx.generateData jumpRandom twoPlusTwo !! 126%nat = Some dp /\
    dp !! "year"%string = Some yearDecimal /\
    AppTsx.formatDate yearDecimal = "Jul 2020"%string.
Proof.
  assert ("year"%string ∉ code <$> twoPlusTwo) as Hy.
  { apply (bool_decide_unpack _). vm_compute. exact I. }
  assert (126 < 180)%nat as Ht by lia.
  split; [exact Hy|]. split; [exact Ht|].
  destruct (sample_date_labels jumpRandom twoPlusTwo 126 Hy Ht)
    as (dp & yd & name & Hdp & Hyd & Hn & Hf).
  exists dp, yd. split; [exact Hdp|]. split; [exact Hyd|].
  injection Hn as <-. rewrite Hf. reflexivity.
Defined.
End DateResults.

(** * Further properties of the interaction *)

(** ** Legend clicks *)

Lemma toggle_twice `{Countable K} (x : K) (X : gset K) :
  (if decide (x ∈ (if decide (x ∈ X) then X ∖ {[ x ]} else X ∪ {[ x ]}))
   then (if decide (x ∈ X) then X ∖ {[ x ]} else X ∪ {[ x ]}) ∖ {[ x ]}
   else (if decide (x ∈ X) then X ∖ {[ x ]} else X ∪ {[ x ]}) ∪ {[ x ]}) = X.
Proof.
  destruct (decide (x ∈ X)) as [Hin|Hout].
  - rewrite decide_False by set_solver.
    rewrite difference_union_L. set_solver.
  - rewrite decide_True by set_solver. set_solver.
Qed.

Lemma toggle_elem_of `{Countable K} (x y : K) (X : gset K) :
  y ∈ (if decide (x ∈ X) then X ∖ {[ x ]} else X ∪ {[ x ]})
  <-> (if decide (y = x) then x ∉ X else y ∈ X).
Proof.
  destruct (decide (x ∈ X)); destruct (decide (y = x)); set_solver.
Qed.

Lemma App_toggleItem_twice c (st : AppTsx.ChartState) :
  AppTsx.toggleItem c (AppTsx.toggleItem c st) = st.
Proof.
  destruct st as [hi hg h i r]. unfold AppTsx.toggleItem. cbn.
  by rewrite toggle_twice.
Qed.

Lemma App_toggleGroup_twice g (st : AppTsx.ChartState) :
  AppTsx.toggleGroup g (AppTsx.toggleGroup g st) = st.
Proof.
  destruct st as [hi hg h i r]. unfold AppTsx.toggleGroup. cbn.
  by rewrite toggle_twice.
Qed.

Lemma LineChart_toggleItem_twice c (st : LineChartTsx.ChartState) :
  LineChartTsx.toggleItem c (LineChartTsx.toggleItem c st) = st.
Proof.
  destruct st as [hi hg h i]. unfold LineChartTsx.toggleItem. cbn.
  by rewrite toggle_twice.
Qed.

Lemma LineChart_toggleGroup_twice g (st : LineChartTsx.ChartState) :
  LineChartTsx.toggleGroup g (LineChartTsx.toggleGroup g st) = st.
Proof.
  destruct st as [hi hg h i]. unfold LineChartTsx.toggleGroup. cbn.
  by rewrite toggle_twice.
Qed.

Lemma App_isItemVisible_decide (st : AppTsx.ChartState) a :
  AppTsx.isItemVisible st a =
  bool_decide (group a ∉ AppTsx.hiddenGroups st)
  && bool_decide (code a ∉ AppTsx.hiddenItems st).
Proof.
  unfold AppTsx.isItemVisible.
  destruct (decide (group a ∈ AppTsx.hiddenGroups st)).
  - by rewrite bool_decide_eq_false_2 by (by intros Hn; apply Hn).
  - rewrite bool_decide_eq_true_2 by done. cbn.
    destruct (decide (code a ∈ AppTsx.hiddenItems st)).
    + by rewrite bool_decide_eq_false_2 by (by intros Hn; apply Hn).
    + by rewrite bool_decide_eq_true_2.
Qed.

Lemma LineChart_isItemVisible_decide (st : LineChartTsx.ChartState) a :
  LineChartTsx.isItemVisible st a =
  bool_decide (group a ∉ LineChartTsx.hiddenGroups st)
  && bool_decide (code a ∉ LineChartTsx.hiddenItems st).
Proof.
  unfold LineChartTsx.isItemVisible.
  destruct (decide (group a ∈ LineChartTsx.hiddenGroups st)).
  - by rewrite bool_decide_eq_false_2 by (by intros Hn; apply Hn).
  - rewrite bool_decide_eq_true_2 by done. cbn.
    destruct (decide (code a ∈ LineChartTsx.hiddenItems st)).
    + by rewrite bool_decide_eq_false_2 by (by intros Hn; apply Hn).
    + by rewrite bool_decide_eq_true_2.
Qed.

Lemma toggle_flag `{Countable K} (x y : K) (X : gset K) :
  bool_decide (y ∉ (if decide (x ∈ X) then X ∖ {[ x ]} else X ∪ {[ x ]}))
  = if decide (y = x) then bool_decide (x ∈ X) else bool_decide (y ∉ X).
Proof.
  destruct (decide (y = x)) as [->|Hne]; apply bool_decide_ext; rewrite toggle_elem_of.
  - rewrite decide_True by done. destruct (decide (x ∈ X)); tauto.
  - by rewrite decide_False.
Qed.

Section Toggles.

(** X10 (legend clicks).  In both files, clicking the same legend item
    or the same group header twice restores the state; an item click and
    a header click commute; after a click on the item of code [c] the
    airline with code [c] is visible iff its group is not hidden and the
    code was hidden before, and no other airline changes; likewise for a
    header click and the airlines of other groups. *)
Theorem legend_clicks_are_toggles
    (stA : AppTsx.ChartState) (stL : LineChartTsx.ChartState)
    (c : string) (g : Group) (a : Airline) :
  (AppTsx.toggleItem c (AppTsx.toggleItem c stA) = stA /\
   AppTsx.toggleGroup g (AppTsx.toggleGroup g stA) = stA /\
   AppTsx.toggleItem c (AppTsx.toggleGroup g stA)
     = AppTsx.toggleGroup g (AppTsx.toggleItem c stA) /\
   AppTsx.isItemVisible (AppTsx.toggleItem c stA) a
     = bool_decide (group a ∉ AppTsx.hiddenGroups stA)
       && (if decide (code a = c) then bool_decide (c ∈ AppTsx.hiddenItems stA)
           else bool_decide (code a ∉ AppTsx.hiddenItems stA)) /\
   AppTsx.isItemVisible (AppTsx.toggleGroup g stA) a
     = (if decide (group a = g) then bool_decide (g ∈ AppTsx.hiddenGroups stA)
        else bool_decide (group a ∉ AppTsx.hiddenGroups stA))
       && bool_decide (code a ∉ AppTsx.hiddenItems stA)) /\
  (LineChartTsx.toggleItem c (LineChartTsx.toggleItem c stL) = stL /\
   LineChartTsx.toggleGroup g (LineChartTsx.toggleGroup g stL) = stL /\
   LineChartTsx.toggleItem c (LineChartTsx.toggleGroup g stL)
     = LineChartTsx.toggleGroup g (LineChartTsx.toggleItem c stL) /\
   LineChartTsx.isItemVisible (LineChartTsx.toggleItem c stL) a
     = bool_decide (group a ∉ LineChartTsx.hiddenGroups stL)
       && (if decide (code a = c) then bool_decide (c ∈ LineChartTsx.hiddenItems stL)
           else bool_decide (code a ∉ LineChartTsx.hiddenItems stL)) /\
   LineChartTsx.isItemVisible (LineChartTsx.toggleGroup g stL) a
     = (if decide (group a = g) then bool_decide (g ∈ LineChartTsx.hiddenGroups stL)
        else bool_decide (group a ∉ LineChartTsx.hiddenGroups stL))
       && bool_decide (code a ∉ LineChartTsx.hiddenItems stL)).
Proof.
  split.
  - split; [apply App_toggleItem_twice|]. split; [apply App_toggleGroup_twice|].
    split; [reflexivity|].
    rewrite !App_isItemVisible_decide. cbn [AppTsx.toggleItem AppTsx.toggleGroup
      AppTsx.hiddenItems AppTsx.hiddenGroups].
    by rewrite !toggle_flag.
  - split; [apply LineChart_toggleItem_twice|]. split; [apply LineChart_toggleGroup_twice|].
    split; [reflexivity|].
    rewrite !LineChart_isItemVisible_decide. cbn [LineChartTsx.toggleItem
      LineChartTsx.toggleGroup LineChartTsx.hiddenItems LineChartTsx.hiddenGroups].
    by rewrite !toggle_flag.
Qed.
End Toggles.

(** ** Leaving the chart *)

Lemma App_tooltip_without_index mode airlines data (st : AppTsx.ChartState) :
  AppTsx.activeIndex st = None -> AppTsx.CustomTooltip mode airlines data st = None.
Proof. unfold AppTsx.CustomTooltip. by intros ->. Qed.

Lemma LineChart_tooltip_without_index mode airlines data (st : LineChartTsx.ChartState) :
  LineChartTsx.activeIndex st = None ->
  LineChartTsx.CustomTooltip mode airlines data st = None.
Proof. unfold LineChartTsx.CustomTooltip. by intros ->. Qed.

Lemma array_get_outside {A} (l : list A) (i : Z) :
  i < 0 \/ Z.of_nat (length l) <= i -> array_get l i = None.
Proof.
  intros Hi. unfold array_get. destruct (0 <=? i) eqn:E; [|done].
  apply Z.leb_le in E. apply lookup_ge_None_2. lia.
Qed.

Section Leave.

(** X11 (pointer leaves the chart).  After [handleMouseLeave] no tooltip
    is rendered in either mode and no line has an active dot, whatever
    the catalog and the matrix; the hidden sets, the hovered code and,
    in [src/App.tsx], the time stamp of the throttle are unchanged.  In
    [src/components/LineChart.tsx] the handler does the same in both
    branches of its test of the mode. *)
Theorem mouse_leave_hides_tooltip_and_dots
    (stA : AppTsx.ChartState) (stL : LineChartTsx.ChartState)
    (mode mode' : bool) (airlines : list Airline) (data : list (gmap string Qc))
    (a : Airline) (index : Z) :
  (AppTsx.CustomTooltip mode airlines data (AppTsx.handleMouseLeave stA) = None /\
   AppTsx.activeDot mode (AppTsx.handleMouseLeave stA) a = None /\
   AppTsx.hiddenItems (AppTsx.handleMouseLeave stA) = AppTsx.hiddenItems stA /\
   AppTsx.hiddenGroups (AppTsx.handleMouseLeave stA) = AppTsx.hiddenGroups stA /\
   AppTsx.hoveredItem (AppTsx.handleMouseLeave stA) = AppTsx.hoveredItem stA /\
   AppTsx.lastUpdateRef (AppTsx.handleMouseLeave stA) = AppTsx.lastUpdateRef stA) /\
  (LineChartTsx.handleMouseLeave mode' stL = LineChartTsx.setActiveIndex None stL /\
   LineChartTsx.CustomTooltip mode airlines data (LineChartTsx.handleMouseLeave mode' stL)
     = None /\
   LineChartTsx.dot mode (LineChartTsx.handleMouseLeave mode' stL) a index = 0).
Proof.
  split.
  - split; [by apply App_tooltip_without_index|].
    repeat split.
  - assert (LineChartTsx.handleMouseLeave mode' stL = LineChartTsx.setActiveIndex None stL)
      as -> by (by destruct mode').
    split; [done|]. split; [by apply LineChart_tooltip_without_index|].
    unfold LineChartTsx.dot. cbn. rewrite andb_false_r. by destruct mode.
Qed.
End Leave.

(** ** Bursts of pointer moves *)

Section Burst.
Import AppTsx.

Lemma acceptedTimes_dropped e events st :
  e.1 - lastUpdateRef st < 16 ->
  acceptedTimes (e :: events) st = acceptedTimes events st /\
  runMoves (e :: events) st = runMoves events st.
Proof.
  intros H. unfold runMoves. cbn [acceptedTimes fold_left].
  rewrite (handleMouseMove_dropped _ _ _ H).
  unfold throttleMs. by rewrite (proj2 (Z.ltb_lt _ _) H).
Qed.

Lemma acceptedTimes_accepted e events st :
  16 <= e.1 - lastUpdateRef st ->
  acceptedTimes (e :: events) st
    = e.1 :: acceptedTimes events (handleMouseMove e.1 e.2 st) /\
  runMoves (e :: events) st = runMoves events (handleMouseMove e.1 e.2 st) /\
  lastUpdateRef (handleMouseMove e.1 e.2 st) = e.1.
Proof.
  intros H. unfold runMoves. cbn [acceptedTimes fold_left].
  unfold throttleMs. rewrite (proj2 (Z.ltb_ge _ _) H).
  split; [done|]. split; [done|].
  by destruct (handleMouseMove_accepted e.1 e.2 st H) as [-> _].
Qed.

Lemma acceptedTimes_head events st a :
  head (acceptedTimes events st) = Some a -> lastUpdateRef st + 16 <= a.
Proof.
  revert st. induction events as [|e events IH]; intros st; [done|].
  destruct (Z_lt_le_dec (e.1 - lastUpdateRef st) 16) as [Hd|Ha].
  - destruct (acceptedTimes_dropped e events st Hd) as [-> _]. apply IH.
  - destruct (acceptedTimes_accepted e events st Ha) as [-> _].
    cbn. intros [= <-]. lia.
Qed.

Lemma acceptedTimes_spaced events st i a b :
  acceptedTimes events st !! i = Some a ->
  acceptedTimes events st !! S i = Some b ->
  a + 16 <= b.
Proof.
  revert st i. induction events as [|e events IH]; intros st i; [done|].
  destruct (Z_lt_le_dec (e.1 - lastUpdateRef st) 16) as [Hd|Ha].
  - destruct (acceptedTimes_dropped e events st Hd) as [-> _]. apply IH.
  - destruct (acceptedTimes_accepted e events st Ha) as (-> & _ & Hl).
    destruct i as [|i]; intros Hi HSi.
    + injection Hi as <-. rewrite <- Hl. apply (acceptedTimes_head events).
      rewrite head_lookup. exact HSi.
    + exact (IH _ i Hi HSi).
Qed.

Lemma runMoves_lastUpdateRef events st :
  lastUpdateRef (runMoves events st)
  = default (lastUpdateRef st) (last (acceptedTimes events st)).
Proof.
  revert st. induction events as [|e events IH]; intros st; [done|].
  destruct (Z_lt_le_dec (e.1 - lastUpdateRef st) 16) as [Hd|Ha].
  - destruct (acceptedTimes_dropped e events st Hd) as [-> ->]. apply IH.
  - destruct (acceptedTimes_accepted e events st Ha) as (-> & -> & Hl).
    rewrite IH, Hl, last_cons.
    by destruct (last (acceptedTimes events (handleMouseMove e.1 e.2 st))).
Qed.

Lemma runMoves_frame events st :
  hiddenItems (runMoves events st) = hiddenItems st /\
  hiddenGroups (runMoves events st) = hiddenGroups st /\
  hoveredItem (runMoves events st) = hoveredItem st.
Proof.
  revert st. induction events as [|e events IH]; intros st; [done|].
  destruct (Z_lt_le_dec (e.1 - lastUpdateRef st) 16) as [Hd|Ha].
  - destruct (acceptedTimes_dropped e events st Hd) as [_ ->]. apply IH.
  - destruct (acceptedTimes_accepted e events st Ha) as (_ & -> & _).
    destruct (IH (handleMouseMove e.1 e.2 st)) as (-> & -> & ->).
    destruct (handleMouseMove_accepted e.1 e.2 st Ha) as (_ & -> & -> & -> & _).
    done.
Qed.

(** A list of times in which neighbours are at least 16 apart spans at
    least 16 times the number of its gaps. *)
Lemma spaced_span (l : list Z) a b :
  (forall i x y, l !! i = Some x -> l !! S i = Some y -> x + 16 <= y) ->
  head l = Some a -> last l = Some b ->
  16 * (Z.of_nat (length l) - 1) <= b - a.
Proof.
  revert a. induction l as [|x l IH]; intros a Hsp Hh Hl; [done|].
  cbn in Hh. injection Hh as ->.
  destruct l as [|y l].
  - cbn in Hl. injection Hl as ->. cbn. lia.
  - rewrite last_cons_cons in Hl.
    specialize (IH y (fun i => Hsp (S i)) eq_refl Hl).
    specialize (Hsp 0%nat a y eq_refl eq_refl).
    cbn [length] in *. lia.
Qed.

Lemma acceptedTimes_sublist events st :
  acceptedTimes events st `sublist_of` events.*1.
Proof.
  revert st. induction events as [|e events IH]; intros st; [done|].
  cbn [acceptedTimes fmap list_fmap].
  destruct (e.1 - lastUpdateRef st <? throttleMs).
  - apply sublist_cons, IH.
  - apply sublist_skip, IH.
Qed.
End Burst.

Section BurstResults.

(** X12 (a burst of pointer moves).  Whatever the arrival times of a list
    of moves, also with a clock that jumps backwards: the moves that
    pass the throttle are a sublist of the moves; the first passes at
    least 16 ms after the initial time stamp; two consecutive ones are
    at least 16 ms apart, so [k] of them span at least [16 * (k - 1)]
    ms; afterwards the time stamp is the arrival time of the last one
    that passed; and the hidden sets and the hovered code are
    untouched. *)
Theorem throttle_spaces_accepted_moves
    (events : list (Z * option MouseState)) (st : AppTsx.ChartState) :
  let accepted := AppTsx.acceptedTimes events st in
  accepted `sublist_of` events.*1 /\
  (forall a, head accepted = Some a -> AppTsx.lastUpdateRef st + 16 <= a) /\
  (forall i a b, accepted !! i = Some a -> accepted !! S i = Some b -> a + 16 <= b) /\
  (forall a b, head accepted = Some a -> last accepted = Some b ->
               16 * (Z.of_nat (length accepted) - 1) <= b - a) /\
  AppTsx.lastUpdateRef (AppTsx.runMoves events st)
    = default (AppTsx.lastUpdateRef st) (last accepted) /\
  AppTsx.hiddenItems (AppTsx.runMoves events st) = AppTsx.hiddenItems st /\
  AppTsx.hiddenGroups (AppTsx.runMoves events st) = AppTsx.hiddenGroups st /\
  AppTsx.hoveredItem (AppTsx.runMoves events st) = AppTsx.hoveredItem st.
Proof.
  intros accepted. subst accepted.
  split; [apply acceptedTimes_sublist|].
  split; [intros a; apply acceptedTimes_head|].
  split; [intros i a b; apply acceptedTimes_spaced|].
  split; [intros a b; apply spaced_span; intros i x y; apply acceptedTimes_spaced|].
  split; [apply runMoves_lastUpdateRef|].
  apply runMoves_frame.
Qed.

(** Forty moves one millisecond apart, the first 100 ms after mount:
    three of them pass, 16 ms apart. *)
Lemma throttle_spaces_accepted_moves_witness :
  let events := (fun k : nat => (100 + Z.of_nat k, moveOver (Z.of_nat k))) <$> seq 0 40 in
  AppTsx.acceptedTimes events AppTsx.initialState = [100; 116; 132] /\
  16 * (3 - 1) <= 132 - 100 /\
  AppTsx.lastUpdateRef (AppTsx.runMoves events AppTsx.initialState) = 132 /\
  AppTsx.activeIndex (AppTsx.runMoves events AppTsx.initialState) = Some 32.
Proof.
  intros events.
  pose proof (throttle_spaces_accepted_moves events AppTsx.initialState) as H.
  cbv zeta in H. destruct H as (_ & _ & _ & Hspan & Hlast & _).
  split; [reflexivity|].
  split; [exact (Hspan 100 132 eq_refl eq_refl)|].
  split; [rewrite Hlast; reflexivity | reflexivity].
Defined.

(** X13 (re-entering within the interval).  In [src/App.tsx] leaving the
    chart does not reset the throttle: a move that arrives less than
    16 ms after the last accepted move is dropped also when the pointer
    left the chart in between, so the index stays null and no tooltip is
    shown.  In [src/components/LineChart.tsx] the first move after a
    leave always sets the index. *)
Theorem move_right_after_leave_is_dropped
    (now1 now2 : Z) (state1 state2 : option MouseState) (mode : bool)
    (airlines : list Airline) (data : list (gmap string Qc))
    (st : AppTsx.ChartState) (stL : LineChartTsx.ChartState) (index : Z) :
  16 <= now1 - AppTsx.lastUpdateRef st ->
  now2 - now1 < 16 ->
  let st' := AppTsx.handleMouseMove now2 state2
               (AppTsx.handleMouseLeave (AppTsx.handleMouseMove now1 state1 st)) in
  AppTsx.activeIndex st' = None /\
  AppTsx.CustomTooltip mode airlines data st' = None /\
  LineChartTsx.activeIndex
    (LineChartTsx.handleMouseMove (moveOver index)
       (LineChartTsx.handleMouseLeave mode stL)) = Some index.
Proof.
  intros H1 H2 st'.
  assert (st' = AppTsx.handleMouseLeave (AppTsx.handleMouseMove now1 state1 st)) as ->.
  { apply handleMouseMove_dropped. cbn [AppTsx.handleMouseLeave AppTsx.setActiveIndex
      AppTsx.lastUpdateRef].
    destruct (handleMouseMove_accepted now1 state1 st H1) as [-> _]. done. }
  split; [done|]. split; [by apply App_tooltip_without_index|].
  by destruct mode.
Qed.

Lemma move_right_after_leave_is_dropped_witness :
  16 <= 100 - AppTsx.lastUpdateRef AppTsx.initialState /\
  105 - 100 < 16 /\
  AppTsx.activeIndex
    (AppTsx.handleMouseMove 105 (moveOver 8)
       (AppTsx.handleMouseLeave
          (AppTsx.handleMouseMove 100 (moveOver 7) AppTsx.initialState))) = None.
Proof.
  assert (16 <= 100 - AppTsx.lastUpdateRef AppTsx.initialState) as H1 by (cbn; lia).
  assert (105 - 100 < 16) as H2 by lia.
  split; [exact H1|]. split; [exact H2|].
  exact (proj1 (move_right_after_leave_is_dropped 100 105 (moveOver 7) (moveOver 8)
                  true [] [] AppTsx.initialState LineChartTsx.initialState 8 H1 H2)).
Defined.
End BurstResults.

(** ** Legend *)

Lemma group_split (airlines : list Airline) :
  filter (fun a => group a = operating) airlines
  ++ filter (fun a => group a = discontinued) airlines ≡ₚ airlines.
Proof.
  induction airlines as [|a l IH]; [done|].
  destruct (group a) eqn:E.
  - rewrite filter_cons_True by done.
    rewrite filter_cons_False by (by rewrite E). cbn. by rewrite IH.
  - rewrite filter_cons_False by (by rewrite E).
    rewrite filter_cons_True by done.
    rewrite <- Permutation_middle. by rewrite IH.
Qed.

Lemma legend_items_flags (st : AppTsx.ChartState) (g : Group) (l : list Airline) :
  Forall (fun a => group a = g) l ->
  Forall (fun it => itemHidden it = negb (AppTsx.isItemVisible st (itemAirline it)))
    ((fun airline =>
        {| itemAirline := airline;
           itemHidden := bool_decide (code airline ∈ AppTsx.hiddenItems st)
                         || bool_decide (g ∈ AppTsx.hiddenGroups st) |}) <$> l).
Proof.
  intros Hl. apply Forall_fmap. eapply Forall_impl; [exact Hl|].
  intros a Hg. cbn. unfold AppTsx.isItemVisible. rewrite Hg.
  destruct (decide (g ∈ AppTsx.hiddenGroups st)).
  - rewrite (bool_decide_eq_true_2 (g ∈ _)) by done. by rewrite orb_true_r.
  - rewrite (bool_decide_eq_false_2 (g ∈ _)) by done. rewrite orb_false_r.
    destruct (decide (code a ∈ AppTsx.hiddenItems st)).
    + by rewrite bool_decide_eq_true_2.
    + by rewrite bool_decide_eq_false_2.
Qed.

Lemma filter_group_Forall (g : Group) (airlines : list Airline) :
  Forall (fun a => group a = g) (filter (fun a => group a = g) airlines).
Proof. apply Forall_forall. by intros a [? _]%list_elem_of_filter. Qed.

Lemma legend_items_airlines (flag : Airline -> bool) (l : list Airline) :
  itemAirline <$> ((fun a => {| itemAirline := a; itemHidden := flag a |}) <$> l) = l.
Proof. induction l as [|a l IH]; [done|]. cbn. by rewrite IH. Qed.

Section LegendResults.

(** X14 (legend).  The legend has the groups "Operating" and
    "Discontinued", in this order, each flagged hidden iff the group is
    in [hiddenGroups]; the items of the two groups together are a
    rearrangement of the catalog, so every airline is listed once; an
    item is flagged hidden iff [isItemVisible] is false for its airline;
    and both files draw the same legend. *)
Theorem legend_lists_every_airline_once
    (airlines : list Airline) (st : AppTsx.ChartState) :
  let legend := AppTsx.renderLegend airlines st in
  groupTitle <$> legend = ["Operating"; "Discontinued"]%string /\
  groupHidden <$> legend
    = [bool_decide (operating ∈ AppTsx.hiddenGroups st);
       bool_decide (discontinued ∈ AppTsx.hiddenGroups st)] /\
  (legend ≫= fun grp => itemAirline <$> groupItems grp) ≡ₚ airlines /\
  Forall (fun grp =>
            Forall (fun it => itemHidden it
                              = negb (AppTsx.isItemVisible st (itemAirline it)))
                   (groupItems grp)) legend /\
  LineChartTsx.renderLegend airlines (useStateCells st) = legend.
Proof.
  intros legend. subst legend. unfold AppTsx.renderLegend.
  split; [reflexivity|]. split; [reflexivity|]. split; [|split; [|reflexivity]].
  - cbn [mbind list_bind groupItems]. rewrite app_nil_r.
    rewrite (legend_items_airlines
               (fun a => bool_decide (code a ∈ AppTsx.hiddenItems st)
                         || bool_decide (operating ∈ AppTsx.hiddenGroups st))).
    rewrite (legend_items_airlines
               (fun a => bool_decide (code a ∈ AppTsx.hiddenItems st)
                         || bool_decide (discontinued ∈ AppTsx.hiddenGroups st))).
    apply group_split.
  - repeat apply Forall_cons_2; [| |apply Forall_nil_2]; cbn [groupItems];
      apply legend_items_flags, filter_group_Forall.
Qed.
End LegendResults.

(** ** Render order for any catalog *)

Section Order.
Context (hovered : option string).

Lemma filter_split_Permutation {A} (P : A -> Prop) `{!forall x, Decision (P x)}
    (l : list A) :
  filter (fun a => ~ P a) l ++ reverse (filter P l) ≡ₚ l.
Proof.
  rewrite reverse_Permutation.
  induction l as [|a l IH]; [done|].
  destruct (decide (P a)).
  - rewrite filter_cons_False by tauto. rewrite filter_cons_True by done.
    rewrite <- Permutation_middle. by rewrite IH.
  - rewrite filter_cons_True by done. rewrite filter_cons_False by done.
    cbn. by rewrite IH.
Qed.

Lemma filter_all {A} (P : A -> Prop) `{!forall x, Decision (P x)} (l : list A) :
  Forall P l -> filter P l = l.
Proof.
  induction 1 as [|a l Ha Hl IH]; [done|].
  by rewrite filter_cons_True, IH.
Qed.

Lemma filter_none {A} (P : A -> Prop) `{!forall x, Decision (P x)} (l : list A) :
  Forall (fun a => ~ P a) l -> filter P l = [].
Proof.
  induction 1 as [|a l Ha Hl IH]; [done|].
  by rewrite filter_cons_False, IH.
Qed.

Lemma sortedAirlines_not_hovered airlines :
  Forall (fun a => Some (code a) <> hovered) airlines ->
  AppTsx.sortedAirlines airlines hovered = airlines.
Proof.
  intros H. unfold AppTsx.sortedAirlines. rewrite Array_sort_hover.
  rewrite filter_all by done.
  rewrite (filter_none (fun a => Some (code a) = hovered)) by done.
  by rewrite app_nil_r.
Qed.
End Order.

Section OrderResults.

(** X15 (render order for any catalog).  For every catalog, also one
    with repeated codes, the sorted copy is a rearrangement of the
    catalog in which the airlines that are not hovered keep their order;
    it is the catalog itself when nothing is hovered or the hovered code
    is not a code of the catalog; and both files sort alike. *)
Theorem render_order_is_a_rearrangement
    (airlines : list Airline) (hovered : option string) :
  AppTsx.sortedAirlines airlines hovered ≡ₚ airlines /\
  filter (fun a => Some (code a) <> hovered) (AppTsx.sortedAirlines airlines hovered)
    = filter (fun a => Some (code a) <> hovered) airlines /\
  AppTsx.sortedAirlines airlines None = airlines /\
  (forall c, c ∉ code <$> airlines ->
             AppTsx.sortedAirlines airlines (Some c) = airlines) /\
  LineChartTsx.sortedAirlines airlines hovered
    = AppTsx.sortedAirlines airlines hovered.
Proof.
  split; [|split; [|split; [|split; [|reflexivity]]]].
  - unfold AppTsx.sortedAirlines. rewrite Array_sort_hover.
    apply (filter_split_Permutation (fun a => Some (code a) = hovered)).
  - unfold AppTsx.sortedAirlines. rewrite Array_sort_hover, filter_app.
    rewrite (filter_all _ (filter _ airlines))
      by (apply Forall_forall; by intros a [? _]%list_elem_of_filter).
    rewrite (filter_none (fun a => Some (code a) <> hovered) (reverse _)), app_nil_r;
      [done|].
    apply Forall_forall. intros a [Ha _]%elem_of_reverse%list_elem_of_filter. tauto.
  - apply sortedAirlines_not_hovered, Forall_forall. by intros a _.
  - intros c Hc. apply sortedAirlines_not_hovered, Forall_forall.
    intros a Ha [= <-]. apply Hc. by apply list_elem_of_fmap_2.
Qed.

Lemma render_order_is_a_rearrangement_witness :
  ("ZZ"%string ∉ code <$> twoPlusTwo) /\
  AppTsx.sortedAirlines twoPlusTwo (Some "ZZ"%string) = twoPlusTwo.
Proof.
  assert ("ZZ"%string ∉ code <$> twoPlusTwo) as H.
  { apply (bool_decide_unpack _). vm_compute. exact I. }
  split; [exact H|].
  exact (proj1 (proj2 (proj2 (proj2
           (render_order_is_a_rearrangement twoPlusTwo None)))) "ZZ"%string H).
Defined.
End OrderResults.

(** ** The two components side by side *)

Lemma useStateCells_isItemVisible st a :
  LineChartTsx.isItemVisible (useStateCells st) a = AppTsx.isItemVisible st a.
Proof. reflexivity. Qed.

Lemma useStateCells_CustomTooltip mode airlines data st :
  LineChartTsx.CustomTooltip mode airlines data (useStateCells st)
  = AppTsx.CustomTooltip mode airlines data st.
Proof. by apply LineChartTsx_CustomTooltip_eq. Qed.

Lemma fade_levels :
  num 0 <> num 0.08 /\ num 1 <> num 0.08 /\ num 0.08 <> num 0.15.
Proof. repeat split; by vm_compute. Qed.

Lemma useStateCells_getLineOpacity mode st a :
  LineChartTsx.getLineOpacity mode (useStateCells st) a
  = if decide (AppTsx.getLineOpacity mode st a = num 0.08) then num 0.15
    else AppTsx.getLineOpacity mode st a.
Proof.
  destruct fade_levels as (H0 & H1 & _).
  unfold LineChartTsx.getLineOpacity, AppTsx.getLineOpacity.
  rewrite useStateCells_isItemVisible. unfold AppTsx.isItemVisible.
  cbn [useStateCells LineChartTsx.hoveredItem].
  destruct (decide (group a ∈ AppTsx.hiddenGroups st)); cbn [negb];
    [by rewrite decide_False|].
  destruct (decide (code a ∈ AppTsx.hiddenItems st)); cbn [negb];
    [by rewrite decide_False|].
  destruct mode; cbn [negb]; [|by rewrite decide_False].
  destruct (decide (AppTsx.hoveredItem st = None)); [by rewrite decide_False|].
  destruct (decide (AppTsx.hoveredItem st = Some (code a))); [by rewrite decide_False|].
  by rewrite decide_True.
Qed.

Lemma useStateCells_dot mode st a index :
  LineChartTsx.dot mode (useStateCells st) a index
  = if decide (AppTsx.activeIndex st = Some index)
    then default 0 (AppTsx.activeDot mode st a) else 0.
Proof.
  unfold LineChartTsx.dot, AppTsx.activeDot. rewrite useStateCells_isItemVisible.
  cbn [useStateCells LineChartTsx.hoveredItem LineChartTsx.activeIndex].
  destruct (decide (AppTsx.activeIndex st = Some index)) as [Hi|Hi].
  - rewrite (bool_decide_eq_true_2 _ Hi).
    rewrite (bool_decide_eq_true_2 (AppTsx.activeIndex st <> None)) by (by rewrite Hi).
    rewrite andb_true_r. cbn [andb].
    destruct mode; [by destruct (bool_decide _)|by destruct (AppTsx.isItemVisible st a)].
  - rewrite (bool_decide_eq_false_2 _ Hi). rewrite andb_false_r. cbn [andb].
    by destruct mode.
Qed.

Section ViewResults.

(** X16 (the two files render alike).  On the same four state cells
    [src/components/LineChart.tsx] computes the same visibility, line
    width and tooltip as [src/App.tsx]; the same opacity except that a
    faded line has 0.15 instead of 0.08; and its [dot] renderer draws,
    at the active index, a circle of the radius of the [activeDot] of
    [src/App.tsx], and radius 0 at every other index and wherever
    [activeDot] is [false]. *)
Theorem LineChartTsx_renders_like_App
    (mode : bool) (airlines : list Airline) (data : list (gmap string Qc))
    (st : AppTsx.ChartState) (a : Airline) (index : Z) :
  LineChartTsx.isItemVisible (useStateCells st) a = AppTsx.isItemVisible st a /\
  LineChartTsx.getLineWidth (useStateCells st) a = AppTsx.getLineWidth st a /\
  LineChartTsx.CustomTooltip mode airlines data (useStateCells st)
    = AppTsx.CustomTooltip mode airlines data st /\
  LineChartTsx.getLineOpacity mode (useStateCells st) a
    = (if decide (AppTsx.getLineOpacity mode st a = num 0.08) then num 0.15
       else AppTsx.getLineOpacity mode st a) /\
  LineChartTsx.dot mode (useStateCells st) a index
    = (if decide (AppTsx.activeIndex st = Some index)
       then default 0 (AppTsx.activeDot mode st a) else 0).
Proof.
  split; [reflexivity|]. split; [reflexivity|].
  split; [apply useStateCells_CustomTooltip|].
  split; [apply useStateCells_getLineOpacity | apply useStateCells_dot].
Qed.
End ViewResults.

(** *** Handlers and reachable states *)

Lemma useWorld_mount rnd mode :
  useWorld (AppTsx.mount rnd mode) = LineChartTsx.mount rnd mode.
Proof.
  unfold useWorld, AppTsx.mount, LineChartTsx.mount.
  cbn [AppTsx.singleAirlineMode AppTsx.memoAirlines AppTsx.memoData AppTsx.chart].
  pose proof (LineChartTsx_generateData_eq rnd generateAirlines) as H.
  revert H. generalize (LineChartTsx.generateData rnd generateAirlines).
  intros d ->. reflexivity.
Qed.

Lemma useWorld_step_accepted now now' e w :
  16 <= now - AppTsx.lastUpdateRef (AppTsx.chart w) ->
  LineChartTsx.step now' e (useWorld w) = useWorld (AppTsx.step now e w).
Proof.
  intros H. destruct e as [checked|c|g|c| |state|]; try reflexivity.
  - cbn [AppTsx.step LineChartTsx.step]. unfold useWorld, AppTsx.withChart,
      LineChartTsx.withChart.
    cbn [AppTsx.singleAirlineMode AppTsx.memoAirlines AppTsx.memoData AppTsx.chart
         LineChartTsx.singleAirlineMode LineChartTsx.memoAirlines
         LineChartTsx.memoData LineChartTsx.chart].
    f_equal. unfold AppTsx.handleMouseMove, AppTsx.throttleMs.
    rewrite (proj2 (Z.ltb_ge _ _) H).
    by destruct state as [[[index|]]|].
  - cbn [AppTsx.step LineChartTsx.step]. unfold useWorld, AppTsx.withChart,
      LineChartTsx.withChart.
    cbn [AppTsx.singleAirlineMode AppTsx.memoAirlines AppTsx.memoData AppTsx.chart
         LineChartTsx.singleAirlineMode LineChartTsx.memoAirlines
         LineChartTsx.memoData LineChartTsx.chart].
    f_equal. by destruct (AppTsx.singleAirlineMode w).
Qed.

Lemma useWorld_step_dropped now state w :
  now - AppTsx.lastUpdateRef (AppTsx.chart w) < 16 ->
  useWorld (AppTsx.step now (ChartMouseMove state) w) = useWorld w.
Proof.
  intros H. cbn [AppTsx.step]. by rewrite (handleMouseMove_dropped _ _ _ H).
Qed.

Lemma App_step_clock now now' e w :
  (forall state, e <> ChartMouseMove state) ->
  AppTsx.step now e w = AppTsx.step now' e w.
Proof. intros He. destruct e; try reflexivity. by destruct (He state). Qed.

Lemma App_reachable_view rnd wA :
  AppTsx.reachable rnd wA -> LineChartTsx.reachable rnd (useWorld wA).
Proof.
  induction 1 as [mode|now e w Hw IH].
  - rewrite useWorld_mount. constructor.
  - destruct (Z_lt_le_dec (now - AppTsx.lastUpdateRef (AppTsx.chart w)) 16) as [Hd|Ha].
    + assert ((exists state, e = ChartMouseMove state)
              \/ ~ (exists state, e = ChartMouseMove state)) as [[state ->]|He].
      { destruct e; try (right; by intros [? ?]). left. by eexists. }
      * by rewrite useWorld_step_dropped.
      * rewrite (App_step_clock now (AppTsx.lastUpdateRef (AppTsx.chart w) + 16))
          by (intros state ->; apply He; by exists state).
        rewrite <- (useWorld_step_accepted _ now) by lia. by constructor.
    + rewrite <- (useWorld_step_accepted now now) by done. by constructor.
Qed.

Lemma LineChart_reachable_view rnd wL :
  LineChartTsx.reachable rnd wL ->
  exists wA, AppTsx.reachable rnd wA /\ useWorld wA = wL.
Proof.
  induction 1 as [mode|now e w Hw (wA & HA & <-)].
  - exists (AppTsx.mount rnd mode). split; [constructor | apply useWorld_mount].
  - exists (AppTsx.step (AppTsx.lastUpdateRef (AppTsx.chart wA) + 16) e wA).
    split; [by constructor|].
    symmetry. apply useWorld_step_accepted. lia.
Qed.

Section ReachResults.

(** X17 (the throttle hides no state).  A state (mode, catalog, matrix
    and the four cells) can be reached in [src/components/LineChart.tsx]
    iff it is the view of a state that can be reached in [src/App.tsx]:
    every handler but [handleMouseMove] acts alike in the two files, a
    move that passes the throttle acts alike, and a dropped move changes
    nothing. *)
Theorem both_components_reach_the_same_states
    (rnd : nat -> Qc) (wL : LineChartTsx.World) :
  LineChartTsx.reachable rnd wL <->
  exists wA, AppTsx.reachable rnd wA /\ useWorld wA = wL.
Proof.
  split; [apply LineChart_reachable_view|].
  intros (wA & HA & <-). by apply App_reachable_view.
Qed.

(** The view of a chart of [src/App.tsx] that dropped a move 5 ms after
    mount is reached in [src/components/LineChart.tsx]. *)
Lemma both_components_reach_the_same_states_witness :
  LineChartTsx.reachable jumpRandom
    (useWorld (AppTsx.step 5 (ChartMouseMove (moveOver 3))
                 (AppTsx.mount jumpRandom true))).
Proof.
  apply (proj2 (both_components_reach_the_same_states jumpRandom _)).
  exists (AppTsx.step 5 (ChartMouseMove (moveOver 3)) (AppTsx.mount jumpRandom true)).
  split; [apply AppTsx.reachable_step, AppTsx.reachable_mount | exact eq_refl].
Defined.
End ReachResults.

Lemma App_classic_tooltip airlines data (st : AppTsx.ChartState) i dp :
  AppTsx.activeIndex st = Some i -> array_get data i = Some dp ->
  AppTsx.CustomTooltip false airlines data st =
  match List.filter (AppTsx.isItemVisible st) airlines with
  | [] => None
  | visible =>
      Some (ClassicTooltip (dp !! "year"%string)
              ((fun airline => (airline, default (num 0) (dp !! code airline)))
                 <$> visible))
  end.
Proof.
  intros Hi Hdp. unfold AppTsx.CustomTooltip. rewrite Hi, Hdp.
  by destruct (List.filter (AppTsx.isItemVisible st) airlines).
Qed.

Lemma App_classic_tooltip_hover airlines data (st : AppTsx.ChartState) h :
  AppTsx.CustomTooltip false airlines data (AppTsx.setHoveredItem h st)
  = AppTsx.CustomTooltip false airlines data st.
Proof. reflexivity. Qed.

Section ClassicTooltipResults.
Local Open Scope Qc_scope.

(** X18 (classic tooltip over the generated matrix).  In classic mode,
    with the active index on one of the 180 samples and at least one
    airline visible, the tooltip shows the "year" entry of that sample
    and one row per visible airline, in catalog order; the number of a
    row is the sample's value for the airline, an integer between 100
    and 5500, so the fallback 0 is never shown; the hovered code does
    not matter; and [src/components/LineChart.tsx] shows the same. *)
Theorem classic_tooltip_rows
    (rnd : nat -> Qc) (airlines : list Airline) (st : AppTsx.ChartState)
    (i : Z) (a0 : Airline) :
  AppTsx.activeIndex st = Some i -> (0 <= i < 180)%Z ->
  a0 ∈ airlines -> AppTsx.isItemVisible st a0 = true ->
  exists dp rows,
    AppTsx.generateData rnd airlines !! Z.to_nat i = Some dp /\
    AppTsx.CustomTooltip false airlines (AppTsx.generateData rnd airlines) st
      = Some (ClassicTooltip (dp !! "year"%string) rows) /\
    rows.*1 = List.filter (AppTsx.isItemVisible st) airlines /\
    Forall (fun row => exists z : Z,
              dp !! code row.1 = Some (Qc_of_Z z) /\ row.2 = Qc_of_Z z /\
              (100 <= z <= 5500)%Z) rows /\
    (forall h,
       AppTsx.CustomTooltip false airlines (AppTsx.generateData rnd airlines)
         (AppTsx.setHoveredItem h st)
       = Some (ClassicTooltip (dp !! "year"%string) rows)) /\
    LineChartTsx.CustomTooltip false airlines
      (LineChartTsx.generateData rnd airlines) (useStateCells st)
      = Some (ClassicTooltip (dp !! "year"%string) rows).
Proof.
  intros Hi Hr Ha0 Hv.
  destruct (sample_keys_and_time rnd airlines (Z.to_nat i)) as (dp & Hdp & _ & Hval & _);
    [lia|].
  pose proof (LineChartTsx_generateData_eq rnd airlines) as HL.
  revert HL. generalize (LineChartTsx.generateData rnd airlines). intros dL ->.
  rewrite useStateCells_CustomTooltip.
  assert (array_get (AppTsx.generateData rnd airlines) i = Some dp) as Hget.
  { unfold array_get. by rewrite (proj2 (Z.leb_le _ _)) by lia. }
  revert Hdp Hget. generalize (AppTsx.generateData rnd airlines). intros data Hdp Hget.
  exists dp, ((fun airline => (airline, default (num 0) (dp !! code airline)))
              <$> List.filter (AppTsx.isItemVisible st) airlines).
  split; [done|].
  assert (AppTsx.CustomTooltip false airlines data st
          = Some (ClassicTooltip (dp !! "year"%string)
                    ((fun airline => (airline, default (num 0) (dp !! code airline)))
                       <$> List.filter (AppTsx.isItemVisible st) airlines))) as Htt.
  { rewrite (App_classic_tooltip airlines data st i dp Hi Hget).
    destruct (List.filter (AppTsx.isItemVisible st) airlines) eqn:E; [|done].
    assert (In a0 (List.filter (AppTsx.isItemVisible st) airlines)) as Hin
      by (apply filter_In; split; [by apply list_elem_of_In|done]).
    rewrite E in Hin. destruct Hin. }
  split; [exact Htt|]. split.
  - rewrite <- list_fmap_compose. generalize (List.filter (AppTsx.isItemVisible st) airlines).
    intros l. induction l as [|x l IH]; [done|]. cbn. by rewrite IH.
  - split; [|split; [intros h; by rewrite App_classic_tooltip_hover | exact Htt]].
    apply Forall_fmap, Forall_forall. intros a Ha. cbn.
    apply list_elem_of_In, filter_In in Ha as [Ha _]. apply list_elem_of_In in Ha.
    destruct (Hval a Ha) as (z & Hz & Hb). exists z. by rewrite Hz.
Qed.

Lemma classic_tooltip_rows_witness :
  let st := AppTsx.setActiveIndex (Some 5)
              (AppTsx.toggleGroup discontinued AppTsx.initialState) in
  AppTsx.activeIndex st = Some 5%Z /\ (0 <= 5 < 180)%Z /\
  airlineLX ∈ twoPlusTwo /\ AppTsx.isItemVisible st airlineLX = true /\
  exists dp rows,
    AppTsx.generateData jumpRandom twoPlusTwo !! Z.to_nat 5 = Some dp /\
    AppTsx.CustomTooltip false twoPlusTwo (AppTsx.generateData jumpRandom twoPlusTwo) st
      = Some (ClassicTooltip (dp !! "year"%string) rows) /\
    rows.*1 = [airlineLX; airlineBA].
Proof.
  intros st.
  assert (AppTsx.activeIndex st = Some 5%Z) as Hi by reflexivity.
  assert (0 <= 5 < 180)%Z as Hr by lia.
  assert (airlineLX ∈ twoPlusTwo) as Ha by (apply list_elem_of_here).
  assert (AppTsx.isItemVisible st airlineLX = true) as Hv by reflexivity.
  split; [exact Hi|]. split; [exact Hr|]. split; [exact Ha|]. split; [exact Hv|].
  destruct (classic_tooltip_rows jumpRandom twoPlusTwo st 5 airlineLX Hi Hr Ha Hv)
    as (dp & rows & Hdp & Htt & Hrows & _).
  exists dp, rows. split; [exact Hdp|]. split; [exact Htt|].
  rewrite Hrows. reflexivity.
Defined.
End ClassicTooltipResults.

Lemma array_get_Some {A} (l : list A) (i : Z) (x : A) :
  array_get l i = Some x ->
  0 <= i < Z.of_nat (length l) /\ l !! Z.to_nat i = Some x.
Proof.
  unfold array_get. destruct (0 <=? i) eqn:E; [|done].
  apply Z.leb_le in E. intros H. split; [|done].
  apply lookup_lt_Some in H. lia.
Qed.

Section TooltipInversion.

(** X19 (when a tooltip is shown).  Whenever [CustomTooltip] renders
    something, the active index is a position of the matrix, and what is
    shown is read from that sample: in single-airline mode an airline of
    the catalog whose non-empty code is the hovered one, visible or not;
    in classic mode a non-empty list of rows, one per visible airline.
    [src/components/LineChart.tsx] renders the same. *)
Theorem tooltip_needs_a_sample
    (mode : bool) (airlines : list Airline) (data : list (gmap string Qc))
    (st : AppTsx.ChartState) (shown : Tooltip) :
  AppTsx.CustomTooltip mode airlines data st = Some shown ->
  LineChartTsx.CustomTooltip mode airlines data (useStateCells st) = Some shown /\
  exists i dataPoint,
    AppTsx.activeIndex st = Some i /\ 0 <= i < Z.of_nat (length data) /\
    data !! Z.to_nat i = Some dataPoint /\
    match shown with
    | SingleTooltip airline year value =>
        mode = true /\ airline ∈ airlines /\
        AppTsx.hoveredItem st = Some (code airline) /\ code airline <> ""%string /\
        year = dataPoint !! "year"%string /\
        value = default (num 0) (dataPoint !! code airline)
    | ClassicTooltip year rows =>
        mode = false /\ rows <> [] /\
        rows.*1 = List.filter (AppTsx.isItemVisible st) airlines /\
        year = dataPoint !! "year"%string /\
        Forall (fun row => row.2 = default (num 0) (dataPoint !! code row.1)) rows
    end.
Proof.
  intros Hshown. split; [by rewrite useStateCells_CustomTooltip|].
  unfold AppTsx.CustomTooltip in Hshown.
  destruct (AppTsx.activeIndex st) as [i|]; [|done].
  destruct (array_get data i) as [dataPoint|] eqn:Hget; [|done].
  apply array_get_Some in Hget as [Hi Hdp].
  exists i, dataPoint. split; [done|]. split; [done|]. split; [done|].
  destruct mode.
  - destruct (AppTsx.hoveredItem st) as [h|]; [|done].
    destruct (decide (h = ""%string)) as [|Hne]; [done|].
    destruct (List.find (fun a => bool_decide (code a = h)) airlines)
      as [airline|] eqn:Hfind; [|done].
    apply find_some in Hfind as [Hin Hcode]. apply bool_decide_eq_true_1 in Hcode.
    injection Hshown as <-. subst h.
    split; [done|]. split; [by apply list_elem_of_In|]. done.
  - destruct (length (List.filter (AppTsx.isItemVisible st) airlines) =? 0)%nat eqn:E;
      [done|].
    injection Hshown as <-. split; [done|].
    apply Nat.eqb_neq in E.
    generalize dependent (List.filter (AppTsx.isItemVisible st) airlines). intros l E.
    split; [by destruct l|].
    split; [|split; [done|]].
    + induction l as [|x l IH]; [done|]. cbn. f_equal.
      destruct l; [done|]. apply IH. cbn. lia.
    + apply Forall_fmap, Forall_forall. by intros a _.
Qed.

(** Single-airline mode: the legend item of a hidden airline is hovered
    while the pointer index is 5.  The tooltip is shown for the hidden
    line. *)
Lemma tooltip_needs_a_sample_witness :
  let st := AppTsx.setActiveIndex (Some 5)
              (AppTsx.setHoveredItem (Some "CX"%string)
                 (AppTsx.toggleItem "CX" AppTsx.initialState)) in
  AppTsx.isItemVisible st airlineCX = false /\
  exists year value,
    AppTsx.CustomTooltip true twoPlusTwo (AppTsx.generateData jumpRandom twoPlusTwo) st
      = Some (SingleTooltip airlineCX year value) /\
    LineChartTsx.CustomTooltip true twoPlusTwo
      (AppTsx.generateData jumpRandom twoPlusTwo) (useStateCells st)
      = Some (SingleTooltip airlineCX year value).
Proof.
  intros st. split; [reflexivity|].
  assert (NoDup (code <$> twoPlusTwo)) as Hnd.
  { apply (bool_decide_unpack _). vm_compute. exact I. }
  assert (airlineCX ∈ twoPlusTwo) as HCX
    by (apply list_elem_of_further, list_elem_of_further, list_elem_of_here).
  destruct (single_tooltip_App twoPlusTwo (AppTsx.generateData jumpRandom twoPlusTwo)
              st "CX" 5 eq_refl eq_refl)
    as (a & dp & Ha & Hc & _ & Hshown).
  { done. }
  { by apply (list_elem_of_fmap_2 code) in HCX. }
  { rewrite generateData_length. lia. }
  assert (a = airlineCX) as -> by (by apply (NoDup_code_inj twoPlusTwo)).
  eexists _, _. split; [exact Hshown|].
  exact (proj1 (tooltip_needs_a_sample true twoPlusTwo _ st _ Hshown)).
Defined.
End TooltipInversion.
